(** * Patient monitoring node (Particle Argon): event detection and telemetry

    A shallow embedding of [Particle_Argon_Patient_Monitoring.cpp]: the
    free-fall detector, the orientation classifier, the presence check, the
    department (proximity) classifier, the rate-limited publish paths and the
    cloud command function, followed by the properties stated about them.

    Conventions of the embedding.
    - The firmware runs one cooperative control loop, so every function is a
      transformer of one [World]: the program's globals, the wall clock, the
      D7 pin, the EEPROM cell and the trace of what was published and logged.
    - The wall clock [now] counts microseconds since power-on as an unbounded
      integer; [millis()] and [micros()] are its 32-bit views and wrap around.
    - [system_tick_t] and [unsigned long] are 32 bits wide on this platform;
      arithmetic on them is written with its wrap-around ([u32]).
    - A [float] read from the sensor is a rational number; values of type
      [float] are carried as [Q] and compared exactly. *)

From Stdlib Require Import ZArith NArith QArith Qabs Bool List String Ascii Lia.
Import ListNotations.

#[local] Open Scope string_scope.
#[local] Open Scope list_scope.
#[local] Open Scope Z_scope.

(** ** Constants of the source *)

Definition FALL_THRESHOLD : Q := 5 # 10.
Definition FALL_DURATION_US : Z := 300000.
Definition STANDING_Z_MIN : Q := 7 # 10.
Definition LYING_Z_MAX : Q := 4 # 10.
Definition DEVICE_RE_CHECK_MS : Z := 7500.
Definition DEVICE_NOT_HERE_MS : Z := 30000.
Definition PUBLISH_INTERVAL_MS : Z := 1100.
Definition STATUS_UPDATE_INTERVAL_MS : Z := 300000.

(** The accelerometer's sensitivity at the default +-2 g range: LSB per g. *)
Definition LSB_PER_G : positive := 16384.

(** [BleAddress]: the six address bytes as one 48-bit number. *)
Definition BleAddress : Type := Z.
Definition arg1Address : BleAddress := 0xAABBCCDDEE01.
Definition arg2Address : BleAddress := 0xAABBCCDDEE02.
(** What an erased EEPROM cell reads as: ff:ff:ff:ff:ff:ff. *)
Definition unsetAddress : BleAddress := 0xFFFFFFFFFFFF.

Definition latitude : Q := 100266 # 10000.
Definition longitude : Q := 763119 # 10000.

(** ** 32-bit unsigned arithmetic and exact comparison of rationals *)

Definition u32 (x : Z) : Z := x mod 2 ^ 32.

(** The bits of a 32-bit value read as a signed [int]: what [%d] prints
    when it is handed an unsigned 32-bit argument. *)
Definition int32_t (x : Z) : Z := (x + 2 ^ 31) mod 2 ^ 32 - 2 ^ 31.

Definition Qlt_bool (x y : Q) : bool := negb (Qle_bool y x).

(** ** Presence *)

Inductive DevicePresenceType : Type :=
| PresenceUnknown
| Here
| NotHere.

Definition presence_eqb (a b : DevicePresenceType) : bool :=
  match a, b with
  | PresenceUnknown, PresenceUnknown | Here, Here | NotHere, NotHere => true
  | _, _ => false
  end.

Definition messages (p : DevicePresenceType) : string :=
  match p with
  | PresenceUnknown => "unknown"
  | Here => "here"
  | NotHere => "not here"
  end.

(** ** What leaves the node: published events and log lines *)

(** The payloads, one constructor per [String::format] call, holding the
    formatted values in order, each as its conversion prints it. The name
    field is present when [deviceName] is not empty; the map link is built
    from the two constant coordinates and is not repeated here. *)
Inductive payload : Type :=
| PNone
| PStatus (name : option string) (address : BleAddress) (seen : Z) (rssi : Z)
          (st department orientation : string) (temperature : Q)
| PPeriodic (orientation department : string) (temperature : Q) (timestamp : Z)
| PDepartment (department : string) (rssi : Z) (timestamp : Z)
| PFalling (name : option string) (address : BleAddress)
           (st department orientation : string) (temperature : Q)
| PLocation (name : option string) (rssi : Z)
            (department orientation : string) (temperature : Q).

Inductive logmsg : Type :=
| LogPeriodicStatus
| LogOrientationChanged (orientation : string)
| LogDepartmentPublished (department : string) (rssi : Z)
| LogFallDetected
| LogFallConfirmed (fallDuration : Z)
| LogFallEnded (fallDuration : Z)
| LogFallAlertPublished
| LogDetectedDepartment (department : string) (rssi : Z)
| LogDeviceSaved (address : BleAddress)
| LogDeviceDetected (rssi : Z)
| LogPresence (p : DevicePresenceType)
| LogLearningMode
| LogLocationSent
| LogLocationTracking (enabled : bool)
| LogManual (what : string)
| LogInvalidCommand.

(** An event carries the time it happened at, in whole milliseconds of the
    wall clock (not wrapped). The trace is kept newest first. *)
Inductive event : Type :=
| Publish (name : string) (data : payload) (at_ms : Z)
| Log (at_ms : Z) (m : logmsg).

(** ** The state *)

Record Globals : Type := mkGlobals {
  g_statuss : bool;
  g_searchAddress : BleAddress;
  g_lastSeen : Z;
  g_lastPublish : Z;
  g_lastStatusUpdate : Z;
  g_lastRSSI : Z;
  g_status : payload;
  g_deviceName : string;
  g_currentDepartment : string;
  g_lastPublishedDept : string;
  g_lastDeptSeen : Z;
  g_mpuInitialized : bool;
  g_fallStartTime : Z;
  g_isFalling : bool;
  g_currentOrientation : string;
  g_lastOrientation : string;
  g_currentTemperature : Q;
  g_present : DevicePresenceType
}.

Record World : Type := mkWorld {
  g : Globals;
  now : Z;
  latency : list N;
  trace : list event;
  pinD7 : bool;
  eeprom : BleAddress
}.

Definition set_g (v : Globals) (w : World) : World :=
  mkWorld v (now w) (latency w) (trace w) (pinD7 w) (eeprom w).

Definition set_now (v : Z) (w : World) : World :=
  mkWorld (g w) v (latency w) (trace w) (pinD7 w) (eeprom w).

Definition set_latency (v : list N) (w : World) : World :=
  mkWorld (g w) (now w) v (trace w) (pinD7 w) (eeprom w).

Definition set_trace (v : list event) (w : World) : World :=
  mkWorld (g w) (now w) (latency w) v (pinD7 w) (eeprom w).

Definition set_pinD7 (v : bool) (w : World) : World :=
  mkWorld (g w) (now w) (latency w) (trace w) v (eeprom w).

Definition set_eeprom (v : BleAddress) (w : World) : World :=
  mkWorld (g w) (now w) (latency w) (trace w) (pinD7 w) v.

Definition statuss (w : World) : bool := g_statuss (g w).

Definition searchAddress (w : World) : BleAddress := g_searchAddress (g w).

Definition lastSeen (w : World) : Z := g_lastSeen (g w).

Definition lastPublish (w : World) : Z := g_lastPublish (g w).

Definition lastStatusUpdate (w : World) : Z := g_lastStatusUpdate (g w).

Definition lastRSSI (w : World) : Z := g_lastRSSI (g w).

Definition status (w : World) : payload := g_status (g w).

Definition deviceName (w : World) : string := g_deviceName (g w).

Definition currentDepartment (w : World) : string := g_currentDepartment (g w).

Definition lastPublishedDept (w : World) : string := g_lastPublishedDept (g w).

Definition lastDeptSeen (w : World) : Z := g_lastDeptSeen (g w).

Definition mpuInitialized (w : World) : bool := g_mpuInitialized (g w).

Definition fallStartTime (w : World) : Z := g_fallStartTime (g w).

Definition isFalling (w : World) : bool := g_isFalling (g w).

Definition currentOrientation (w : World) : string := g_currentOrientation (g w).

Definition lastOrientation (w : World) : string := g_lastOrientation (g w).

Definition currentTemperature (w : World) : Q := g_currentTemperature (g w).

Definition present (w : World) : DevicePresenceType := g_present (g w).

Definition set_statuss (v : bool) (w : World) : World :=
  set_g (mkGlobals v (searchAddress w) (lastSeen w) (lastPublish w) (lastStatusUpdate w) (lastRSSI w) (status w) (deviceName w) (currentDepartment w) (lastPublishedDept w) (lastDeptSeen w) (mpuInitialized w) (fallStartTime w) (isFalling w) (currentOrientation w) (lastOrientation w) (currentTemperature w) (present w)) w.

Definition set_searchAddress (v : BleAddress) (w : World) : World :=
  set_g (mkGlobals (statuss w) v (lastSeen w) (lastPublish w) (lastStatusUpdate w) (lastRSSI w) (status w) (deviceName w) (currentDepartment w) (lastPublishedDept w) (lastDeptSeen w) (mpuInitialized w) (fallStartTime w) (isFalling w) (currentOrientation w) (lastOrientation w) (currentTemperature w) (present w)) w.

Definition set_lastSeen (v : Z) (w : World) : World :=
  set_g (mkGlobals (statuss w) (searchAddress w) v (lastPublish w) (lastStatusUpdate w) (lastRSSI w) (status w) (deviceName w) (currentDepartment w) (lastPublishedDept w) (lastDeptSeen w) (mpuInitialized w) (fallStartTime w) (isFalling w) (currentOrientation w) (lastOrientation w) (currentTemperature w) (present w)) w.

Definition set_lastPublish (v : Z) (w : World) : World :=
  set_g (mkGlobals (statuss w) (searchAddress w) (lastSeen w) v (lastStatusUpdate w) (lastRSSI w) (status w) (deviceName w) (currentDepartment w) (lastPublishedDept w) (lastDeptSeen w) (mpuInitialized w) (fallStartTime w) (isFalling w) (currentOrientation w) (lastOrientation w) (currentTemperature w) (present w)) w.

Definition set_lastStatusUpdate (v : Z) (w : World) : World :=
  set_g (mkGlobals (statuss w) (searchAddress w) (lastSeen w) (lastPublish w) v (lastRSSI w) (status w) (deviceName w) (currentDepartment w) (lastPublishedDept w) (lastDeptSeen w) (mpuInitialized w) (fallStartTime w) (isFalling w) (currentOrientation w) (lastOrientation w) (currentTemperature w) (present w)) w.

Definition set_lastRSSI (v : Z) (w : World) : World :=
  set_g (mkGlobals (statuss w) (searchAddress w) (lastSeen w) (lastPublish w) (lastStatusUpdate w) v (status w) (deviceName w) (currentDepartment w) (lastPublishedDept w) (lastDeptSeen w) (mpuInitialized w) (fallStartTime w) (isFalling w) (currentOrientation w) (lastOrientation w) (currentTemperature w) (present w)) w.

Definition set_status (v : payload) (w : World) : World :=
  set_g (mkGlobals (statuss w) (searchAddress w) (lastSeen w) (lastPublish w) (lastStatusUpdate w) (lastRSSI w) v (deviceName w) (currentDepartment w) (lastPublishedDept w) (lastDeptSeen w) (mpuInitialized w) (fallStartTime w) (isFalling w) (currentOrientation w) (lastOrientation w) (currentTemperature w) (present w)) w.

Definition set_deviceName (v : string) (w : World) : World :=
  set_g (mkGlobals (statuss w) (searchAddress w) (lastSeen w) (lastPublish w) (lastStatusUpdate w) (lastRSSI w) (status w) v (currentDepartment w) (lastPublishedDept w) (lastDeptSeen w) (mpuInitialized w) (fallStartTime w) (isFalling w) (currentOrientation w) (lastOrientation w) (currentTemperature w) (present w)) w.

Definition set_currentDepartment (v : string) (w : World) : World :=
  set_g (mkGlobals (statuss w) (searchAddress w) (lastSeen w) (lastPublish w) (lastStatusUpdate w) (lastRSSI w) (status w) (deviceName w) v (lastPublishedDept w) (lastDeptSeen w) (mpuInitialized w) (fallStartTime w) (isFalling w) (currentOrientation w) (lastOrientation w) (currentTemperature w) (present w)) w.

Definition set_lastPublishedDept (v : string) (w : World) : World :=
  set_g (mkGlobals (statuss w) (searchAddress w) (lastSeen w) (lastPublish w) (lastStatusUpdate w) (lastRSSI w) (status w) (deviceName w) (currentDepartment w) v (lastDeptSeen w) (mpuInitialized w) (fallStartTime w) (isFalling w) (currentOrientation w) (lastOrientation w) (currentTemperature w) (present w)) w.

Definition set_lastDeptSeen (v : Z) (w : World) : World :=
  set_g (mkGlobals (statuss w) (searchAddress w) (lastSeen w) (lastPublish w) (lastStatusUpdate w) (lastRSSI w) (status w) (deviceName w) (currentDepartment w) (lastPublishedDept w) v (mpuInitialized w) (fallStartTime w) (isFalling w) (currentOrientation w) (lastOrientation w) (currentTemperature w) (present w)) w.

Definition set_mpuInitialized (v : bool) (w : World) : World :=
  set_g (mkGlobals (statuss w) (searchAddress w) (lastSeen w) (lastPublish w) (lastStatusUpdate w) (lastRSSI w) (status w) (deviceName w) (currentDepartment w) (lastPublishedDept w) (lastDeptSeen w) v (fallStartTime w) (isFalling w) (currentOrientation w) (lastOrientation w) (currentTemperature w) (present w)) w.

Definition set_fallStartTime (v : Z) (w : World) : World :=
  set_g (mkGlobals (statuss w) (searchAddress w) (lastSeen w) (lastPublish w) (lastStatusUpdate w) (lastRSSI w) (status w) (deviceName w) (currentDepartment w) (lastPublishedDept w) (lastDeptSeen w) (mpuInitialized w) v (isFalling w) (currentOrientation w) (lastOrientation w) (currentTemperature w) (present w)) w.

Definition set_isFalling (v : bool) (w : World) : World :=
  set_g (mkGlobals (statuss w) (searchAddress w) (lastSeen w) (lastPublish w) (lastStatusUpdate w) (lastRSSI w) (status w) (deviceName w) (currentDepartment w) (lastPublishedDept w) (lastDeptSeen w) (mpuInitialized w) (fallStartTime w) v (currentOrientation w) (lastOrientation w) (currentTemperature w) (present w)) w.

Definition set_currentOrientation (v : string) (w : World) : World :=
  set_g (mkGlobals (statuss w) (searchAddress w) (lastSeen w) (lastPublish w) (lastStatusUpdate w) (lastRSSI w) (status w) (deviceName w) (currentDepartment w) (lastPublishedDept w) (lastDeptSeen w) (mpuInitialized w) (fallStartTime w) (isFalling w) v (lastOrientation w) (currentTemperature w) (present w)) w.

Definition set_lastOrientation (v : string) (w : World) : World :=
  set_g (mkGlobals (statuss w) (searchAddress w) (lastSeen w) (lastPublish w) (lastStatusUpdate w) (lastRSSI w) (status w) (deviceName w) (currentDepartment w) (lastPublishedDept w) (lastDeptSeen w) (mpuInitialized w) (fallStartTime w) (isFalling w) (currentOrientation w) v (currentTemperature w) (present w)) w.

Definition set_currentTemperature (v : Q) (w : World) : World :=
  set_g (mkGlobals (statuss w) (searchAddress w) (lastSeen w) (lastPublish w) (lastStatusUpdate w) (lastRSSI w) (status w) (deviceName w) (currentDepartment w) (lastPublishedDept w) (lastDeptSeen w) (mpuInitialized w) (fallStartTime w) (isFalling w) (currentOrientation w) (lastOrientation w) v (present w)) w.

Definition set_present (v : DevicePresenceType) (w : World) : World :=
  set_g (mkGlobals (statuss w) (searchAddress w) (lastSeen w) (lastPublish w) (lastStatusUpdate w) (lastRSSI w) (status w) (deviceName w) (currentDepartment w) (lastPublishedDept w) (lastDeptSeen w) (mpuInitialized w) (fallStartTime w) (isFalling w) (currentOrientation w) (lastOrientation w) (currentTemperature w) v) w.

(** ** The clock *)

(** [millis()] and [micros()]: the 32-bit views of the wall clock. *)
Definition ms_now (w : World) : Z := now w / 1000.
Definition millis (w : World) : Z := u32 (ms_now w).
Definition micros (w : World) : Z := u32 (now w).

(** Time that passes between two actions of the loop. *)
Definition elapse (d : N) (w : World) : World :=
  set_now (now w + Z.of_N d) w.

(** Time taken by a platform call (formatting, the radio, the cloud): the
    next entry of [latency], whatever it is; none left means no time at all. *)
Definition pass (w : World) : World :=
  match latency w with
  | [] => w
  | d :: rest => set_latency rest (elapse d w)
  end.

(** [delay(ms)]: at least [ms] milliseconds go by. *)
Definition delay (ms : Z) (w : World) : World :=
  pass (set_now (now w + 1000 * ms) w).

Definition emit (e : event) (w : World) : World :=
  set_trace (e :: trace w) w.

Definition log (m : logmsg) (w : World) : World :=
  emit (Log (ms_now w) m) w.

(** [Particle.publish(name, data, PRIVATE, WITH_ACK)]: the event is issued at
    the present instant and the call takes some time to return. *)
Definition Particle_publish (name : string) (data : payload) (w : World) : World :=
  pass (emit (Publish name data (ms_now w)) w).

Definition Particle_process (w : World) : World := pass w.

(** ** Telemetry: the rate limiter and the five publish paths *)

Definition canPublish (w : World) : bool :=
  PUBLISH_INTERVAL_MS <=? u32 (millis w - lastPublish w).

(** The guard that opens every publish path:
    [if(!canPublish()) delay(PUBLISH_INTERVAL_MS - (millis() - lastPublish));] *)
Definition waitPublish (w : World) : World :=
  if canPublish w then w
  else delay (u32 (PUBLISH_INTERVAL_MS - u32 (millis w - lastPublish w))) w.

Definition nameField (w : World) : option string :=
  if (0 <? length (deviceName w))%nat then Some (deviceName w) else None.

Definition publishPeriodicStatus (w : World) : World :=
  let w := pass (waitPublish w) in
  let periodicPayload :=
    PPeriodic (currentOrientation w) (currentDepartment w)
              (currentTemperature w) (millis w) in
  let w := Particle_publish "periodic_status" periodicPayload w in
  let w := set_lastPublish (millis w) w in
  Particle_process (log LogPeriodicStatus w).

Definition publishDepartment (department : string) (rssi : Z) (w : World) : World :=
  let w := pass (waitPublish w) in
  let deptPayload := PDepartment department rssi (millis w) in
  let w := Particle_publish "department" deptPayload w in
  let w := set_lastPublish (millis w) w in
  Particle_process (log (LogDepartmentPublished department rssi) w).

Definition publishFallAlert (w : World) : World :=
  let w := pass (waitPublish w) in
  let fallPayload :=
    PFalling (nameField w) (searchAddress w) (messages (present w))
             (currentDepartment w) (currentOrientation w)
             (currentTemperature w) in
  let w := Particle_publish "falling" fallPayload w in
  let w := set_lastPublish (millis w) w in
  log LogFallAlertPublished (Particle_process w).

Definition sendLocationUpdate (w : World) : World :=
  let w := pass (waitPublish w) in
  let locationPayload :=
    PLocation (nameField w) (lastRSSI w) (currentDepartment w)
              (currentOrientation w) (currentTemperature w) in
  let w := Particle_publish "location" locationPayload w in
  let w := set_lastPublish (millis w) w in
  Particle_process (log LogLocationSent w).

(** The status path, written inline in [loop()] (the body of
    [if(checkDeviceStateChanged(&present))] up to [Particle.process()]).
    [lastSeen], a [system_tick_t], is formatted with [%d]. *)
Definition publishStatus (w : World) : World :=
  let w := pass (waitPublish w) in
  let st :=
    PStatus (nameField w) (searchAddress w) (int32_t (lastSeen w)) (lastRSSI w)
            (messages (present w)) (currentDepartment w)
            (currentOrientation w) (currentTemperature w) in
  let w := set_status st w in
  let w := Particle_publish "status" st w in
  let w := set_lastPublish (millis w) w in
  Particle_process w.

(** ** Orientation classifier *)

Definition standing : string := "standing".
Definition lying_down : string := "lying down".

(** The decision of [checkOrientation] on the reading in g (the [if] / [else
    if] on [az_g]); the label is left as it is between the thresholds. *)
Definition classifyOrientation (az_g : Q) (current : string) : string :=
  if Qlt_bool STANDING_Z_MIN az_g then standing
  else if Qlt_bool (Qabs az_g) LYING_Z_MAX then lying_down
  else current.

(** [az / 16384.0]: a 16-bit reading divided by a power of two is exact in
    [float]. *)
Definition to_g (raw : Z) : Q := raw # LSB_PER_G.

(** [checkOrientation()], given the Z-axis register value that
    [readMPU6050] returns. *)
Definition checkOrientation (az : Z) (w : World) : World :=
  let az_g := to_g az in
  let w := set_currentOrientation (classifyOrientation az_g (currentOrientation w)) w in
  if negb (currentOrientation w =? lastOrientation w)%string then
    set_lastOrientation (currentOrientation w)
      (log (LogOrientationChanged (currentOrientation w)) w)
  else w.

(** ** Free-fall detector *)

(** [checkFallDetection()], given the magnitude that
    [calculateTotalAcceleration] returns for the sample just read. *)
Definition checkFallDetection (totalAccel : Q) (w : World) : World :=
  if Qlt_bool totalAccel FALL_THRESHOLD then
    if negb (isFalling w) then
      log LogFallDetected (set_isFalling true (set_fallStartTime (micros w) w))
    else
      let fallDuration := u32 (micros w - fallStartTime w) in
      if FALL_DURATION_US <=? fallDuration then
        let w := log (LogFallConfirmed fallDuration) w in
        let w := publishFallAlert w in
        let w := set_isFalling false w in
        delay 1000 w
      else w
  else
    let w :=
      if isFalling w
      then log (LogFallEnded (u32 (micros w - fallStartTime w))) w
      else w in
    set_isFalling false w.

(** ** Presence check *)

(** [checkDeviceStateChanged(&present)]: the flag returned and the world with
    [present] updated. *)
Definition checkDeviceStateChanged (w : World) : bool * World :=
  if u32 (lastSeen w + DEVICE_NOT_HERE_MS) <? millis w then
    if negb (presence_eqb (present w) NotHere)
    then (true, log (LogPresence NotHere) (set_present NotHere w))
    else (false, w)
  else if lastSeen w =? 0 then
    if negb (presence_eqb (present w) PresenceUnknown)
    then (true, log (LogPresence PresenceUnknown) (set_present PresenceUnknown w))
    else (false, w)
  else
    if negb (presence_eqb (present w) Here)
    then (true, log (LogPresence Here) (set_present Here w))
    else (false, w).

(** ** Department (proximity) classifier and the scan callback *)

Record BleScanResult : Type := mkScanResult {
  address : BleAddress;
  rssi : Z;
  advertisedName : string
}.

Definition pediatric : string := "Pediatric dept".
Definition cardiac : string := "Cardiac dept".

Definition isLearningModeOn (w : World) : bool := pinD7 w.
Definition setLearningModeOn (w : World) : World := set_pinD7 true w.
Definition setLearningModeOff (w : World) : World := set_pinD7 false w.

(** The body shared, word for word, by the two department branches of
    [scanResultCallback], with the label of the beacon that matched. *)
Definition departmentContact (department : string) (r : BleScanResult) (w : World) : World :=
  let w := log (LogDetectedDepartment department (rssi r)) w in
  let w := set_currentDepartment department w in
  let w :=
    if negb (currentDepartment w =? lastPublishedDept w)%string
       || (60000 <? u32 (millis w - lastDeptSeen w))
    then
      let w := publishDepartment (currentDepartment w) (rssi r) w in
      set_lastPublishedDept (currentDepartment w) w
    else w in
  set_lastDeptSeen (millis w) w.

(** [scanResultCallback]: the world after the callback, and whether it called
    [BLE.stopScanning()]. *)
Definition scanResultCallback (r : BleScanResult) (w : World) : World * bool :=
  let addr := address r in
  if addr =? arg1Address then (departmentContact pediatric r w, true)
  else if addr =? arg2Address then (departmentContact cardiac r w, true)
  else if isLearningModeOn w && (searchAddress w =? unsetAddress) then
    let w := set_searchAddress addr w in
    let w := set_deviceName (advertisedName r) w in
    let w := set_eeprom (searchAddress w) w in
    let w := log (LogDeviceSaved addr) w in
    (setLearningModeOff w, true)
  else if negb (searchAddress w =? addr) then (w, false)
  else
    let w := log (LogDeviceDetected (rssi r)) w in
    let w := set_lastSeen (millis w) w in
    let w := set_lastRSSI (rssi r) w in
    (w, true).

(** [BLE.scan(scanResultCallback, NULL)]: the devices discovered, each after
    some scanning time, are handed to the callback until it stops the scan or
    the scan times out. *)
Fixpoint BLE_scan (found : list (N * BleScanResult)) (w : World) : World :=
  match found with
  | [] => pass w
  | (d, r) :: rest =>
      let (w', stopped) := scanResultCallback r (elapse d w) in
      if stopped then w' else BLE_scan rest w'
  end.

(** [eventHandler] for [button_click]. *)
Definition eventHandler (w : World) : World :=
  if pinD7 w then setLearningModeOff w
  else
    let w := set_searchAddress unsetAddress w in
    let w := set_deviceName "" w in
    let w := setLearningModeOn w in
    log LogLearningMode w.

(** ** The control loop *)

(** What one iteration of [loop()] reads from outside: the magnitude of the
    sample taken by [checkFallDetection], the Z register taken by
    [checkOrientation], the temperature, and what a scan would discover. *)
Record LoopInput : Type := mkLoopInput {
  in_accel : Q;
  in_az : Z;
  in_temperature : Q;
  in_scan : list (N * BleScanResult)
}.

Definition loop (i : LoopInput) (w : World) : World :=
  let w :=
    if mpuInitialized w then
      let w := checkFallDetection (in_accel i) (pass w) in
      let w := checkOrientation (in_az i) (pass w) in
      set_currentTemperature (in_temperature i) (pass w)
    else w in
  let w :=
    if (u32 (lastSeen w + DEVICE_RE_CHECK_MS) <? millis w)
       || (u32 (lastDeptSeen w + DEVICE_RE_CHECK_MS) <? millis w)
    then BLE_scan (in_scan i) w
    else w in
  let w :=
    if STATUS_UPDATE_INTERVAL_MS <=? u32 (millis w - lastStatusUpdate w) then
      let w := publishPeriodicStatus w in
      set_lastStatusUpdate (millis w) w
    else w in
  let (changed, w) := checkDeviceStateChanged w in
  if changed then
    let w := publishStatus w in
    if statuss w && presence_eqb (present w) Here
    then sendLocationUpdate (delay PUBLISH_INTERVAL_MS w)
    else w
  else w.

(** ** The cloud command function *)

(** [isspace] and [tolower] of the C locale, and [String::trim] and
    [String::toLowerCase] of the platform's string class, which remove the
    white space at both ends and lower every letter. *)
Definition isspace (c : ascii) : bool :=
  let n := nat_of_ascii c in
  ((n =? 32) || ((9 <=? n) && (n <=? 13)))%nat.

Definition tolower (c : ascii) : ascii :=
  let n := nat_of_ascii c in
  if ((65 <=? n) && (n <=? 90))%nat then ascii_of_nat (n + 32) else c.

Fixpoint trimLeft (s : string) : string :=
  match s with
  | EmptyString => EmptyString
  | String c rest => if isspace c then trimLeft rest else s
  end.

Fixpoint trimRight (s : string) : string :=
  match s with
  | EmptyString => EmptyString
  | String c rest =>
      match trimRight rest with
      | EmptyString => if isspace c then EmptyString else String c EmptyString
      | kept => String c kept
      end
  end.

Definition trim (s : string) : string := trimRight (trimLeft s).

Fixpoint toLowerCase (s : string) : string :=
  match s with
  | EmptyString => EmptyString
  | String c rest => String (tolower c) (toLowerCase rest)
  end.

(** [setStatusFunction(command)]: the code returned and the world after. *)
Definition setStatusFunction (command : string) (w : World) : Z * World :=
  let cmd := toLowerCase (trim command) in
  if ((cmd =? "true") || (cmd =? "1") || (cmd =? "on"))%string then
    (1, log (LogLocationTracking true) (set_statuss true w))
  else if ((cmd =? "false") || (cmd =? "0") || (cmd =? "off"))%string then
    (0, log (LogLocationTracking false) (set_statuss false w))
  else if (cmd =? "fall")%string then
    (2, publishFallAlert (log (LogManual "fall") w))
  else if (cmd =? "arg1")%string then
    let w := log (LogManual "arg1") w in
    let w := set_currentDepartment pediatric w in
    let w := publishDepartment (currentDepartment w) 0 w in
    (3, set_lastPublishedDept (currentDepartment w) w)
  else if (cmd =? "arg2")%string then
    let w := log (LogManual "arg2") w in
    let w := set_currentDepartment cardiac w in
    let w := publishDepartment (currentDepartment w) 0 w in
    (4, set_lastPublishedDept (currentDepartment w) w)
  else if (cmd =? "info")%string then
    (5, publishPeriodicStatus (log (LogManual "info") w))
  else
    (-1, log LogInvalidCommand w).

(** ** Start-up and executions *)

(** The globals as their declarations initialise them, the clock at zero,
    the learning LED off. [saved] is what the EEPROM holds and [lat] the time
    the platform calls are going to take. *)
Definition power_on (saved : BleAddress) (lat : list N) : World :=
  mkWorld
    (mkGlobals false 0 0 0 0 0 PNone "" "" "" 0 false 0 false
               lying_down lying_down 0%Q PresenceUnknown)
    0 lat [] false saved.

(** [setup()], given whether the sensor acknowledged on the bus
    ([initMPU6050]: [delay(100)] and [true] when it did). *)
Definition setup (mpu_ack : bool) (w : World) : World :=
  let w := pass w in
  let w := if mpu_ack then delay 100 w else w in
  let w := set_mpuInitialized mpu_ack w in
  let w := set_searchAddress (eeprom w) w in
  set_lastStatusUpdate (millis w) (pass w).

(** What can happen to the node after [setup()]: an iteration of the loop, a
    cloud call of [setStatus], a click of the MODE button, and time going by
    (for a given duration, or until the clock reads a given millisecond). *)
Inductive action : Type :=
| ALoop (i : LoopInput)
| ACommand (command : string)
| AButton
| AElapse (d : N)
| AUntil (t_ms : Z).

Definition until (t_ms : Z) (w : World) : World :=
  set_now (Z.max (now w) (1000 * t_ms)) w.

Definition exec (a : action) (w : World) : World :=
  match a with
  | ALoop i => loop i w
  | ACommand command => snd (setStatusFunction command w)
  | AButton => eventHandler w
  | AElapse d => elapse d w
  | AUntil t => until t w
  end.

Definition run (acts : list action) (w : World) : World :=
  fold_left (fun w a => exec a w) acts w.

(** ** Reading the trace *)

(** Times of the publish operations, newest first. *)
Fixpoint publish_times (tr : list event) : list Z :=
  match tr with
  | [] => []
  | Publish _ _ t :: rest => t :: publish_times rest
  | Log _ _ :: rest => publish_times rest
  end.

(** The same in the order they were issued. *)
Definition dispatch_times (w : World) : list Z := rev (publish_times (trace w)).

(** Every publish is at least [PUBLISH_INTERVAL_MS] after the one before it
    (on a newest-first list of times). *)
Fixpoint spaced (ts : list Z) : Prop :=
  match ts with
  | [] => True
  | t2 :: older =>
      match older with
      | [] => True
      | t1 :: _ => t1 + PUBLISH_INTERVAL_MS <= t2
      end /\ spaced older
  end.

(** The events published under a given name, newest first. *)
Fixpoint published (name : string) (tr : list event) : list (payload * Z) :=
  match tr with
  | [] => []
  | Publish n p t :: rest =>
      if (n =? name)%string then (p, t) :: published name rest
      else published name rest
  | Log _ _ :: rest => published name rest
  end.

(** The log lines of the trace with their times, newest first. *)
Fixpoint logged (tr : list event) : list (Z * logmsg) :=
  match tr with
  | [] => []
  | Publish _ _ _ :: rest => logged rest
  | Log t m :: rest => (t, m) :: logged rest
  end.

Definition is_confirmed (m : logmsg) : bool :=
  match m with LogFallConfirmed _ => true | _ => false end.

(** How many falls the detector has confirmed. *)
Definition confirmed_falls (w : World) : nat :=
  List.length (filter (fun e => is_confirmed (snd e)) (logged (trace w))).

(** The common shape of the five publish paths: wait for the budget, do
    what comes [before] the publish (nothing, or keeping the payload in
    [status]), publish, stamp [lastPublish]; [publishVia] then runs what the
    path does [after] (logging, [Particle.process()]). *)
Definition publishCore (name : string) (data : World -> payload)
    (before : World -> World) (w : World) : World :=
  let w := before (pass (waitPublish w)) in
  let w := Particle_publish name (data w) w in
  set_lastPublish (millis w) w.

Definition publishVia (name : string) (data : World -> payload)
    (before after : World -> World) (w : World) : World :=
  after (publishCore name data before w).

(** What a publish path leaves alone: every global but [lastPublish] and
    [status], the pin and the EEPROM. *)
Definition kept (w : World) : Globals * bool * BleAddress :=
  (g (set_status PNone (set_lastPublish 0 w)), pinD7 w, eeprom w).

Definition event_time (e : event) : Z :=
  match e with
  | Publish _ _ t => t
  | Log t _ => t
  end.

(** The rate limiter's invariant: the publishes so far are spaced, and
    [lastPublish] is the 32-bit view of an instant that is not in the future
    and not before the latest publish. *)
Definition Budget (w : World) : Prop :=
  spaced (publish_times (trace w)) /\
  exists r, r <= ms_now w /\ lastPublish w = u32 r /\
            match publish_times (trace w) with
            | [] => True
            | t :: _ => t <= r
            end.

(** [checkOrientation] leaves the two orientation variables equal. *)
Definition OrientSync (w : World) : Prop :=
  lastOrientation w = currentOrientation w.

(** [w'] comes after [w]: the clock did not go back, and the trace grew by
    events stamped between the two instants; the invariants carry over. *)
Definition Adv (w w' : World) : Prop :=
  now w <= now w' /\
  (exists new, trace w' = new ++ trace w /\
     Forall (fun e => ms_now w <= event_time e <= ms_now w') new) /\
  (Budget w -> Budget w') /\
  (OrientSync w -> OrientSync w').

(** A step that only lets time go by. *)
Definition Later (w w' : World) : Prop :=
  g w' = g w /\ trace w' = trace w /\ pinD7 w' = pinD7 w /\
  eeprom w' = eeprom w /\ now w <= now w'.

(** What may come between the guard and the publish. *)
Definition Silent (f : World -> World) : Prop :=
  forall w, now (f w) = now w /\ trace (f w) = trace w /\
            latency (f w) = latency w /\ kept (f w) = kept w.

(** Each of the five paths is the common shape, with its own payload and
    its own bookkeeping around the publish. *)
Definition periodicData (w : World) : payload :=
  PPeriodic (currentOrientation w) (currentDepartment w)
            (currentTemperature w) (millis w).

Definition departmentData (department : string) (rssi : Z) (w : World) : payload :=
  PDepartment department rssi (millis w).

Definition fallData (w : World) : payload :=
  PFalling (nameField w) (searchAddress w) (messages (present w))
           (currentDepartment w) (currentOrientation w) (currentTemperature w).

Definition locationData (w : World) : payload :=
  PLocation (nameField w) (lastRSSI w) (currentDepartment w)
            (currentOrientation w) (currentTemperature w).

Definition statusData (w : World) : payload :=
  PStatus (nameField w) (searchAddress w) (int32_t (lastSeen w)) (lastRSSI w)
          (messages (present w)) (currentDepartment w)
          (currentOrientation w) (currentTemperature w).


(** What runs after the publish in a path: it publishes nothing and leaves
    the globals alone. *)
Definition Quiet (f : World -> World) : Prop :=
  forall w, g (f w) = g w /\ pinD7 (f w) = pinD7 w /\ eeprom (f w) = eeprom w /\
            publish_times (trace (f w)) = publish_times (trace w) /\
            now w <= now (f w) /\
            (latency w = [] -> now (f w) = now w /\ latency (f w) = []).

(** The five kinds of event and the path that emits each. *)
Inductive kind : Type :=
| KStatus
| KPeriodicStatus
| KDepartment (department : string) (rssi : Z)
| KFalling
| KLocation.

Definition emission (k : kind) (w : World) : World :=
  match k with
  | KStatus => publishStatus w
  | KPeriodicStatus => publishPeriodicStatus w
  | KDepartment department rssi => publishDepartment department rssi w
  | KFalling => publishFallAlert w
  | KLocation => sendLocationUpdate w
  end.

(** An emission asked for at millisecond [t]: the single loop gets to it at
    [t], or as soon as it is free after [t]. *)
Definition request (t : Z) (k : kind) (w : World) : World :=
  emission k (until t w).

(** A poll of the fall detector [d] microseconds after the previous action,
    and a sequence of such polls. *)
Definition poll (d : N) (a : Q) (w : World) : World :=
  checkFallDetection a (elapse d w).

Definition polls (samples : list (N * Q)) (w : World) : World :=
  fold_left (fun w s => poll (fst s) (snd s) w) samples w.

Definition total_gap (samples : list (N * Q)) : N :=
  fold_right (fun s acc => (fst s + acc)%N) 0%N samples.

Definition below (a : Q) : Prop := (a < FALL_THRESHOLD)%Q.

(** A sequence of scan results handed to the callback, each [d]
    microseconds after the previous one. *)
Definition contacts (found : list (N * BleScanResult)) (w : World) : World :=
  fold_left (fun w s => fst (scanResultCallback (snd s) (elapse (fst s) w)))
            found w.

(** The static map from department beacons to zone labels. *)
Definition zone_of (a : BleAddress) : option string :=
  if a =? arg1Address then Some pediatric
  else if a =? arg2Address then Some cardiac
  else None.

(** The emit decision as the specification words it: the zone differs from
    the last published one, or more than the repeat window has gone by since
    the zone-contact timestamp taken at the prior emission. *)
Definition spec_emit_decision (zone lastPublishedZone : string)
    (now_ms contactAtPriorEmission : Z) : bool :=
  negb (zone =? lastPublishedZone)%string
  || (60000 <? now_ms - contactAtPriorEmission).

(** The two orientation thresholds as the compiler stores them: the
    binary64 numbers nearest to 0.7 and 0.4. *)
Definition STANDING_Z_MIN_binary64 : Q := 3152519739159347 # 4503599627370496.
Definition LYING_Z_MAX_binary64 : Q := 3602879701896397 # 9007199254740992.

(** Whether [departmentContact] publishes, as the source tests it. *)
Definition contact_emits (department : string) (w : World) : bool :=
  negb (department =? lastPublishedDept w)%string
  || (60000 <? u32 (millis w - lastDeptSeen w)).

(** The chain of comparisons of [setStatusFunction], on the command once
    trimmed and lowered. *)
Definition dispatch (cmd : string) (w : World) : Z * World :=
  if ((cmd =? "true") || (cmd =? "1") || (cmd =? "on"))%string then
    (1, log (LogLocationTracking true) (set_statuss true w))
  else if ((cmd =? "false") || (cmd =? "0") || (cmd =? "off"))%string then
    (0, log (LogLocationTracking false) (set_statuss false w))
  else if (cmd =? "fall")%string then
    (2, publishFallAlert (log (LogManual "fall") w))
  else if (cmd =? "arg1")%string then
    let w := log (LogManual "arg1") w in
    let w := set_currentDepartment pediatric w in
    let w := publishDepartment (currentDepartment w) 0 w in
    (3, set_lastPublishedDept (currentDepartment w) w)
  else if (cmd =? "arg2")%string then
    let w := log (LogManual "arg2") w in
    let w := set_currentDepartment cardiac w in
    let w := publishDepartment (currentDepartment w) 0 w in
    (4, set_lastPublishedDept (currentDepartment w) w)
  else if (cmd =? "info")%string then
    (5, publishPeriodicStatus (log (LogManual "info") w))
  else
    (-1, log LogInvalidCommand w).

(** The ten commands the function knows. *)
Definition known_commands : list string :=
  ["true"; "1"; "on"; "false"; "0"; "off"; "fall"; "arg1"; "arg2"; "info"].

Fixpoint all_space (s : string) : bool :=
  match s with
  | EmptyString => true
  | String c rest => isspace c && all_space rest
  end.

(** ** Reading the sensor registers *)

(** [Wire.read()]: the next byte the device sent, or -1 when there is none. *)
Definition Wire_read (bus : list Z) : Z * list Z :=
  match bus with
  | [] => (-1, [])
  | b :: rest => (b, rest)
  end.

(** Conversion of an [int] to [int16_t] (two's complement, 16 bits). *)
Definition int16_t (x : Z) : Z := (x + 32768) mod 65536 - 32768.

(** [(Wire.read() << 8) | Wire.read()] stored in an [int16_t]: the register
    pair, high byte first (the two reads taken left to right). *)
Definition readWord (bus : list Z) : Z * list Z :=
  let (hi, bus) := Wire_read bus in
  let (lo, bus) := Wire_read bus in
  (int16_t (Z.lor (Z.shiftl hi 8) lo), bus).

(** [readMPU6050(ax, ay, az)], given the bytes that [Wire.requestFrom]
    obtained from the accelerometer registers. *)
Definition readMPU6050 (bus : list Z) : Z * Z * Z :=
  let (ax, bus) := readWord bus in
  let (ay, bus) := readWord bus in
  let (az, bus) := readWord bus in
  (ax, ay, az).

(** The two bytes the sensor sends for a 16-bit register value. *)
Definition high_byte (v : Z) : Z := (v mod 65536) / 256.
Definition low_byte (v : Z) : Z := (v mod 65536) mod 256.

(** ** Auxiliary notions for the properties below *)

(** The name each kind of event is published under. *)
Definition kind_name (k : kind) : string :=
  match k with
  | KStatus => "status"
  | KPeriodicStatus => "periodic_status"
  | KDepartment _ _ => "department"
  | KFalling => "falling"
  | KLocation => "location"
  end.

(** The times at which the detector confirmed a fall, newest first. *)
Definition confirmations (tr : list event) : list Z :=
  map fst (filter (fun e => is_confirmed (snd e)) (logged tr)).

(** Consecutive entries of a newest-first list of times are at least [gap]
    apart. *)
Fixpoint apart (gap : Z) (ts : list Z) : Prop :=
  match ts with
  | [] => True
  | t2 :: older =>
      match older with
      | [] => True
      | t1 :: _ => t1 + gap <= t2
      end /\ apart gap older
  end.

(** What every part of the program but the two sensor checks leaves alone:
    the detector's state, the orientation variables, the sensor flag and the
    confirmations on the trace. *)
Definition Rest (w w' : World) : Prop :=
  now w <= now w' /\
  isFalling w' = isFalling w /\ fallStartTime w' = fallStartTime w /\
  mpuInitialized w' = mpuInitialized w /\
  currentOrientation w' = currentOrientation w /\
  lastOrientation w' = lastOrientation w /\
  confirmations (trace w') = confirmations (trace w).

(** The detector's invariant: confirmations are spaced by the cooldown plus
    the fall duration; the clock is past the cooldown of the latest one; and
    an episode in progress started after that cooldown, at an instant that
    [fallStartTime] is the 32-bit view of. *)
Definition FallInv (w : World) : Prop :=
  apart 1300 (confirmations (trace w)) /\
  match confirmations (trace w) with
  | [] => True
  | t :: _ => 1000 * t + 1000000 <= now w
  end /\
  (isFalling w = true ->
   exists s, fallStartTime w = u32 s /\ s <= now w /\
             match confirmations (trace w) with
             | [] => True
             | t :: _ => 1000 * t + 1000000 <= s
             end).

(** The part of [loop()] that follows the sensor block. *)
Definition loop_after_sensors (i : LoopInput) (w : World) : World :=
  let w :=
    if (u32 (lastSeen w + DEVICE_RE_CHECK_MS) <? millis w)
       || (u32 (lastDeptSeen w + DEVICE_RE_CHECK_MS) <? millis w)
    then BLE_scan (in_scan i) w
    else w in
  let w :=
    if STATUS_UPDATE_INTERVAL_MS <=? u32 (millis w - lastStatusUpdate w) then
      let w := publishPeriodicStatus w in
      set_lastStatusUpdate (millis w) w
    else w in
  let (changed, w) := checkDeviceStateChanged w in
  if changed then
    let w := publishStatus w in
    if statuss w && presence_eqb (present w) Here
    then sendLocationUpdate (delay PUBLISH_INTERVAL_MS w)
    else w
  else w.

(** The sensor block of [loop()]. *)
Definition loop_sensors (i : LoopInput) (w : World) : World :=
  let w := checkFallDetection (in_accel i) (pass w) in
  let w := checkOrientation (in_az i) (pass w) in
  set_currentTemperature (in_temperature i) (pass w).

(** A scan result that is nobody's: not a department beacon, not the tracked
    device, and not about to be captured by the learning mode. *)
Definition is_stranger (tracked : BleAddress) (learning : bool)
    (r : BleScanResult) : bool :=
  match zone_of (address r) with
  | Some _ => false
  | None =>
      negb (learning && (tracked =? unsetAddress))
      && negb (tracked =? address r)
  end.

(** A piece of trace made of log lines only. *)
Definition logs_only (new : list event) : Prop :=
  Forall (fun e => match e with Log _ _ => True | Publish _ _ _ => False end) new.

(** What a path may do after its publish: log, and let time go by. *)
Definition LogsAfter (f : World -> World) : Prop :=
  forall w, g (f w) = g w /\ pinD7 (f w) = pinD7 w /\ eeprom (f w) = eeprom w /\
            exists new, trace (f w) = new ++ trace w /\ logs_only new.

(** What the parts of the program that do not publish under [name] leave
    alone: the presence label, the location-push flag and the events
    published under [name]. *)
Definition Quietly (name : string) (w w' : World) : Prop :=
  present w' = present w /\ statuss w' = statuss w /\
  published name (trace w') = published name (trace w).

(** * Properties *)

(** ** Arithmetic of the 32-bit clock views *)

Lemma u32_range (x : Z) : 0 <= u32 x < 2 ^ 32.
Proof. unfold u32. apply Z.mod_pos_bound. lia. Qed.

Lemma u32_le (x : Z) : 0 <= x -> u32 x <= x.
Proof. intros Hx. unfold u32. apply Z.mod_le; lia. Qed.

Lemma u32_small (x : Z) : 0 <= x < 2 ^ 32 -> u32 x = x.
Proof. intros Hx. unfold u32. apply Z.mod_small. exact Hx. Qed.

Lemma u32_sub (a b : Z) : u32 (u32 a - u32 b) = u32 (a - b).
Proof. unfold u32. symmetry. apply Zminus_mod. Qed.

Lemma ms_le (a b : Z) : a <= b -> a / 1000 <= b / 1000.
Proof. intros H. apply Z.div_le_mono; lia. Qed.

Lemma ms_add (n m e : Z) :
  0 <= e -> n / 1000 + m <= (n + 1000 * m + e) / 1000.
Proof. intros He. Z.div_mod_to_equations. lia. Qed.

Lemma Qlt_bool_iff (x y : Q) : Qlt_bool x y = true <-> (x < y)%Q.
Proof.
  unfold Qlt_bool. rewrite negb_true_iff.
  split; intros H.
  - apply Qnot_le_lt. intros Hle. apply Qle_bool_iff in Hle. congruence.
  - destruct (Qle_bool y x) eqn:E; [|reflexivity].
    apply Qle_bool_iff in E. exfalso. exact (Qlt_not_le _ _ H E).
Qed.

Lemma Qlt_bool_false (x y : Q) : Qlt_bool x y = false <-> (y <= x)%Q.
Proof.
  unfold Qlt_bool. rewrite negb_false_iff. apply Qle_bool_iff.
Qed.

(** ** The clock only moves forward *)

Lemma pass_now (w : World) : now w <= now (pass w).
Proof.
  unfold pass. destruct (latency w) as [|d rest]; simpl; lia.
Qed.

Lemma pass_g (w : World) : g (pass w) = g w.
Proof. unfold pass. destruct (latency w); reflexivity. Qed.

Lemma pass_trace (w : World) : trace (pass w) = trace w.
Proof. unfold pass. destruct (latency w); reflexivity. Qed.

Lemma pass_pin (w : World) : pinD7 (pass w) = pinD7 w.
Proof. unfold pass. destruct (latency w); reflexivity. Qed.

Lemma pass_eeprom (w : World) : eeprom (pass w) = eeprom w.
Proof. unfold pass. destruct (latency w); reflexivity. Qed.

Lemma delay_now (ms : Z) (w : World) : now w + 1000 * ms <= now (delay ms w).
Proof. unfold delay. etransitivity; [|apply pass_now]. apply Z.le_refl. Qed.

Lemma ms_now_mono (w w' : World) : now w <= now w' -> ms_now w <= ms_now w'.
Proof. apply ms_le. Qed.

Lemma Later_refl (w : World) : Later w w.
Proof. repeat split; lia. Qed.

Lemma Later_trans (a b c : World) : Later a b -> Later b c -> Later a c.
Proof.
  intros (H1 & H2 & H3 & H4 & H5) (K1 & K2 & K3 & K4 & K5).
  repeat split; try congruence; lia.
Qed.

Lemma Later_pass (w : World) : Later w (pass w).
Proof.
  repeat split;
    auto using pass_g, pass_trace, pass_pin, pass_eeprom, pass_now.
Qed.

Lemma Later_set_now (t : Z) (w : World) : now w <= t -> Later w (set_now t w).
Proof. intros Ht. repeat split. exact Ht. Qed.

Lemma Later_delay (ms : Z) (w : World) : 0 <= ms -> Later w (delay ms w).
Proof.
  intros Hms. unfold delay.
  eapply Later_trans; [|apply Later_pass].
  apply Later_set_now. lia.
Qed.

Lemma Later_elapse (d : N) (w : World) : Later w (elapse d w).
Proof. apply Later_set_now. lia. Qed.

Lemma Later_until (t : Z) (w : World) : Later w (until t w).
Proof. apply Later_set_now. lia. Qed.

Lemma Later_waitPublish (w : World) : Later w (waitPublish w).
Proof.
  unfold waitPublish. destruct (canPublish w).
  - apply Later_refl.
  - apply Later_delay. apply u32_range.
Qed.

(** After the guard, the budget is there: [PUBLISH_INTERVAL_MS] have gone by
    since any instant that [lastPublish] is the view of. *)
Lemma waitPublish_ready (w : World) (r : Z) :
  r <= ms_now w -> lastPublish w = u32 r ->
  r + PUBLISH_INTERVAL_MS <= ms_now (waitPublish w).
Proof.
  intros Hr Hlp. unfold waitPublish, canPublish, millis.
  rewrite Hlp, u32_sub.
  pose proof (u32_le (ms_now w - r) ltac:(lia)) as Hle.
  pose proof (u32_range (ms_now w - r)) as Hrg.
  destruct (PUBLISH_INTERVAL_MS <=? u32 (ms_now w - r)) eqn:E.
  - apply Z.leb_le in E. lia.
  - apply Z.leb_gt in E.
    unfold PUBLISH_INTERVAL_MS in *.
    rewrite (u32_small (1100 - u32 (ms_now w - r))) by lia.
    set (e := u32 (ms_now w - r)) in *.
    pose proof (delay_now (1100 - e) w) as Hd.
    apply ms_le in Hd. unfold ms_now in *.
    pose proof (ms_add (now w) (1100 - e) 0 ltac:(lia)) as Ha.
    replace (now w + 1000 * (1100 - e) + 0) with (now w + 1000 * (1100 - e)) in Ha by lia.
    lia.
Qed.

Lemma Later_kept (w w' : World) : Later w w' -> kept w' = kept w.
Proof.
  intros (Hg & _ & Hp & He & _).
  destruct w, w'. cbn [g pinD7 eeprom] in Hg, Hp, He. subst. reflexivity.
Qed.

(** ** The invariants carry over *)

Lemma Adv_refl (w : World) : Adv w w.
Proof.
  split; [lia|]. split; [|tauto].
  exists []. split; [reflexivity | constructor].
Qed.

Lemma Adv_trans (a b c : World) : Adv a b -> Adv b c -> Adv a c.
Proof.
  intros (H1 & (n1 & E1 & F1) & B1 & O1) (H2 & (n2 & E2 & F2) & B2 & O2).
  pose proof (ms_now_mono _ _ H1) as M1.
  pose proof (ms_now_mono _ _ H2) as M2.
  split; [lia|]. split; [|tauto].
  exists (n2 ++ n1). split.
  - rewrite E2, E1. apply app_assoc.
  - apply Forall_app. split.
    + eapply Forall_impl; [|exact F2]. cbv beta. intros e He. lia.
    + eapply Forall_impl; [|exact F1]. cbv beta. intros e He. lia.
Qed.

(** A step that changes neither the clock, the trace, [lastPublish] nor the
    orientation variables. *)
Lemma Adv_silent (w w' : World) :
  now w' = now w -> trace w' = trace w -> lastPublish w' = lastPublish w ->
  currentOrientation w' = currentOrientation w ->
  lastOrientation w' = lastOrientation w ->
  Adv w w'.
Proof.
  intros Hn Ht Hl Hc Ho.
  split; [lia|]. split; [|split].
  - exists []. split; [exact Ht | constructor].
  - unfold Budget, ms_now. rewrite Hn, Ht, Hl. tauto.
  - unfold OrientSync. rewrite Hc, Ho. tauto.
Qed.

Lemma Adv_Later (w w' : World) : Later w w' -> Adv w w'.
Proof.
  intros (Hg & Ht & _ & _ & Hn).
  pose proof (ms_now_mono _ _ Hn) as Hm.
  split; [exact Hn|]. split; [|split].
  - exists []. split; [exact Ht | constructor].
  - unfold Budget, lastPublish. rewrite Hg, Ht.
    intros (Hs & r & Hr & Hl & Hb). split; [exact Hs|].
    exists r. repeat split; try assumption. lia.
  - unfold OrientSync, lastOrientation, currentOrientation. rewrite Hg. tauto.
Qed.

Lemma Adv_log (m : logmsg) (w : World) : Adv w (log m w).
Proof.
  split; [apply Z.le_refl|]. split; [|split].
  - exists [Log (ms_now w) m]. split; [reflexivity|].
    constructor; [|constructor]. cbn [event_time]. change (ms_now (log m w)) with (ms_now w). lia.
  - intros H. exact H.
  - intros H. exact H.
Qed.

Lemma Adv_pass (w : World) : Adv w (pass w).
Proof. apply Adv_Later, Later_pass. Qed.

Lemma Adv_delay (ms : Z) (w : World) : 0 <= ms -> Adv w (delay ms w).
Proof. intros H. apply Adv_Later, Later_delay, H. Qed.

(** ** The publish paths *)

Lemma Silent_id : Silent (fun w => w).
Proof. intros w. repeat split. Qed.

Lemma Silent_set_status (data : World -> payload) :
  Silent (fun w => set_status (data w) w).
Proof. intros w. repeat split. Qed.

Section PublishCore.
Variables (name : string) (data : World -> payload) (before : World -> World).
Hypothesis Hbefore : Silent before.

Lemma publishCore_spec (w : World) :
  let w1 := before (pass (waitPublish w)) in
  let w3 := publishCore name data before w in
  kept w1 = kept w /\ kept w3 = kept w /\
  trace w3 = Publish name (data w1) (ms_now w1) :: trace w /\
  ms_now w <= ms_now w1 /\ ms_now w1 <= ms_now w3 /\ now w <= now w3 /\
  lastPublish w3 = u32 (ms_now w3) /\
  (forall r, r <= ms_now w -> lastPublish w = u32 r ->
             r + PUBLISH_INTERVAL_MS <= ms_now w1).
Proof.
  intros w1 w3.
  pose proof (Later_waitPublish w) as L0.
  pose proof (Later_pass (waitPublish w)) as L1.
  pose proof (Later_trans _ _ _ L0 L1) as L01.
  destruct (Hbefore (pass (waitPublish w))) as (Bn & Bt & _ & Bk).
  fold w1 in Bn, Bt, Bk.
  set (w2 := emit (Publish name (data w1) (ms_now w1)) w1).
  assert (L2 : Later w2 (pass w2)) by apply Later_pass.
  assert (E3 : w3 = set_lastPublish (millis (pass w2)) (pass w2)) by reflexivity.
  assert (Hn1 : now w <= now w1).
  { rewrite Bn. destruct L01 as (_ & _ & _ & _ & H). exact H. }
  assert (Hn3 : now w1 <= now w3).
  { rewrite E3. change (now w1 <= now (pass w2)).
    destruct L2 as (_ & _ & _ & _ & H). exact H. }
  assert (K1 : kept w1 = kept w).
  { rewrite Bk. apply Later_kept. exact L01. }
  repeat split.
  - exact K1.
  - rewrite <- K1, E3. unfold kept.
    change (g (set_status PNone (set_lastPublish 0
              (set_lastPublish (millis (pass w2)) (pass w2)))))
      with (g (set_status PNone (set_lastPublish 0 (pass w2)))).
    change (pinD7 (set_lastPublish (millis (pass w2)) (pass w2)))
      with (pinD7 (pass w2)).
    change (eeprom (set_lastPublish (millis (pass w2)) (pass w2)))
      with (eeprom (pass w2)).
    apply (Later_kept w2 (pass w2) L2).
  - rewrite E3. change (trace (pass w2) = Publish name (data w1) (ms_now w1) :: trace w).
    rewrite pass_trace. unfold w2. cbn [emit trace set_trace].
    rewrite Bt. destruct L01 as (_ & H & _). rewrite H. reflexivity.
  - apply ms_now_mono, Hn1.
  - apply ms_now_mono, Hn3.
  - lia.
  - intros r Hr Hl.
    pose proof (waitPublish_ready w r Hr Hl) as Hw.
    assert (ms_now (waitPublish w) <= ms_now w1); [|lia].
    apply ms_now_mono. rewrite Bn. destruct L1 as (_ & _ & _ & _ & H). exact H.
Qed.

Lemma Adv_publishCore (w : World) : Adv w (publishCore name data before w).
Proof.
  destruct (publishCore_spec w)
    as (K1 & K3 & Ht & M1 & M3 & Hn & Hl & Hready).
  set (w1 := before (pass (waitPublish w))) in *.
  set (w3 := publishCore name data before w) in *.
  split; [exact Hn|]. split; [|split].
  - exists [Publish name (data w1) (ms_now w1)]. split; [exact Ht|].
    constructor; [|constructor]. cbn [event_time]. lia.
  - intros (Hs & r & Hr & Hlp & Hb). unfold Budget. rewrite Ht.
    pose proof (Hready r Hr Hlp) as Hrd.
    cbn [publish_times spaced]. split.
    + split; [|exact Hs].
      destruct (publish_times (trace w)) as [|t older]; [exact I|].
      unfold PUBLISH_INTERVAL_MS in *. lia.
    + exists (ms_now w3). split; [lia|]. split; [exact Hl | exact M3].
  - unfold OrientSync. intros Ho.
    assert (A : lastOrientation w3 = lastOrientation w)
      by exact (f_equal (fun k => g_lastOrientation (fst (fst k))) K3).
    assert (B : currentOrientation w3 = currentOrientation w)
      by exact (f_equal (fun k => g_currentOrientation (fst (fst k))) K3).
    rewrite A, B. exact Ho.
Qed.
End PublishCore.

Lemma publishPeriodicStatus_via (w : World) :
  publishPeriodicStatus w =
  publishVia "periodic_status" periodicData (fun w => w)
             (fun w => Particle_process (log LogPeriodicStatus w)) w.
Proof.
  unfold publishPeriodicStatus, publishVia, publishCore. cbv beta zeta.
  generalize (pass (waitPublish w)). intro. reflexivity.
Qed.

Lemma publishDepartment_via (department : string) (rssi : Z) (w : World) :
  publishDepartment department rssi w =
  publishVia "department" (departmentData department rssi) (fun w => w)
    (fun w => Particle_process (log (LogDepartmentPublished department rssi) w)) w.
Proof.
  unfold publishDepartment, publishVia, publishCore. cbv beta zeta.
  generalize (pass (waitPublish w)). intro. reflexivity.
Qed.

Lemma publishFallAlert_via (w : World) :
  publishFallAlert w =
  publishVia "falling" fallData (fun w => w)
             (fun w => log LogFallAlertPublished (Particle_process w)) w.
Proof.
  unfold publishFallAlert, publishVia, publishCore. cbv beta zeta.
  generalize (pass (waitPublish w)). intro. reflexivity.
Qed.

Lemma sendLocationUpdate_via (w : World) :
  sendLocationUpdate w =
  publishVia "location" locationData (fun w => w)
             (fun w => Particle_process (log LogLocationSent w)) w.
Proof.
  unfold sendLocationUpdate, publishVia, publishCore. cbv beta zeta.
  generalize (pass (waitPublish w)). intro. reflexivity.
Qed.

Lemma publishStatus_via (w : World) :
  publishStatus w =
  publishVia "status" statusData (fun w => set_status (statusData w) w)
             Particle_process w.
Proof.
  unfold publishStatus, publishVia, publishCore. cbv beta zeta.
  generalize (pass (waitPublish w)). intro. reflexivity.
Qed.

Lemma Adv_publishPeriodicStatus (w : World) : Adv w (publishPeriodicStatus w).
Proof.
  rewrite publishPeriodicStatus_via. unfold publishVia, Particle_process.
  eapply Adv_trans; [apply Adv_publishCore, Silent_id|].
  eapply Adv_trans; [apply Adv_log | apply Adv_pass].
Qed.

Lemma Adv_publishDepartment (department : string) (rssi : Z) (w : World) :
  Adv w (publishDepartment department rssi w).
Proof.
  rewrite publishDepartment_via. unfold publishVia, Particle_process.
  eapply Adv_trans; [apply Adv_publishCore, Silent_id|].
  eapply Adv_trans; [apply Adv_log | apply Adv_pass].
Qed.

Lemma Adv_publishFallAlert (w : World) : Adv w (publishFallAlert w).
Proof.
  rewrite publishFallAlert_via. unfold publishVia, Particle_process.
  eapply Adv_trans; [apply Adv_publishCore, Silent_id|].
  eapply Adv_trans; [apply Adv_pass | apply Adv_log].
Qed.

Lemma Adv_sendLocationUpdate (w : World) : Adv w (sendLocationUpdate w).
Proof.
  rewrite sendLocationUpdate_via. unfold publishVia, Particle_process.
  eapply Adv_trans; [apply Adv_publishCore, Silent_id|].
  eapply Adv_trans; [apply Adv_log | apply Adv_pass].
Qed.

Lemma Adv_publishStatus (w : World) : Adv w (publishStatus w).
Proof.
  rewrite publishStatus_via. unfold publishVia, Particle_process.
  eapply Adv_trans; [apply Adv_publishCore, Silent_set_status|].
  apply Adv_pass.
Qed.

(** Peels a composite step from the outside in. *)
Ltac adv :=
  lazymatch goal with
  | |- Adv ?w ?w => apply Adv_refl
  | |- Adv _ (if ?c then _ else _) => destruct c; adv
  | |- Adv _ (pass _) => eapply Adv_trans; [|apply Adv_pass]; adv
  | |- Adv _ (Particle_process _) => eapply Adv_trans; [|apply Adv_pass]; adv
  | |- Adv _ (log _ _) => eapply Adv_trans; [|apply Adv_log]; adv
  | |- Adv _ (delay _ _) =>
      eapply Adv_trans; [|apply Adv_delay; first [apply u32_range | discriminate]]; adv
  | |- Adv _ (elapse _ _) => eapply Adv_trans; [|apply Adv_Later, Later_elapse]; adv
  | |- Adv _ (until _ _) => eapply Adv_trans; [|apply Adv_Later, Later_until]; adv
  | |- Adv _ (publishPeriodicStatus _) =>
      eapply Adv_trans; [|apply Adv_publishPeriodicStatus]; adv
  | |- Adv _ (publishDepartment _ _ _) =>
      eapply Adv_trans; [|apply Adv_publishDepartment]; adv
  | |- Adv _ (publishFallAlert _) =>
      eapply Adv_trans; [|apply Adv_publishFallAlert]; adv
  | |- Adv _ (sendLocationUpdate _) =>
      eapply Adv_trans; [|apply Adv_sendLocationUpdate]; adv
  | |- Adv _ (publishStatus _) =>
      eapply Adv_trans; [|apply Adv_publishStatus]; adv
  | |- Adv _ (_ _ ?x) =>
      eapply (Adv_trans _ x);
      [|generalize x; intro; apply Adv_silent; reflexivity]; adv
  end.

Lemma Adv_checkFallDetection (a : Q) (w : World) : Adv w (checkFallDetection a w).
Proof. unfold checkFallDetection. cbv zeta. adv. Qed.

Lemma checkOrientation_sync (az : Z) (w : World) :
  OrientSync (checkOrientation az w).
Proof.
  unfold checkOrientation, OrientSync. cbv zeta.
  set (w1 := set_currentOrientation _ w).
  destruct (currentOrientation w1 =? lastOrientation w1)%string eqn:E.
  - apply String.eqb_eq in E. cbn [negb]. symmetry. exact E.
  - reflexivity.
Qed.

Lemma Adv_checkOrientation (az : Z) (w : World) : Adv w (checkOrientation az w).
Proof.
  split; [|split; [|split]].
  - unfold checkOrientation. cbv zeta.
    match goal with |- context [if ?c then _ else _] => destruct c end;
      apply Z.le_refl.
  - unfold checkOrientation. cbv zeta.
    match goal with |- context [if ?c then _ else _] => destruct c end.
    + eexists [_]. split; [reflexivity|].
      constructor; [|constructor]. cbn [event_time].
      split; apply Z.le_refl.
    + exists []. split; [reflexivity | constructor].
  - unfold checkOrientation. cbv zeta.
    match goal with |- context [if ?c then _ else _] => destruct c end;
      intros H; exact H.
  - intros _. apply checkOrientation_sync.
Qed.

Lemma Adv_checkDeviceStateChanged (w : World) :
  Adv w (snd (checkDeviceStateChanged w)).
Proof.
  unfold checkDeviceStateChanged.
  repeat match goal with
         | |- context [if ?c then _ else _] => destruct c
         end; cbn [snd]; adv.
Qed.

Lemma Adv_departmentContact (d : string) (r : BleScanResult) (w : World) :
  Adv w (departmentContact d r w).
Proof. unfold departmentContact. cbv zeta. adv. Qed.

Lemma Adv_scanResultCallback (r : BleScanResult) (w : World) :
  Adv w (fst (scanResultCallback r w)).
Proof.
  unfold scanResultCallback. cbv zeta.
  repeat match goal with
         | |- context [if ?c then _ else _] => destruct c
         end; cbn [fst];
    try apply Adv_departmentContact; unfold setLearningModeOff; adv.
Qed.

Lemma Adv_BLE_scan (found : list (N * BleScanResult)) (w : World) :
  Adv w (BLE_scan found w).
Proof.
  revert w. induction found as [|[d r] rest IH]; intros w; cbn [BLE_scan].
  - apply Adv_pass.
  - pose proof (Adv_scanResultCallback r (elapse d w)) as H.
    destruct (scanResultCallback r (elapse d w)) as [w' stopped].
    cbn [fst] in H.
    assert (H0 : Adv w w').
    { eapply Adv_trans; [apply Adv_Later, Later_elapse | exact H]. }
    destruct stopped; [exact H0|].
    eapply Adv_trans; [exact H0 | apply IH].
Qed.

Lemma Adv_eventHandler (w : World) : Adv w (eventHandler w).
Proof. unfold eventHandler, setLearningModeOff, setLearningModeOn. cbv zeta. adv. Qed.

Lemma Adv_setStatusFunction (command : string) (w : World) :
  Adv w (snd (setStatusFunction command w)).
Proof.
  unfold setStatusFunction. cbv zeta.
  repeat match goal with
         | |- context [if ?c then _ else _] => destruct c
         end; cbn [snd]; adv.
Qed.

Lemma Adv_loop (i : LoopInput) (w : World) : Adv w (loop i w).
Proof.
  unfold loop.
  set (w1 := if mpuInitialized w then _ else w).
  assert (H1 : Adv w w1).
  { unfold w1. destruct (mpuInitialized w); [|apply Adv_refl].
    cbv zeta.
    eapply (Adv_trans _ (pass (checkOrientation (in_az i)
              (pass (checkFallDetection (in_accel i) (pass w)))))).
    2: { generalize (pass (checkOrientation (in_az i)
              (pass (checkFallDetection (in_accel i) (pass w))))).
         intro. apply Adv_silent; reflexivity. }
    eapply Adv_trans; [|apply Adv_pass].
    eapply Adv_trans; [|apply Adv_checkOrientation].
    eapply Adv_trans; [|apply Adv_pass].
    eapply Adv_trans; [|apply Adv_checkFallDetection].
    apply Adv_pass. }
  set (w2 := if (_ || _)%bool then BLE_scan (in_scan i) w1 else w1).
  assert (H2 : Adv w1 w2).
  { unfold w2. match goal with |- context [if ?c then _ else _] => destruct c end;
      [apply Adv_BLE_scan | apply Adv_refl]. }
  set (w3 := if STATUS_UPDATE_INTERVAL_MS <=? _ then _ else w2).
  assert (H3 : Adv w2 w3).
  { unfold w3. match goal with |- context [if ?c then _ else _] => destruct c end;
      cbv zeta; adv. }
  pose proof (Adv_checkDeviceStateChanged w3) as H4.
  destruct (checkDeviceStateChanged w3) as [changed w4]. cbn [snd] in H4.
  assert (H04 : Adv w w4).
  { eapply Adv_trans; [exact H1|]. eapply Adv_trans; [exact H2|].
    eapply Adv_trans; [exact H3 | exact H4]. }
  destruct changed; [|exact H04].
  cbv zeta. eapply Adv_trans; [exact H04|].
  adv.
Qed.

Lemma Adv_exec (a : action) (w : World) : Adv w (exec a w).
Proof.
  destruct a; cbn [exec].
  - apply Adv_loop.
  - apply Adv_setStatusFunction.
  - apply Adv_eventHandler.
  - apply Adv_Later, Later_elapse.
  - apply Adv_Later, Later_until.
Qed.

Lemma Adv_run (acts : list action) (w : World) : Adv w (run acts w).
Proof.
  revert w. induction acts as [|a rest IH]; intros w; cbn [run fold_left].
  - apply Adv_refl.
  - eapply Adv_trans; [apply Adv_exec | apply IH].
Qed.

Lemma Adv_setup (mpu_ack : bool) (w : World) : Adv w (setup mpu_ack w).
Proof. unfold setup. cbv zeta. adv. Qed.

Lemma Budget_power_on (saved : BleAddress) (lat : list N) :
  Budget (power_on saved lat).
Proof.
  split; [exact I|]. exists 0. repeat split. apply Z.le_refl.
Qed.

(** ** Every path waits for the budget and stamps [lastPublish] *)

Lemma Quiet_process_log (m : logmsg) :
  Quiet (fun w => Particle_process (log m w)).
Proof.
  intros w. unfold Particle_process.
  rewrite pass_g, pass_pin, pass_eeprom, pass_trace.
  repeat split.
  - apply (pass_now (log m w)).
  - unfold pass. change (latency (log m w)) with (latency w). rewrite H. reflexivity.
  - unfold pass. change (latency (log m w)) with (latency w). rewrite H. exact H.
Qed.

Lemma Quiet_log_process (m : logmsg) :
  Quiet (fun w => log m (Particle_process w)).
Proof.
  intros w. unfold Particle_process.
  change (g (log m (pass w))) with (g (pass w)).
  change (pinD7 (log m (pass w))) with (pinD7 (pass w)).
  change (eeprom (log m (pass w))) with (eeprom (pass w)).
  change (now (log m (pass w))) with (now (pass w)).
  change (latency (log m (pass w))) with (latency (pass w)).
  change (publish_times (trace (log m (pass w))))
    with (publish_times (trace (pass w))).
  rewrite pass_g, pass_pin, pass_eeprom, pass_trace.
  repeat split.
  - apply pass_now.
  - unfold pass. rewrite H. reflexivity.
  - unfold pass. rewrite H. exact H.
Qed.

Lemma Quiet_process : Quiet Particle_process.
Proof.
  intros w. unfold Particle_process.
  rewrite pass_g, pass_pin, pass_eeprom, pass_trace.
  repeat split.
  - apply pass_now.
  - unfold pass. rewrite H. reflexivity.
  - unfold pass. rewrite H. exact H.
Qed.

Section PublishVia.
Variables (name : string) (data : World -> payload).
Variables (before after : World -> World).
Hypothesis Hbefore : Silent before.
Hypothesis Hafter : Quiet after.

Lemma publishVia_waits (w : World) :
  exists t,
    publish_times (trace (publishVia name data before after w))
      = t :: publish_times (trace w) /\
    ms_now w <= t /\
    (forall r, r <= ms_now w -> lastPublish w = u32 r ->
               r + PUBLISH_INTERVAL_MS <= t) /\
    exists r', t <= r' /\
               r' <= ms_now (publishVia name data before after w) /\
               lastPublish (publishVia name data before after w) = u32 r'.
Proof.
  unfold publishVia.
  destruct (publishCore_spec name data before Hbefore w)
    as (K1 & K3 & Ht & M1 & M3 & Hn & Hl & Hready).
  set (w1 := before (pass (waitPublish w))) in *.
  set (w3 := publishCore name data before w) in *.
  destruct (Hafter w3) as (Ag & _ & _ & At & An & _).
  exists (ms_now w1). split; [|split; [|split]].
  - rewrite At, Ht. reflexivity.
  - exact M1.
  - exact Hready.
  - exists (ms_now w3). split; [exact M3|]. split.
    + apply ms_now_mono, An.
    + unfold lastPublish. rewrite Ag. exact Hl.
Qed.

(** With no platform latency the schedule is exact: the publish goes out
    at once when the budget is there, and otherwise as soon as it is. *)
Lemma publishVia_exact (w : World) (r : Z) :
  latency w = [] -> r <= ms_now w -> ms_now w - r < 2 ^ 32 ->
  lastPublish w = u32 r ->
  let t := Z.max (ms_now w) (r + PUBLISH_INTERVAL_MS) in
  let w' := publishVia name data before after w in
  publish_times (trace w') = t :: publish_times (trace w) /\
  latency w' = [] /\ ms_now w' = t /\ lastPublish w' = u32 t.
Proof.
  intros Hlat Hr Hlt Hlp t w'.
  assert (Hwait : latency (waitPublish w) = [] /\
                  ms_now (waitPublish w) = t).
  { unfold waitPublish, canPublish, millis. rewrite Hlp, u32_sub.
    rewrite (u32_small (ms_now w - r)) by lia.
    unfold t, PUBLISH_INTERVAL_MS.
    destruct (1100 <=? ms_now w - r) eqn:E.
    - apply Z.leb_le in E. split; [exact Hlat | lia].
    - apply Z.leb_gt in E.
      rewrite (u32_small (1100 - (ms_now w - r))) by lia.
      unfold delay, pass.
      change (latency (set_now (now w + 1000 * (1100 - (ms_now w - r))) w))
        with (latency w).
      rewrite Hlat. split; [exact Hlat|].
      unfold ms_now.
      change (now (set_now (now w + 1000 * (1100 - (now w / 1000 - r))) w))
        with (now w + 1000 * (1100 - (now w / 1000 - r))).
      unfold ms_now in *.
      replace (now w + 1000 * (1100 - (now w / 1000 - r)))
        with (now w + (1100 - (now w / 1000 - r)) * 1000) by lia.
      rewrite Z.div_add by lia. lia. }
  destruct Hwait as (L0 & T0).
  set (w0 := waitPublish w) in *.
  assert (P0 : pass w0 = w0) by (unfold pass; rewrite L0; reflexivity).
  destruct (Hbefore w0) as (Bn & Bt & Bl & Bk).
  set (w1 := before w0) in *.
  set (w2 := emit (Publish name (data w1) (ms_now w1)) w1).
  assert (L2 : latency w2 = []) by (unfold w2; cbn [emit]; rewrite <- L0, <- Bl; reflexivity).
  assert (P2 : pass w2 = w2) by (unfold pass; rewrite L2; reflexivity).
  set (w3 := set_lastPublish (millis w2) w2).
  assert (E3 : publishCore name data before w = w3).
  { unfold publishCore, Particle_publish. cbv zeta. fold w0. rewrite P0.
    fold w1. fold w2. rewrite P2. reflexivity. }
  assert (M1 : ms_now w1 = t) by (unfold ms_now; rewrite Bn; exact T0).
  destruct (Hafter w3) as (Ag & _ & _ & At & _ & Al).
  destruct (Al L2) as (An & Al').
  unfold w', publishVia. rewrite E3.
  split; [|split; [|split]].
  - rewrite At. unfold w3, w2. cbn [trace set_lastPublish set_g emit set_trace publish_times].
    rewrite Bt, M1.
    pose proof (Later_waitPublish w) as (_ & Htr & _). fold w0 in Htr.
    rewrite Htr. reflexivity.
  - exact Al'.
  - unfold ms_now. rewrite An. exact M1.
  - unfold lastPublish. rewrite Ag. unfold w3.
    cbn [g set_lastPublish set_g g_lastPublish]. unfold millis.
    change (ms_now w2) with (ms_now w1). rewrite M1. reflexivity.
Qed.
End PublishVia.

Lemma emission_via (k : kind) :
  exists name data before after,
    Silent before /\ Quiet after /\
    forall w, emission k w = publishVia name data before after w.
Proof.
  destruct k as [| |d r| |].
  - do 4 eexists. split; [apply (Silent_set_status statusData)|].
    split; [apply Quiet_process|]. exact publishStatus_via.
  - do 4 eexists. split; [apply Silent_id|].
    split; [apply (Quiet_process_log LogPeriodicStatus)|].
    exact publishPeriodicStatus_via.
  - do 4 eexists. split; [apply Silent_id|].
    split; [apply (Quiet_process_log (LogDepartmentPublished d r))|].
    exact (publishDepartment_via d r).
  - do 4 eexists. split; [apply Silent_id|].
    split; [apply (Quiet_log_process LogFallAlertPublished)|].
    exact publishFallAlert_via.
  - do 4 eexists. split; [apply Silent_id|].
    split; [apply (Quiet_process_log LogLocationSent)|].
    exact sendLocationUpdate_via.
Qed.

Lemma emission_exact (k : kind) (w : World) (r : Z) :
  latency w = [] -> r <= ms_now w -> ms_now w - r < 2 ^ 32 ->
  lastPublish w = u32 r ->
  let t := Z.max (ms_now w) (r + PUBLISH_INTERVAL_MS) in
  publish_times (trace (emission k w)) = t :: publish_times (trace w) /\
  latency (emission k w) = [] /\ ms_now (emission k w) = t /\
  lastPublish (emission k w) = u32 t.
Proof.
  destruct (emission_via k) as (name & data & before & after & Hb & Ha & E).
  intros Hlat Hr Hlt Hlp. rewrite E.
  apply publishVia_exact; assumption.
Qed.

Lemma ms_now_until (t : Z) (w : World) :
  ms_now (until t w) = Z.max (ms_now w) t.
Proof.
  unfold ms_now, until. cbn [now set_now].
  destruct (Z.max_spec (now w) (1000 * t)) as [[Hlt ->] | [Hle ->]].
  - replace (1000 * t) with (t * 1000) in * by lia.
    rewrite Z.div_mul by lia.
    assert (now w / 1000 <= t * 1000 / 1000) by (apply ms_le; lia).
    rewrite Z.div_mul in H by lia. lia.
  - assert (t * 1000 / 1000 <= now w / 1000) by (apply ms_le; lia).
    rewrite Z.div_mul in H by lia. lia.
Qed.

Lemma request_exact (t : Z) (k : kind) (w : World) (r : Z) :
  latency w = [] -> r <= ms_now w -> Z.max (ms_now w) t - r < 2 ^ 32 ->
  lastPublish w = u32 r ->
  let t' := Z.max (Z.max (ms_now w) t) (r + PUBLISH_INTERVAL_MS) in
  publish_times (trace (request t k w)) = t' :: publish_times (trace w) /\
  latency (request t k w) = [] /\ ms_now (request t k w) = t' /\
  lastPublish (request t k w) = u32 t'.
Proof.
  intros Hlat Hr Hlt Hlp. unfold request.
  pose proof (emission_exact k (until t w) r) as H.
  rewrite ms_now_until in H.
  apply H; try assumption. lia.
Qed.

(** C1, as the code has it. (1) In every execution from power-on (any saved
    address, any platform latencies, any sequence of loop iterations, cloud
    commands, button clicks and pauses) no two publish operations, of
    whatever kind, are less than PUBLISH_INTERVAL (1100 ms) apart. (2) Each of
    the five emission paths publishes no sooner than 1100 ms after the instant
    that the shared last-publish timestamp stands for, and sets that timestamp
    to an instant not before its publish. (3) With no platform latency and
    the budget available at T0, emissions requested at T0, T0 + 100 and
    T0 + 2000 ms are dispatched at T0, T0 + 1100 and T0 + 2200 ms. *)
Theorem C1_publish_spacing :
  (forall saved lat mpu_ack acts,
     spaced (publish_times
               (trace (run acts (setup mpu_ack (power_on saved lat)))))) /\
  (forall k w r,
     r <= ms_now w -> lastPublish w = u32 r ->
     exists t,
       publish_times (trace (emission k w)) = t :: publish_times (trace w) /\
       r + PUBLISH_INTERVAL_MS <= t /\
       exists r', t <= r' /\ r' <= ms_now (emission k w) /\
                  lastPublish (emission k w) = u32 r') /\
  (forall w T0 k1 k2 k3,
     latency w = [] -> ms_now w = T0 ->
     0 <= lastPublish w < 2 ^ 32 -> canPublish w = true ->
     publish_times
       (trace (request (T0 + 2000) k3
                 (request (T0 + 100) k2 (request T0 k1 w))))
     = [T0 + 2200; T0 + 1100; T0] ++ publish_times (trace w)).
Proof.
  split; [|split].
  - intros saved lat mpu_ack acts.
    pose proof (Adv_setup mpu_ack (power_on saved lat)) as (_ & _ & B1 & _).
    pose proof (Adv_run acts (setup mpu_ack (power_on saved lat)))
      as (_ & _ & B2 & _).
    apply B2, B1, Budget_power_on.
  - intros k w r Hr Hlp.
    destruct (emission_via k) as (name & data & before & after & Hb & Ha & E).
    rewrite E.
    destruct (publishVia_waits name data before after Hb Ha w)
      as (t & Ht & _ & Hready & r' & H1 & H2 & H3).
    exists t. split; [exact Ht|]. split; [apply Hready; assumption|].
    exists r'. repeat split; assumption.
  - intros w T0 k1 k2 k3 Hlat Hms Hrange Hcan.
    set (e := u32 (millis w - lastPublish w)).
    assert (He : PUBLISH_INTERVAL_MS <= e < 2 ^ 32).
    { split; [|apply u32_range]. apply Z.leb_le. exact Hcan. }
    set (r := T0 - e).
    assert (Hlp : lastPublish w = u32 r).
    { unfold r, e, millis. rewrite Hms.
      rewrite <- (u32_small (lastPublish w)) at 1 by exact Hrange.
      rewrite <- (u32_small (lastPublish w)) at 2 by exact Hrange.
      rewrite u32_sub. unfold u32.
      rewrite Zminus_mod_idemp_r. f_equal. lia. }
    unfold PUBLISH_INTERVAL_MS in *.
    destruct (request_exact T0 k1 w r) as (P1 & L1 & M1 & S1);
      try assumption; try lia.
    rewrite Hms in *. unfold PUBLISH_INTERVAL_MS in *.
    replace (Z.max (Z.max T0 T0) (r + 1100)) with T0 in * by lia.
    set (w1 := request T0 k1 w) in *.
    destruct (request_exact (T0 + 100) k2 w1 T0) as (P2 & L2 & M2 & S2);
      try assumption; try lia.
    rewrite M1 in *. unfold PUBLISH_INTERVAL_MS in *.
    replace (Z.max (Z.max T0 (T0 + 100)) (T0 + 1100)) with (T0 + 1100) in * by lia.
    set (w2 := request (T0 + 100) k2 w1) in *.
    destruct (request_exact (T0 + 2000) k3 w2 (T0 + 1100)) as (P3 & _);
      try assumption; try lia.
    rewrite M2 in *. unfold PUBLISH_INTERVAL_MS in *.
    replace (Z.max (Z.max (T0 + 1100) (T0 + 2000)) (T0 + 1100 + 1100))
      with (T0 + 2200) in * by lia.
    rewrite P3, P2, P1. reflexivity.
Qed.

Lemma C1_publish_spacing_witness :
  let w := until 5000 (setup false (power_on unsetAddress [])) in
  latency w = [] /\ ms_now w = 5000 /\ 0 <= lastPublish w < 2 ^ 32 /\
  canPublish w = true /\
  publish_times
    (trace (request 7000 (KDepartment pediatric 0)
              (request 5100 KFalling (request 5000 KPeriodicStatus w))))
  = [7200; 6100; 5000].
Proof.
  intros w.
  assert (Hlat : latency w = []) by reflexivity.
  assert (Hms : ms_now w = 5000) by reflexivity.
  assert (Hrange : 0 <= lastPublish w < 2 ^ 32) by (vm_compute; split; congruence).
  assert (Hcan : canPublish w = true) by reflexivity.
  repeat (split; [assumption|]).
  exact (proj2 (proj2 C1_publish_spacing) w 5000 KPeriodicStatus KFalling
           (KDepartment pediatric 0) Hlat Hms Hrange Hcan).
Defined.

(** C1, the example as specified: from power-on, emissions asked
    for at 0, 100 and 2000 ms (here by the cloud commands info, fall and arg1)
    go out at 1100, 2200 and 3300 ms, not at 0, 1100 and 2000; and the
    schedule 0, 1100, 2000 would itself put two publishes 900 ms apart. *)
Lemma C1_example_counterexample :
  dispatch_times
    (run [AUntil 0; ACommand "info"; AUntil 100; ACommand "fall";
          AUntil 2000; ACommand "arg1"]
         (setup false (power_on unsetAddress [])))
  = [1100; 2200; 3300] /\
  [1100; 2200; 3300] <> [0; 1100; 2000] /\
  ~ spaced (rev [0; 1100; 2000]).
Proof.
  split; [vm_compute; reflexivity|]. split; [discriminate|].
  cbn. unfold PUBLISH_INTERVAL_MS. lia.
Qed.

(** ** What a publish path leaves alone *)

Lemma kept_fields (a b : World) :
  kept a = kept b ->
  statuss a = statuss b /\ searchAddress a = searchAddress b /\
  lastSeen a = lastSeen b /\ lastStatusUpdate a = lastStatusUpdate b /\
  lastRSSI a = lastRSSI b /\ deviceName a = deviceName b /\
  currentDepartment a = currentDepartment b /\
  lastPublishedDept a = lastPublishedDept b /\
  lastDeptSeen a = lastDeptSeen b /\
  mpuInitialized a = mpuInitialized b /\
  fallStartTime a = fallStartTime b /\ isFalling a = isFalling b /\
  currentOrientation a = currentOrientation b /\
  lastOrientation a = lastOrientation b /\
  currentTemperature a = currentTemperature b /\ present a = present b /\
  pinD7 a = pinD7 b /\ eeprom a = eeprom b.
Proof.
  intros H.
  repeat match goal with
         | |- _ /\ _ => split
         end;
    match goal with
    | |- pinD7 _ = _ => exact (f_equal (fun k => snd (fst k)) H)
    | |- eeprom _ = _ => exact (f_equal snd H)
    | |- statuss _ = _ => exact (f_equal (fun k => g_statuss (fst (fst k))) H)
    | |- searchAddress _ = _ => exact (f_equal (fun k => g_searchAddress (fst (fst k))) H)
    | |- lastSeen _ = _ => exact (f_equal (fun k => g_lastSeen (fst (fst k))) H)
    | |- lastStatusUpdate _ = _ => exact (f_equal (fun k => g_lastStatusUpdate (fst (fst k))) H)
    | |- lastRSSI _ = _ => exact (f_equal (fun k => g_lastRSSI (fst (fst k))) H)
    | |- deviceName _ = _ => exact (f_equal (fun k => g_deviceName (fst (fst k))) H)
    | |- currentDepartment _ = _ => exact (f_equal (fun k => g_currentDepartment (fst (fst k))) H)
    | |- lastPublishedDept _ = _ => exact (f_equal (fun k => g_lastPublishedDept (fst (fst k))) H)
    | |- lastDeptSeen _ = _ => exact (f_equal (fun k => g_lastDeptSeen (fst (fst k))) H)
    | |- mpuInitialized _ = _ => exact (f_equal (fun k => g_mpuInitialized (fst (fst k))) H)
    | |- fallStartTime _ = _ => exact (f_equal (fun k => g_fallStartTime (fst (fst k))) H)
    | |- isFalling _ = _ => exact (f_equal (fun k => g_isFalling (fst (fst k))) H)
    | |- currentOrientation _ = _ => exact (f_equal (fun k => g_currentOrientation (fst (fst k))) H)
    | |- lastOrientation _ = _ => exact (f_equal (fun k => g_lastOrientation (fst (fst k))) H)
    | |- currentTemperature _ = _ => exact (f_equal (fun k => g_currentTemperature (fst (fst k))) H)
    | |- present _ = _ => exact (f_equal (fun k => g_present (fst (fst k))) H)
    end.
Qed.

Lemma kept_same_g (a b : World) :
  g a = g b -> pinD7 a = pinD7 b -> eeprom a = eeprom b -> kept a = kept b.
Proof.
  intros Hg Hp He. destruct a, b. cbn [g pinD7 eeprom] in *. subst. reflexivity.
Qed.

(** The trace and the state after the path that publishes a fall alert. *)
Lemma publishFallAlert_shape (w : World) :
  exists t t',
    trace (publishFallAlert w)
      = Log t' LogFallAlertPublished :: Publish "falling" (fallData w) t :: trace w /\
    kept (publishFallAlert w) = kept w /\
    ms_now w <= t /\ t <= ms_now (publishFallAlert w) /\
    now w <= now (publishFallAlert w).
Proof.
  rewrite publishFallAlert_via. unfold publishVia.
  destruct (publishCore_spec "falling" fallData (fun w => w) Silent_id w)
    as (K1 & K3 & Ht & M1 & M3 & Hn & _ & _).
  cbv beta in *.
  set (w1 := pass (waitPublish w)) in *.
  set (w3 := publishCore "falling" fallData (fun w => w) w) in *.
  pose proof (Later_pass w3) as L.
  exists (ms_now w1), (ms_now (pass w3)).
  split; [|split; [|split; [|split]]].
  - unfold Particle_process, log, emit. cbn [trace set_trace].
    rewrite pass_trace, Ht.
    assert (E : fallData w1 = fallData w).
    { destruct (kept_fields _ _ K1)
        as (_ & E1 & _ & _ & _ & E2 & E3 & _ & _ & _ & _ & _ & E4 & _ & E5 & E6 & _).
      unfold fallData, nameField. rewrite E1, E2, E3, E4, E5, E6. reflexivity. }
    rewrite E. reflexivity.
  - rewrite <- K3. unfold Particle_process.
    apply kept_same_g; cbn [log emit set_trace g pinD7 eeprom];
      [apply pass_g | apply pass_pin | apply pass_eeprom].
  - exact M1.
  - etransitivity; [exact M3|]. apply ms_now_mono.
    destruct L as (_ & _ & _ & _ & H). exact H.
  - etransitivity; [exact Hn|].
    destruct L as (_ & _ & _ & _ & H). exact H.
Qed.

Lemma publishDepartment_shape (d : string) (r : Z) (w : World) :
  exists stamp t t',
    trace (publishDepartment d r w)
      = Log t' (LogDepartmentPublished d r)
          :: Publish "department" (PDepartment d r stamp) t :: trace w /\
    kept (publishDepartment d r w) = kept w /\
    ms_now w <= t /\ t <= ms_now (publishDepartment d r w).
Proof.
  rewrite publishDepartment_via. unfold publishVia.
  destruct (publishCore_spec "department" (departmentData d r) (fun w => w)
              Silent_id w)
    as (K1 & K3 & Ht & M1 & M3 & Hn & _ & _).
  cbv beta in *.
  set (w1 := pass (waitPublish w)) in *.
  set (w3 := publishCore "department" (departmentData d r) (fun w => w) w) in *.
  pose proof (Later_pass (log (LogDepartmentPublished d r) w3)) as L.
  exists (millis w1), (ms_now w1), (ms_now w3).
  split; [|split; [|split]].
  - unfold Particle_process. rewrite pass_trace.
    unfold log, emit. cbn [trace set_trace]. rewrite Ht. reflexivity.
  - rewrite <- K3. unfold Particle_process.
    apply kept_same_g;
      [rewrite pass_g | rewrite pass_pin | rewrite pass_eeprom]; reflexivity.
  - exact M1.
  - etransitivity; [exact M3|]. apply ms_now_mono.
    destruct L as (_ & _ & _ & _ & H). exact H.
Qed.

Lemma publishPeriodicStatus_shape (w : World) :
  exists stamp t t',
    trace (publishPeriodicStatus w)
      = Log t' LogPeriodicStatus
          :: Publish "periodic_status"
               (PPeriodic (currentOrientation w) (currentDepartment w)
                          (currentTemperature w) stamp) t
          :: trace w /\
    kept (publishPeriodicStatus w) = kept w.
Proof.
  rewrite publishPeriodicStatus_via. unfold publishVia.
  destruct (publishCore_spec "periodic_status" periodicData (fun w => w)
              Silent_id w)
    as (K1 & K3 & Ht & _).
  cbv beta in *.
  set (w1 := pass (waitPublish w)) in *.
  set (w3 := publishCore "periodic_status" periodicData (fun w => w) w) in *.
  exists (millis w1), (ms_now w1), (ms_now w3).
  split.
  - unfold Particle_process. rewrite pass_trace.
    unfold log, emit. cbn [trace set_trace]. rewrite Ht.
    destruct (kept_fields _ _ K1)
      as (_ & _ & _ & _ & _ & _ & E3 & _ & _ & _ & _ & _ & E4 & _ & E5 & _).
    unfold periodicData. rewrite E3, E4, E5. reflexivity.
  - rewrite <- K3. unfold Particle_process.
    apply kept_same_g;
      [rewrite pass_g | rewrite pass_pin | rewrite pass_eeprom]; reflexivity.
Qed.

(** ** The fall detector *)

Lemma checkFallDetection_start (a : Q) (w : World) :
  below a -> isFalling w = false ->
  checkFallDetection a w
  = log LogFallDetected (set_isFalling true (set_fallStartTime (micros w) w)).
Proof.
  intros Ha Hf. unfold checkFallDetection.
  apply Qlt_bool_iff in Ha. rewrite Ha, Hf. reflexivity.
Qed.

Lemma checkFallDetection_waiting (a : Q) (w : World) :
  below a -> isFalling w = true ->
  u32 (micros w - fallStartTime w) < FALL_DURATION_US ->
  checkFallDetection a w = w.
Proof.
  intros Ha Hf Hd. unfold checkFallDetection.
  apply Qlt_bool_iff in Ha. rewrite Ha, Hf. cbn [negb].
  apply Z.leb_gt in Hd. rewrite Hd. reflexivity.
Qed.

Lemma checkFallDetection_confirm (a : Q) (w : World) :
  below a -> isFalling w = true ->
  FALL_DURATION_US <= u32 (micros w - fallStartTime w) ->
  checkFallDetection a w
  = delay 1000
      (set_isFalling false
         (publishFallAlert
            (log (LogFallConfirmed (u32 (micros w - fallStartTime w))) w))).
Proof.
  intros Ha Hf Hd. unfold checkFallDetection.
  apply Qlt_bool_iff in Ha. rewrite Ha, Hf. cbn [negb].
  apply Z.leb_le in Hd. rewrite Hd. reflexivity.
Qed.

Lemma checkFallDetection_recover (a : Q) (w : World) :
  ~ below a ->
  checkFallDetection a w
  = set_isFalling false
      (if isFalling w
       then log (LogFallEnded (u32 (micros w - fallStartTime w))) w
       else w).
Proof.
  intros Ha. unfold checkFallDetection.
  destruct (Qlt_bool a FALL_THRESHOLD) eqn:E; [|reflexivity].
  apply Qlt_bool_iff in E. contradiction.
Qed.

(** The step that confirms a fall: what it adds to the trace, and how long
    it holds the loop. *)
Lemma confirm_step (a : Q) (w : World) :
  below a -> isFalling w = true ->
  FALL_DURATION_US <= u32 (micros w - fallStartTime w) ->
  exists t t',
    trace (checkFallDetection a w)
      = Log t' LogFallAlertPublished
          :: Publish "falling" (fallData w) t
          :: Log (ms_now w) (LogFallConfirmed (u32 (micros w - fallStartTime w)))
          :: trace w /\
    isFalling (checkFallDetection a w) = false /\
    ms_now w <= t /\
    t + 1000 <= ms_now (checkFallDetection a w).
Proof.
  intros Ha Hf Hd. rewrite (checkFallDetection_confirm a w Ha Hf Hd).
  generalize (LogFallConfirmed (u32 (micros w - fallStartTime w))). intros m.
  destruct (publishFallAlert_shape (log m w)) as (t & t' & Ht & K & M1 & M2 & Hn).
  change (fallData (log m w)) with (fallData w) in Ht.
  change (trace (log m w)) with (Log (ms_now w) m :: trace w) in Ht.
  change (ms_now (log m w)) with (ms_now w) in M1.
  revert Ht K M1 M2 Hn.
  generalize (publishFallAlert (log m w)). intros x Ht K M1 M2 Hn.
  pose proof (Later_delay 1000 (set_isFalling false x) ltac:(lia))
    as (Lg & Lt & _ & _ & _).
  pose proof (delay_now 1000 (set_isFalling false x)) as Hd'.
  revert Lg Lt Hd'.
  generalize (delay 1000 (set_isFalling false x)). intros y Lg Lt Hd'.
  exists t, t'. split; [|split; [|split]].
  - rewrite Lt. exact Ht.
  - unfold isFalling. rewrite Lg. reflexivity.
  - exact M1.
  - change (now (set_isFalling false x)) with (now x) in Hd'.
    apply ms_le in Hd'. unfold ms_now in *.
    pose proof (ms_add (now x) 1000 0 ltac:(lia)) as Hadd.
    replace (now x + 1000 * 1000 + 0) with (now x + 1000 * 1000) in Hadd by lia.
    lia.
Qed.

Lemma polls_app (l1 l2 : list (N * Q)) (w : World) :
  polls (l1 ++ l2) w = polls l2 (polls l1 w).
Proof. unfold polls. apply fold_left_app. Qed.

Lemma micros_since (w : World) (s : Z) :
  s <= now w -> now w - s < 2 ^ 32 ->
  u32 (micros w - u32 s) = now w - s.
Proof.
  intros H1 H2. unfold micros. rewrite u32_sub. apply u32_small. lia.
Qed.

(** While the magnitude stays below the threshold and less than
    FALL_DURATION has gone by since the episode started, polling changes
    nothing but the clock. *)
Lemma polls_waiting (mid : list (N * Q)) (w : World) (s : Z) :
  isFalling w = true -> fallStartTime w = u32 s -> s <= now w ->
  Forall (fun p => below (snd p)) mid ->
  now w - s + Z.of_N (total_gap mid) < FALL_DURATION_US ->
  g (polls mid w) = g w /\ trace (polls mid w) = trace w /\
  now (polls mid w) = now w + Z.of_N (total_gap mid).
Proof.
  revert w. induction mid as [|[d a] rest IH]; intros w Hf Hs Hle Hb Hlt.
  - cbn. repeat split. lia.
  - change (total_gap ((d, a) :: rest)) with (d + total_gap rest)%N in Hlt.
    inversion Hb as [|? ? Ha Hrest]; subst. cbn [snd] in Ha.
    change (polls ((d, a) :: rest) w) with (polls rest (poll d a w)).
    assert (Hp : poll d a w = elapse d w).
    { unfold poll. apply checkFallDetection_waiting; [exact Ha | exact Hf |].
      change (fallStartTime (elapse d w)) with (fallStartTime w). rewrite Hs.
      rewrite micros_since;
        change (now (elapse d w)) with (now w + Z.of_N d);
        unfold FALL_DURATION_US in *; lia. }
    rewrite Hp.
    destruct (IH (elapse d w)) as (Hg & Ht & Hn); try assumption.
    + change (now (elapse d w)) with (now w + Z.of_N d). lia.
    + change (now (elapse d w)) with (now w + Z.of_N d). lia.
    + rewrite Hg, Ht, Hn. repeat split.
      change (total_gap ((d, a) :: rest)) with (d + total_gap rest)%N.
      change (now (elapse d w)) with (now w + Z.of_N d).
      lia.
Qed.

(** Once Idle, polls that read a magnitude at or above the threshold leave
    the detector Idle and the trace as it is. *)
Lemma polls_recovered (rec : list (N * Q)) (w : World) :
  isFalling w = false ->
  Forall (fun p => ~ below (snd p)) rec ->
  isFalling (polls rec w) = false /\ trace (polls rec w) = trace w.
Proof.
  revert w. induction rec as [|[d a] rest IH]; intros w Hf Hr.
  - split; [exact Hf | reflexivity].
  - inversion Hr as [|? ? Ha Hrest]; subst. cbn [snd] in Ha.
    change (polls ((d, a) :: rest) w) with (polls rest (poll d a w)).
    assert (Hp : isFalling (poll d a w) = false /\ trace (poll d a w) = trace w).
    { unfold poll. rewrite (checkFallDetection_recover a _ Ha).
      change (isFalling (elapse d w)) with (isFalling w). rewrite Hf.
      split; reflexivity. }
    destruct Hp as (Hf' & Ht').
    destruct (IH (poll d a w) Hf' Hrest) as (H1 & H2).
    split; [exact H1 | congruence].
Qed.

(** The first poll below the threshold starts the episode. *)
Lemma poll_start (d : N) (a : Q) (w : World) :
  isFalling w = false -> below a ->
  let w1 := poll d a w in
  isFalling w1 = true /\ fallStartTime w1 = u32 (now w1) /\
  trace w1 = Log (ms_now w1) LogFallDetected :: trace w.
Proof.
  intros Hf Ha w1. unfold w1, poll.
  rewrite (checkFallDetection_start a (elapse d w) Ha Hf).
  repeat split.
Qed.

(** The detector [d] microseconds after the last poll of a dip that began
    at a first poll below the threshold and was polled below the threshold,
    for less than FALL_DURATION, since: it is Falling, the episode is as old
    as the polls say, and only its start is on the trace. *)
Lemma dip_state (w : World) (d0 : N) (a0 : Q) (mid : list (N * Q)) (d : N) :
  isFalling w = false -> below a0 ->
  Forall (fun p => below (snd p)) mid ->
  Z.of_N (total_gap mid) < FALL_DURATION_US ->
  Z.of_N (total_gap mid + d) < 2 ^ 32 ->
  let w2 := elapse d (polls ((d0, a0) :: mid) w) in
  isFalling w2 = true /\
  u32 (micros w2 - fallStartTime w2) = Z.of_N (total_gap mid + d) /\
  trace w2 = Log (ms_now (poll d0 a0 w)) LogFallDetected :: trace w.
Proof.
  intros Hf Ha0 Hmid Hgap Hfit w2. unfold w2.
  change (polls ((d0, a0) :: mid) w) with (polls mid (poll d0 a0 w)).
  destruct (poll_start d0 a0 w Hf Ha0) as (F1 & S1 & T1).
  revert F1 S1 T1. generalize (poll d0 a0 w). intros w1 F1 S1 T1.
  destruct (polls_waiting mid w1 (now w1) F1 S1 (Z.le_refl _) Hmid)
    as (G2 & T2 & N2); [lia|].
  revert G2 T2 N2. generalize (polls mid w1). intros x G2 T2 N2.
  split; [|split].
  - unfold isFalling. change (g (elapse d x)) with (g x). rewrite G2. exact F1.
  - unfold fallStartTime. change (g (elapse d x)) with (g x). rewrite G2.
    fold (fallStartTime w1). rewrite S1.
    rewrite micros_since;
      change (now (elapse d x)) with (now x + Z.of_N d); lia.
  - change (trace (elapse d x)) with (trace x). rewrite T2. exact T1.
Qed.

(** One episode of the detector: from Idle, a first poll below the
    threshold, polls below the threshold for less than FALL_DURATION after
    it, and a poll below the threshold at least FALL_DURATION (and less than
    2^32 microseconds) after the first. *)
Lemma dip_confirmed (w : World) (d0 : N) (a0 : Q) (mid : list (N * Q))
    (d : N) (a : Q) :
  isFalling w = false -> below a0 ->
  Forall (fun p => below (snd p)) mid ->
  Z.of_N (total_gap mid) < FALL_DURATION_US ->
  FALL_DURATION_US <= Z.of_N (total_gap mid + d) < 2 ^ 32 ->
  below a ->
  let w' := polls (((d0, a0) :: mid) ++ [(d, a)]) w in
  confirmed_falls w' = S (confirmed_falls w) /\
  List.length (published "falling" (trace w'))
    = S (List.length (published "falling" (trace w))) /\
  isFalling w' = false.
Proof.
  intros Hf Ha0 Hmid Hgap Hdur Ha w'. unfold w'.
  rewrite polls_app.
  change (polls [(d, a)] (polls ((d0, a0) :: mid) w))
    with (checkFallDetection a (elapse d (polls ((d0, a0) :: mid) w))).
  destruct (dip_state w d0 a0 mid d Hf Ha0 Hmid Hgap (proj2 Hdur))
    as (F2 & D2 & T2).
  revert F2 D2 T2.
  generalize (elapse d (polls ((d0, a0) :: mid) w)).
  generalize (ms_now (poll d0 a0 w)). intros t0 x F2 D2 T2.
  destruct (confirm_step a x Ha F2) as (t & t' & T3 & F3 & _).
  { rewrite D2. exact (proj1 Hdur). }
  split; [|split].
  - unfold confirmed_falls. rewrite T3, T2. reflexivity.
  - rewrite T3, T2. reflexivity.
  - exact F3.
Qed.

(** ** What the rest of the program leaves to the sensor checks *)

Lemma confirmations_log (t : Z) (m : logmsg) (tr : list event) :
  is_confirmed m = false ->
  confirmations (Log t m :: tr) = confirmations tr.
Proof.
  intros H. unfold confirmations. cbn [logged filter snd]. rewrite H.
  reflexivity.
Qed.

Lemma confirmations_publish (n : string) (p : payload) (t : Z) (tr : list event) :
  confirmations (Publish n p t :: tr) = confirmations tr.
Proof. reflexivity. Qed.

Lemma confirmed_falls_length (w : World) :
  confirmed_falls w = List.length (confirmations (trace w)).
Proof. unfold confirmed_falls, confirmations. symmetry. apply length_map. Qed.

Lemma Rest_refl (w : World) : Rest w w.
Proof. repeat split. apply Z.le_refl. Qed.

Lemma Rest_trans (a b c : World) : Rest a b -> Rest b c -> Rest a c.
Proof.
  intros (H1 & H2 & H3 & H4 & H5 & H6 & H7) (K1 & K2 & K3 & K4 & K5 & K6 & K7).
  repeat split; try congruence. lia.
Qed.

Lemma Rest_Later (w w' : World) : Later w w' -> Rest w w'.
Proof.
  intros (Hg & Ht & _ & _ & Hn).
  unfold Rest, isFalling, fallStartTime, mpuInitialized, currentOrientation,
    lastOrientation.
  rewrite Hg, Ht. repeat split. exact Hn.
Qed.

Lemma Rest_silent (w w' : World) :
  now w' = now w -> trace w' = trace w ->
  isFalling w' = isFalling w -> fallStartTime w' = fallStartTime w ->
  mpuInitialized w' = mpuInitialized w ->
  currentOrientation w' = currentOrientation w ->
  lastOrientation w' = lastOrientation w ->
  Rest w w'.
Proof.
  intros Hn Ht H1 H2 H3 H4 H5. unfold Rest. rewrite Ht.
  repeat split; try assumption. lia.
Qed.

Lemma Rest_log (m : logmsg) (w : World) :
  is_confirmed m = false -> Rest w (log m w).
Proof.
  intros H. unfold Rest. change (trace (log m w)) with (Log (ms_now w) m :: trace w).
  rewrite (confirmations_log _ _ _ H). repeat split. apply Z.le_refl.
Qed.

Lemma Rest_pass (w : World) : Rest w (pass w).
Proof. apply Rest_Later, Later_pass. Qed.

Lemma Rest_delay (ms : Z) (w : World) : 0 <= ms -> Rest w (delay ms w).
Proof. intros H. apply Rest_Later, Later_delay, H. Qed.

Lemma Rest_publishCore (name : string) (data : World -> payload)
    (before : World -> World) (w : World) :
  Silent before -> Rest w (publishCore name data before w).
Proof.
  intros Hb.
  destruct (publishCore_spec name data before Hb w)
    as (_ & K3 & Ht & _ & _ & Hn & _ & _).
  revert K3 Ht Hn. generalize (publishCore name data before w).
  generalize (data (before (pass (waitPublish w)))).
  generalize (ms_now (before (pass (waitPublish w)))).
  intros t p w3 K3 Ht Hn.
  destruct (kept_fields _ _ K3)
    as (_ & _ & _ & _ & _ & _ & _ & _ & _ & E1 & E2 & E3 & E4 & E5 & _).
  unfold Rest. rewrite Ht, confirmations_publish.
  repeat split; assumption.
Qed.

Lemma Rest_publishStatus (w : World) : Rest w (publishStatus w).
Proof.
  rewrite publishStatus_via. unfold publishVia, Particle_process.
  eapply Rest_trans;
    [apply Rest_publishCore, (Silent_set_status statusData) | apply Rest_pass].
Qed.

Lemma Rest_publishPeriodicStatus (w : World) : Rest w (publishPeriodicStatus w).
Proof.
  rewrite publishPeriodicStatus_via. unfold publishVia, Particle_process.
  eapply Rest_trans; [apply Rest_publishCore, Silent_id|].
  eapply Rest_trans; [|apply Rest_pass]. apply Rest_log. reflexivity.
Qed.

Lemma Rest_publishDepartment (d : string) (r : Z) (w : World) :
  Rest w (publishDepartment d r w).
Proof.
  rewrite publishDepartment_via. unfold publishVia, Particle_process.
  eapply Rest_trans; [apply Rest_publishCore, Silent_id|].
  eapply Rest_trans; [|apply Rest_pass]. apply Rest_log. reflexivity.
Qed.

Lemma Rest_publishFallAlert (w : World) : Rest w (publishFallAlert w).
Proof.
  rewrite publishFallAlert_via. unfold publishVia, Particle_process.
  eapply Rest_trans; [apply Rest_publishCore, Silent_id|].
  eapply Rest_trans; [|apply Rest_log; reflexivity]. apply Rest_pass.
Qed.

Lemma Rest_sendLocationUpdate (w : World) : Rest w (sendLocationUpdate w).
Proof.
  rewrite sendLocationUpdate_via. unfold publishVia, Particle_process.
  eapply Rest_trans; [apply Rest_publishCore, Silent_id|].
  eapply Rest_trans; [|apply Rest_pass]. apply Rest_log. reflexivity.
Qed.

(** Peels a composite step that is none of the two sensor checks. *)
Ltac rest :=
  lazymatch goal with
  | |- Rest ?w ?w => apply Rest_refl
  | |- Rest _ (if ?c then _ else _) => destruct c; rest
  | |- Rest _ (pass _) => eapply Rest_trans; [|apply Rest_pass]; rest
  | |- Rest _ (Particle_process _) => eapply Rest_trans; [|apply Rest_pass]; rest
  | |- Rest _ (log _ _) =>
      eapply Rest_trans; [|apply Rest_log; reflexivity]; rest
  | |- Rest _ (delay _ _) =>
      eapply Rest_trans;
      [|apply Rest_delay; first [apply u32_range | discriminate]]; rest
  | |- Rest _ (elapse _ _) => eapply Rest_trans; [|apply Rest_Later, Later_elapse]; rest
  | |- Rest _ (until _ _) => eapply Rest_trans; [|apply Rest_Later, Later_until]; rest
  | |- Rest _ (publishPeriodicStatus _) =>
      eapply Rest_trans; [|apply Rest_publishPeriodicStatus]; rest
  | |- Rest _ (publishDepartment _ _ _) =>
      eapply Rest_trans; [|apply Rest_publishDepartment]; rest
  | |- Rest _ (publishFallAlert _) =>
      eapply Rest_trans; [|apply Rest_publishFallAlert]; rest
  | |- Rest _ (sendLocationUpdate _) =>
      eapply Rest_trans; [|apply Rest_sendLocationUpdate]; rest
  | |- Rest _ (publishStatus _) =>
      eapply Rest_trans; [|apply Rest_publishStatus]; rest
  | |- Rest _ (_ _ ?x) =>
      eapply (Rest_trans _ x);
      [|generalize x; intro; apply Rest_silent; reflexivity]; rest
  end.

Lemma Rest_checkDeviceStateChanged (w : World) :
  Rest w (snd (checkDeviceStateChanged w)).
Proof.
  unfold checkDeviceStateChanged.
  repeat match goal with
         | |- context [if ?c then _ else _] => destruct c
         end; cbn [snd]; rest.
Qed.

Lemma Rest_departmentContact (d : string) (r : BleScanResult) (w : World) :
  Rest w (departmentContact d r w).
Proof. unfold departmentContact. cbv zeta. rest. Qed.

Lemma Rest_scanResultCallback (r : BleScanResult) (w : World) :
  Rest w (fst (scanResultCallback r w)).
Proof.
  unfold scanResultCallback. cbv zeta.
  repeat match goal with
         | |- context [if ?c then _ else _] => destruct c
         end; cbn [fst];
    try apply Rest_departmentContact; unfold setLearningModeOff; rest.
Qed.

Lemma Rest_BLE_scan (found : list (N * BleScanResult)) (w : World) :
  Rest w (BLE_scan found w).
Proof.
  revert w. induction found as [|[d r] rest IH]; intros w; cbn [BLE_scan].
  - apply Rest_pass.
  - pose proof (Rest_scanResultCallback r (elapse d w)) as H.
    destruct (scanResultCallback r (elapse d w)) as [w' stopped].
    cbn [fst] in H.
    assert (H0 : Rest w w').
    { eapply Rest_trans; [apply Rest_Later, Later_elapse | exact H]. }
    destruct stopped; [exact H0|].
    eapply Rest_trans; [exact H0 | apply IH].
Qed.

Lemma Rest_eventHandler (w : World) : Rest w (eventHandler w).
Proof. unfold eventHandler, setLearningModeOff, setLearningModeOn. cbv zeta. rest. Qed.

Lemma Rest_setStatusFunction (command : string) (w : World) :
  Rest w (snd (setStatusFunction command w)).
Proof.
  unfold setStatusFunction. cbv zeta.
  repeat match goal with
         | |- context [if ?c then _ else _] => destruct c
         end; cbn [snd]; rest.
Qed.

Lemma Rest_loop_after_sensors (i : LoopInput) (w : World) :
  Rest w (loop_after_sensors i w).
Proof.
  unfold loop_after_sensors.
  set (w2 := if (_ || _)%bool then BLE_scan (in_scan i) w else w).
  assert (H2 : Rest w w2).
  { unfold w2. match goal with |- context [if ?c then _ else _] => destruct c end;
      [apply Rest_BLE_scan | apply Rest_refl]. }
  clearbody w2.
  set (w3 := if STATUS_UPDATE_INTERVAL_MS <=? _ then _ else w2).
  assert (H3 : Rest w2 w3).
  { unfold w3. match goal with |- context [if ?c then _ else _] => destruct c end;
      cbv zeta; rest. }
  clearbody w3.
  pose proof (Rest_checkDeviceStateChanged w3) as H4.
  destruct (checkDeviceStateChanged w3) as [changed w4]. cbn [snd] in H4.
  assert (H04 : Rest w w4).
  { eapply Rest_trans; [exact H2|]. eapply Rest_trans; [exact H3 | exact H4]. }
  destruct changed; [|exact H04].
  cbv zeta. eapply Rest_trans; [exact H04|].
  rest.
Qed.

Lemma loop_split (i : LoopInput) (w : World) :
  loop i w
  = loop_after_sensors i (if mpuInitialized w then loop_sensors i w else w).
Proof.
  unfold loop, loop_after_sensors, loop_sensors. cbv zeta.
  generalize (if mpuInitialized w
              then set_currentTemperature (in_temperature i)
                     (pass (checkOrientation (in_az i)
                              (pass (checkFallDetection (in_accel i) (pass w)))))
              else w).
  intro. reflexivity.
Qed.

(** ** The detector over whole executions *)

Lemma FallInv_mono (w w' : World) :
  now w <= now w' -> isFalling w' = isFalling w ->
  fallStartTime w' = fallStartTime w ->
  confirmations (trace w') = confirmations (trace w) ->
  FallInv w -> FallInv w'.
Proof.
  intros Hn Hf Hs Hc (A & B & C). unfold FallInv. rewrite Hc, Hf, Hs.
  split; [exact A|]. split.
  - destruct (confirmations (trace w)); [exact I | lia].
  - intros H. destruct (C H) as (s & E1 & E2 & E3).
    exists s. split; [exact E1|]. split; [lia | exact E3].
Qed.

Lemma FallInv_Rest (w w' : World) : Rest w w' -> FallInv w -> FallInv w'.
Proof.
  intros (Hn & Hf & Hs & _ & _ & _ & Hc). apply FallInv_mono; assumption.
Qed.

Lemma FallInv_checkFallDetection (a : Q) (w : World) :
  FallInv w -> FallInv (checkFallDetection a w).
Proof.
  intros (A & B & C).
  destruct (Qlt_bool a FALL_THRESHOLD) eqn:Ea.
  - apply Qlt_bool_iff in Ea.
    destruct (isFalling w) eqn:Ef.
    + destruct (Z_lt_le_dec (u32 (micros w - fallStartTime w)) FALL_DURATION_US)
        as [Hd | Hd].
      * rewrite (checkFallDetection_waiting a w Ea Ef Hd).
        split; [exact A|]. split; [exact B|]. rewrite Ef. exact C.
      * destruct (confirm_step a w Ea Ef Hd) as (t & t' & Ht & Hi & M1 & M2).
        destruct (C eq_refl) as (s & E1 & E2 & E3).
        assert (Hage : 300000 <= now w - s).
        { rewrite E1 in Hd. unfold micros in Hd. rewrite u32_sub in Hd.
          pose proof (u32_le (now w - s) ltac:(lia)).
          unfold FALL_DURATION_US in Hd. lia. }
        revert Ht Hi M2. generalize (checkFallDetection a w).
        intros w' Ht Hi M2.
        assert (Ec : confirmations (trace w')
                     = ms_now w :: confirmations (trace w)).
        { rewrite Ht. reflexivity. }
        unfold FallInv. rewrite Ec, Hi. split; [|split].
        -- cbn [apart]. split; [|exact A].
           destruct (confirmations (trace w)) as [|T older]; [exact I|].
           unfold ms_now. Z.div_mod_to_equations. lia.
        -- unfold ms_now in *. Z.div_mod_to_equations. lia.
        -- discriminate.
    + rewrite (checkFallDetection_start a w Ea Ef).
      unfold FallInv.
      change (trace (log LogFallDetected
                       (set_isFalling true (set_fallStartTime (micros w) w))))
        with (Log (ms_now w) LogFallDetected :: trace w).
      rewrite confirmations_log by reflexivity.
      split; [exact A|]. split; [exact B|].
      intros _. exists (now w). split; [reflexivity|].
      split; [apply Z.le_refl | exact B].
  - assert (Hn : ~ below a).
    { intros H. apply Qlt_bool_iff in H. congruence. }
    rewrite (checkFallDetection_recover a w Hn).
    unfold FallInv.
    assert (Ec : confirmations
                   (trace (set_isFalling false
                             (if isFalling w
                              then log (LogFallEnded
                                          (u32 (micros w - fallStartTime w))) w
                              else w)))
                 = confirmations (trace w)).
    { destruct (isFalling w); reflexivity. }
    rewrite Ec.
    assert (En : now (set_isFalling false
                        (if isFalling w
                         then log (LogFallEnded
                                     (u32 (micros w - fallStartTime w))) w
                         else w)) = now w).
    { destruct (isFalling w); reflexivity. }
    rewrite En.
    split; [exact A|]. split; [exact B|].
    intros H. discriminate H.
Qed.

Lemma FallInv_checkOrientation (az : Z) (w : World) :
  FallInv w -> FallInv (checkOrientation az w).
Proof.
  unfold checkOrientation. cbv zeta.
  match goal with |- context [if ?c then _ else _] => destruct c end;
    apply FallInv_mono; reflexivity.
Qed.

Lemma FallInv_loop (i : LoopInput) (w : World) : FallInv w -> FallInv (loop i w).
Proof.
  intros H. rewrite loop_split.
  apply (FallInv_Rest _ _ (Rest_loop_after_sensors i _)).
  destruct (mpuInitialized w); [|exact H].
  unfold loop_sensors. cbv zeta.
  assert (H1 : FallInv (checkFallDetection (in_accel i) (pass w))).
  { apply FallInv_checkFallDetection, (FallInv_Rest w); [apply Rest_pass | exact H]. }
  revert H1. generalize (checkFallDetection (in_accel i) (pass w)). intros x H1.
  assert (H2 : FallInv (checkOrientation (in_az i) (pass x))).
  { apply FallInv_checkOrientation, (FallInv_Rest x); [apply Rest_pass | exact H1]. }
  revert H2. generalize (checkOrientation (in_az i) (pass x)). intros y H2.
  assert (H3 : FallInv (pass y))
    by (apply (FallInv_Rest y); [apply Rest_pass | exact H2]).
  revert H3. generalize (pass y). intros z H3.
  apply (FallInv_mono z); try reflexivity. exact H3.
Qed.

Lemma FallInv_exec (a : action) (w : World) : FallInv w -> FallInv (exec a w).
Proof.
  destruct a; cbn [exec].
  - apply FallInv_loop.
  - apply FallInv_Rest, Rest_setStatusFunction.
  - apply FallInv_Rest, Rest_eventHandler.
  - apply FallInv_Rest, Rest_Later, Later_elapse.
  - apply FallInv_Rest, Rest_Later, Later_until.
Qed.

Lemma FallInv_run (acts : list action) (w : World) :
  FallInv w -> FallInv (run acts w).
Proof.
  revert w. induction acts as [|a rest IH]; intros w H; cbn [run fold_left].
  - exact H.
  - apply IH, FallInv_exec, H.
Qed.

(** After [setup()] nothing is on the trace yet, the detector is Idle, the
    label is the default, and the sensor flag is what the bus answered. *)
Lemma setup_state (mpu_ack : bool) (saved : BleAddress) (lat : list N) :
  let w := setup mpu_ack (power_on saved lat) in
  trace w = [] /\ isFalling w = false /\ mpuInitialized w = mpu_ack /\
  currentOrientation w = lying_down /\ lastOrientation w = lying_down /\
  searchAddress w = saved /\ lastSeen w = 0.
Proof.
  intros w. unfold w, setup. cbv zeta.
  set (w0 := power_on saved lat).
  assert (L1 : Later w0 (pass w0)) by apply Later_pass.
  assert (L2 : Later w0 (if mpu_ack then delay 100 (pass w0) else pass w0)).
  { destruct mpu_ack; [|exact L1].
    eapply Later_trans; [exact L1 | apply Later_delay; lia]. }
  revert L2. generalize (if mpu_ack then delay 100 (pass w0) else pass w0).
  intros x (Hg & Ht & _ & He & _).
  set (y := set_searchAddress (eeprom (set_mpuInitialized mpu_ack x))
              (set_mpuInitialized mpu_ack x)).
  pose proof (Later_pass y) as (Pg & Pt & _).
  revert Pg Pt. generalize (pass y). generalize (millis y). intros v py Pg Pt.
  split; [|split; [|split; [|split; [|split; [|split]]]]].
  - change (trace py = []). rewrite Pt. change (trace x = []). rewrite Ht.
    reflexivity.
  - change (g_isFalling (g py) = false). rewrite Pg.
    change (g_isFalling (g x) = false). rewrite Hg. reflexivity.
  - change (g_mpuInitialized (g py) = mpu_ack). rewrite Pg. reflexivity.
  - change (g_currentOrientation (g py) = lying_down). rewrite Pg.
    change (g_currentOrientation (g x) = lying_down). rewrite Hg. reflexivity.
  - change (g_lastOrientation (g py) = lying_down). rewrite Pg.
    change (g_lastOrientation (g x) = lying_down). rewrite Hg. reflexivity.
  - change (g_searchAddress (g py) = saved). rewrite Pg.
    change (eeprom x = saved). rewrite He. reflexivity.
  - change (g_lastSeen (g py) = 0). rewrite Pg.
    change (g_lastSeen (g x) = 0). rewrite Hg. reflexivity.
Qed.

(** In every execution from power-on, two falls confirmed by the detector
    are at least 1300 ms apart: the 1 s cooldown and the 300 ms a new episode
    needs. *)
Lemma confirmations_apart (saved : BleAddress) (lat : list N)
    (mpu_ack : bool) (acts : list action) :
  apart 1300
    (confirmations (trace (run acts (setup mpu_ack (power_on saved lat))))).
Proof.
  assert (H0 : FallInv (setup mpu_ack (power_on saved lat))).
  { destruct (setup_state mpu_ack saved lat) as (Ht & Hf & _).
    unfold FallInv. rewrite Ht, Hf. repeat split. discriminate. }
  exact (proj1 (FallInv_run acts _ H0)).
Qed.

(** C3, as the code has it. (1) Take a detector that is Idle and polls that
    read the magnitude below FALL_THRESHOLD from a first poll on; the first
    of them that comes at least FALL_DURATION (300 ms), and less than 2^32
    microseconds, after the first poll confirms the fall: exactly one
    confirmation is logged and one falling event published, and the detector
    is back in Idle. (2) The poll that confirms (the detector is Falling, the
    magnitude below the threshold, the episode at least FALL_DURATION old)
    adds to the trace the confirmation and one falling event, leaves the
    detector Idle, and returns no sooner than 1 s after the emission; so
    whatever the node does next, and whatever the accelerometer reads,
    nothing (in particular no second confirmation) is logged or published
    before the 1 s cooldown is over. (3) The detector then starts over: when
    the magnitude is still below the threshold at the polls that follow, a
    second episode runs as the first did and a second fall is confirmed.
    (4) In every execution from power-on, whatever the accelerometer reads,
    two confirmations are at least 1300 ms apart. *)
Theorem C3_fall_confirmed_once_then_cooldown :
  (forall w d0 a0 mid d a,
     isFalling w = false -> below a0 ->
     Forall (fun p => below (snd p)) mid ->
     Z.of_N (total_gap mid) < FALL_DURATION_US ->
     FALL_DURATION_US <= Z.of_N (total_gap mid + d) < 2 ^ 32 ->
     below a ->
     let w' := polls (((d0, a0) :: mid) ++ [(d, a)]) w in
     confirmed_falls w' = S (confirmed_falls w) /\
     List.length (published "falling" (trace w'))
       = S (List.length (published "falling" (trace w))) /\
     isFalling w' = false) /\
  (forall a w,
     isFalling w = true ->
     below a ->
     FALL_DURATION_US <= u32 (micros w - fallStartTime w) ->
     let w' := checkFallDetection a w in
     exists t t',
       trace w'
         = Log t' LogFallAlertPublished
             :: Publish "falling" (fallData w) t
             :: Log (ms_now w)
                    (LogFallConfirmed (u32 (micros w - fallStartTime w)))
             :: trace w /\
       isFalling w' = false /\
       t + 1000 <= ms_now w' /\
       forall acts, exists new,
         trace (run acts w') = new ++ trace w' /\
         Forall (fun e => t + 1000 <= event_time e) new) /\
  (forall w d0 a0 mid d a d0' a0' mid' d' a',
     isFalling w = false ->
     below a0 -> Forall (fun p => below (snd p)) mid ->
     Z.of_N (total_gap mid) < FALL_DURATION_US ->
     FALL_DURATION_US <= Z.of_N (total_gap mid + d) < 2 ^ 32 ->
     below a ->
     below a0' -> Forall (fun p => below (snd p)) mid' ->
     Z.of_N (total_gap mid') < FALL_DURATION_US ->
     FALL_DURATION_US <= Z.of_N (total_gap mid' + d') < 2 ^ 32 ->
     below a' ->
     let w' := polls ((((d0, a0) :: mid) ++ [(d, a)])
                        ++ ((d0', a0') :: mid') ++ [(d', a')]) w in
     confirmed_falls w' = S (S (confirmed_falls w)) /\
     List.length (published "falling" (trace w'))
       = S (S (List.length (published "falling" (trace w)))) /\
     isFalling w' = false) /\
  (forall saved lat mpu_ack acts,
     apart 1300
       (confirmations
          (trace (run acts (setup mpu_ack (power_on saved lat)))))).
Proof.
  split; [exact dip_confirmed|]. split; [|split].
  - intros a w Hf Ha Hd w'.
    destruct (confirm_step a w Ha Hf Hd) as (t & t' & Ht & Hi & M1 & M2).
    exists t, t'. repeat (split; [assumption|]).
    intros acts.
    destruct (Adv_run acts w') as (_ & (new & E & F) & _).
    exists new. split; [exact E|].
    eapply Forall_impl; [|exact F]. cbv beta. intros e He.
    fold w' in M2. lia.
  - intros w d0 a0 mid d a d0' a0' mid' d' a'
      Hf Ha0 Hmid Hgap Hdur Ha Ha0' Hmid' Hgap' Hdur' Ha' w'.
    unfold w'. rewrite polls_app.
    destruct (dip_confirmed w d0 a0 mid d a Hf Ha0 Hmid Hgap Hdur Ha)
      as (C1 & P1 & F1).
    revert C1 P1 F1.
    generalize (polls (((d0, a0) :: mid) ++ [(d, a)]) w). intros x C1 P1 F1.
    destruct (dip_confirmed x d0' a0' mid' d' a' F1 Ha0' Hmid' Hgap' Hdur' Ha')
      as (C2 & P2 & F2).
    rewrite C2, P2, C1, P1. split; [reflexivity|]. split; [reflexivity|].
    exact F2.
  - exact confirmations_apart.
Qed.

Lemma C3_fall_confirmed_once_then_cooldown_witness :
  let w0 := setup true (power_on unsetAddress []) in
  let w := elapse 300000 (checkFallDetection (2 # 10) w0) in
  (isFalling w0 = false /\
   confirmed_falls
     (polls [(0%N, (2 # 10)%Q); (150000%N, (1 # 10)%Q); (200000%N, (3 # 10)%Q)] w0)
   = 1%nat) /\
  (isFalling w = true /\ below (2 # 10) /\
   FALL_DURATION_US <= u32 (micros w - fallStartTime w) /\
   exists t t',
     trace (checkFallDetection (2 # 10) w)
       = Log t' LogFallAlertPublished
           :: Publish "falling" (fallData w) t
           :: Log (ms_now w) (LogFallConfirmed (u32 (micros w - fallStartTime w)))
           :: trace w /\
     isFalling (checkFallDetection (2 # 10) w) = false /\
     t + 1000 <= ms_now (checkFallDetection (2 # 10) w)) /\
  confirmed_falls
    (polls (([(0%N, (2 # 10)%Q); (150000%N, (1 # 10)%Q)] ++ [(200000%N, (3 # 10)%Q)])
              ++ [(0%N, (3 # 10)%Q); (150000%N, (3 # 10)%Q)]
              ++ [(200000%N, (3 # 10)%Q)]) w0)
  = 2%nat.
Proof.
  intros w0 w.
  assert (H0 : isFalling w0 = false) by reflexivity.
  assert (B1 : below (1 # 10)) by (vm_compute; reflexivity).
  assert (B3 : below (3 # 10)) by (vm_compute; reflexivity).
  assert (H1 : isFalling w = true) by reflexivity.
  assert (H2 : below (2 # 10)) by (vm_compute; reflexivity).
  assert (H3 : FALL_DURATION_US <= u32 (micros w - fallStartTime w))
    by (vm_compute; congruence).
  assert (M1 : Forall (fun p : N * Q => below (snd p)) [(150000%N, (1 # 10)%Q)])
    by (constructor; [exact B1 | constructor]).
  assert (M3 : Forall (fun p : N * Q => below (snd p)) [(150000%N, (3 # 10)%Q)])
    by (constructor; [exact B3 | constructor]).
  assert (G : Z.of_N (total_gap [(150000%N, (1 # 10)%Q)]) < FALL_DURATION_US)
    by reflexivity.
  assert (G' : Z.of_N (total_gap [(150000%N, (3 # 10)%Q)]) < FALL_DURATION_US)
    by reflexivity.
  assert (D : FALL_DURATION_US
              <= Z.of_N (total_gap [(150000%N, (1 # 10)%Q)] + 200000) < 2 ^ 32)
    by (vm_compute; split; [congruence | reflexivity]).
  assert (D' : FALL_DURATION_US
               <= Z.of_N (total_gap [(150000%N, (3 # 10)%Q)] + 200000) < 2 ^ 32)
    by (vm_compute; split; [congruence | reflexivity]).
  split; [|split].
  - split; [exact H0|].
    exact (proj1 (proj1 C3_fall_confirmed_once_then_cooldown w0 0%N (2 # 10)%Q
                    [(150000%N, (1 # 10)%Q)] 200000%N (3 # 10)%Q
                    H0 H2 M1 G D B3)).
  - split; [exact H1|]. split; [exact H2|]. split; [exact H3|].
    destruct (proj1 (proj2 C3_fall_confirmed_once_then_cooldown) (2 # 10)%Q w
                H1 H2 H3)
      as (t & t' & Ht & Hi & Hc & _).
    exists t, t'. split; [exact Ht|]. split; [exact Hi | exact Hc].
  - exact (proj1 (proj1 (proj2 (proj2 C3_fall_confirmed_once_then_cooldown))
                    w0 0%N (2 # 10)%Q [(150000%N, (1 # 10)%Q)] 200000%N
                    (3 # 10)%Q 0%N (3 # 10)%Q [(150000%N, (3 # 10)%Q)]
                    200000%N (3 # 10)%Q
                    H0 H2 M1 G D B3 B3 M3 G' D' B3)).
Defined.

(** C3 as specified fails: the magnitude is read at 0.2 g, below the
    threshold, at every one of eight polls, each 100 ms after the poll before
    it returned, from start-up on: one unbroken interval below the threshold.
    The fall is confirmed, and a falling event published, twice: at the
    fourth poll (confirmed at 500 ms, published at 1100 ms when the publish
    budget allows), and, once the cooldown is over, at the eighth (at
    2500 ms). *)
Lemma C3_rearm_counterexample :
  let w0 := setup true (power_on unsetAddress []) in
  let samples := repeat (100000%N, (2 # 10)%Q) 8 in
  let w := polls samples w0 in
  isFalling w0 = false /\
  Forall (fun p => below (snd p)) samples /\
  confirmed_falls (polls (firstn 4 samples) w0) = 1%nat /\
  confirmed_falls w = 2%nat /\
  map snd (published "falling" (trace w)) = [2500; 1100] /\
  confirmations (trace w) = [2500; 500] /\
  ms_now w0 = 100 /\ ms_now w = 3500.
Proof.
  intros w0 samples w.
  split; [reflexivity|]. split.
  - repeat constructor.
  - vm_compute. repeat split.
Qed.

(** C5. Take a detector that is Idle and a sequence of polls. (1) If the
    magnitude is read below FALL_THRESHOLD at a first poll, at any polls
    during the next 300 ms, and at a poll exactly FALL_DURATION (300 ms) after
    the first, and at or above the threshold from then on, exactly one fall is
    confirmed and one falling event published. (2) If the polls that read it
    below the threshold all come within less than FALL_DURATION of the first
    (for instance within FALL_DURATION - 1 ms) and the next poll reads it at
    or above the threshold, no fall is confirmed, nothing is published, and
    the detector is back in Idle. *)
Theorem C5_fall_duration_boundary :
  (forall w d0 a0 mid a_last rec,
     isFalling w = false -> below a0 ->
     Forall (fun p => below (snd p)) mid ->
     (total_gap mid < 300000)%N -> below a_last ->
     Forall (fun p => ~ below (snd p)) rec ->
     let dip := (d0, a0) :: mid ++ [((300000 - total_gap mid)%N, a_last)] in
     let w' := polls (dip ++ rec) w in
     confirmed_falls w' = S (confirmed_falls w) /\
     List.length (published "falling" (trace w'))
       = S (List.length (published "falling" (trace w))) /\
     isFalling w' = false) /\
  (forall w d0 a0 mid d a rec,
     isFalling w = false -> below a0 ->
     Forall (fun p => below (snd p)) mid ->
     Z.of_N (total_gap mid) < FALL_DURATION_US ->
     ~ below a -> Forall (fun p => ~ below (snd p)) rec ->
     let dip := (d0, a0) :: mid in
     let w' := polls (dip ++ (d, a) :: rec) w in
     confirmed_falls w' = confirmed_falls w /\
     published "falling" (trace w') = published "falling" (trace w) /\
     isFalling w' = false).
Proof.
  split.
  - intros w d0 a0 mid a_last rec Hf Ha0 Hmid Hgap Hlast Hrec dip w'.
    unfold w', dip.
    rewrite polls_app.
    change (polls ((d0, a0) :: mid ++ [((300000 - total_gap mid)%N, a_last)]) w)
      with (polls (mid ++ [((300000 - total_gap mid)%N, a_last)]) (poll d0 a0 w)).
    rewrite polls_app.
    destruct (poll_start d0 a0 w Hf Ha0) as (F1 & S1 & T1).
    set (w1 := poll d0 a0 w) in *.
    destruct (polls_waiting mid w1 (now w1) F1 S1 (Z.le_refl _) Hmid)
      as (G2 & T2 & N2).
    { unfold FALL_DURATION_US. lia. }
    set (w2 := polls mid w1) in *.
    change (polls [((300000 - total_gap mid)%N, a_last)] w2)
      with (checkFallDetection a_last (elapse (300000 - total_gap mid) w2)).
    set (w2' := elapse (300000 - total_gap mid) w2).
    assert (F2 : isFalling w2' = true).
    { unfold w2', isFalling. change (g (elapse _ w2)) with (g w2).
      rewrite G2. exact F1. }
    assert (D2 : u32 (micros w2' - fallStartTime w2') = 300000).
    { unfold fallStartTime. unfold w2'. change (g (elapse _ w2)) with (g w2).
      rewrite G2. fold (fallStartTime w1). rewrite S1.
      rewrite micros_since;
        change (now (elapse (300000 - total_gap mid) w2))
          with (now w2 + Z.of_N (300000 - total_gap mid)); lia. }
    destruct (confirm_step a_last w2' Hlast F2) as (t & t' & T3 & F3 & _).
    { rewrite D2. unfold FALL_DURATION_US. lia. }
    set (w3 := checkFallDetection a_last w2') in *.
    destruct (polls_recovered rec w3 F3 Hrec) as (F4 & T4).
    assert (E : trace (polls rec w3)
                = Log t' LogFallAlertPublished
                    :: Publish "falling" (fallData w2') t
                    :: Log (ms_now w2') (LogFallConfirmed 300000)
                    :: Log (ms_now w1) LogFallDetected :: trace w).
    { rewrite T4, T3, D2. change (trace w2') with (trace w2).
      rewrite T2, T1. reflexivity. }
    split; [|split].
    + unfold confirmed_falls. rewrite E. reflexivity.
    + rewrite E. reflexivity.
    + exact F4.
  - intros w d0 a0 mid d a rec Hf Ha0 Hmid Hgap Ha Hrec dip w'.
    unfold w', dip.
    rewrite polls_app.
    change (polls ((d0, a0) :: mid) w) with (polls mid (poll d0 a0 w)).
    destruct (poll_start d0 a0 w Hf Ha0) as (F1 & S1 & T1).
    set (w1 := poll d0 a0 w) in *.
    destruct (polls_waiting mid w1 (now w1) F1 S1 (Z.le_refl _) Hmid)
      as (G2 & T2 & N2).
    { lia. }
    set (w2 := polls mid w1) in *.
    change (polls ((d, a) :: rec) w2) with (polls rec (poll d a w2)).
    assert (H3 : isFalling (poll d a w2) = false /\
                 trace (poll d a w2)
                 = Log (ms_now (elapse d w2))
                       (LogFallEnded (u32 (micros (elapse d w2)
                                           - fallStartTime (elapse d w2))))
                     :: trace w2).
    { assert (Fe : isFalling (elapse d w2) = true).
      { unfold isFalling. change (g (elapse d w2)) with (g w2).
        rewrite G2. exact F1. }
      unfold poll. rewrite (checkFallDetection_recover a _ Ha), Fe.
      split; reflexivity. }
    destruct H3 as (F3 & T3).
    destruct (polls_recovered rec (poll d a w2) F3 Hrec) as (F4 & T4).
    assert (E : trace (polls rec (poll d a w2))
                = Log (ms_now (elapse d w2))
                      (LogFallEnded (u32 (micros (elapse d w2)
                                          - fallStartTime (elapse d w2))))
                    :: Log (ms_now w1) LogFallDetected :: trace w).
    { rewrite T4, T3, T2, T1. reflexivity. }
    split; [|split].
    + unfold confirmed_falls. rewrite E. reflexivity.
    + rewrite E. reflexivity.
    + exact F4.
Qed.

Lemma C5_fall_duration_boundary_witness :
  let w := setup true (power_on unsetAddress []) in
  let exact_dip :=
    [(0%N, (2 # 10)%Q); (100000%N, (2 # 10)%Q); (200000%N, (3 # 10)%Q);
     (5000%N, 1%Q)] in
  let short_dip :=
    [(0%N, (2 # 10)%Q); (100000%N, (2 # 10)%Q); (199000%N, (1 # 10)%Q);
     (1000%N, 1%Q)] in
  isFalling w = false /\
  (confirmed_falls (polls exact_dip w) = 1%nat /\
   List.length (published "falling" (trace (polls exact_dip w))) = 1%nat /\
   isFalling (polls exact_dip w) = false) /\
  (confirmed_falls (polls short_dip w) = 0%nat /\
   published "falling" (trace (polls short_dip w)) = [] /\
   isFalling (polls short_dip w) = false).
Proof.
  intros w exact_dip short_dip.
  assert (Hidle : isFalling w = false) by reflexivity.
  assert (B1 : below (1 # 10)) by (vm_compute; reflexivity).
  assert (B2 : below (2 # 10)) by (vm_compute; reflexivity).
  assert (B3 : below (3 # 10)) by (vm_compute; reflexivity).
  assert (R1 : ~ below 1) by (intros H; vm_compute in H; discriminate H).
  split; [exact Hidle|]. split.
  - apply (proj1 C5_fall_duration_boundary w 0%N (2 # 10)%Q
             [(100000%N, (2 # 10)%Q)] (3 # 10)%Q [(5000%N, 1%Q)]).
    + exact Hidle.
    + exact B2.
    + repeat (constructor; try assumption).
    + reflexivity.
    + exact B3.
    + repeat (constructor; try assumption).
  - apply (proj2 C5_fall_duration_boundary w 0%N (2 # 10)%Q
             [(100000%N, (2 # 10)%Q); (199000%N, (1 # 10)%Q)] 1000%N 1%Q []).
    + exact Hidle.
    + exact B2.
    + repeat (constructor; try assumption).
    + reflexivity.
    + exact R1.
    + constructor.
Defined.

(** ** Presence *)

Lemma checkDeviceStateChanged_label (w : World) :
  present (snd (checkDeviceStateChanged w))
  = if u32 (lastSeen w + DEVICE_NOT_HERE_MS) <? millis w then NotHere
    else if lastSeen w =? 0 then PresenceUnknown
    else Here.
Proof.
  unfold checkDeviceStateChanged.
  destruct (u32 (lastSeen w + DEVICE_NOT_HERE_MS) <? millis w);
    [|destruct (lastSeen w =? 0)];
    destruct (present w) eqn:E; cbn [presence_eqb negb snd];
    solve [reflexivity | exact E].
Qed.

(** The flag is raised exactly when the label changes. *)
Lemma checkDeviceStateChanged_flag (w : World) :
  fst (checkDeviceStateChanged w) = true
  <-> present (snd (checkDeviceStateChanged w)) <> present w.
Proof.
  unfold checkDeviceStateChanged.
  destruct (u32 (lastSeen w + DEVICE_NOT_HERE_MS) <? millis w);
    [|destruct (lastSeen w =? 0)];
    destruct (present w) eqn:E; cbn [presence_eqb negb fst snd];
    split; intros H; try congruence; try discriminate;
    try (exfalso; apply H; exact E).
Qed.

(** C2, as the code has it. While no contact has been recorded (the
    last-contact timestamp is the sentinel 0) and the 32-bit millisecond
    clock has not wrapped (the node has been up for less than 2^32 ms), a
    poll taken at most DEVICE_NOT_HERE_MS (30 000 ms) after start-up leaves
    the presence label Unknown, and a poll taken later than that makes it
    NotHere. *)
Theorem C2_presence_before_first_contact (w : World) :
  lastSeen w = 0 -> 0 <= ms_now w < 2 ^ 32 ->
  (ms_now w <= DEVICE_NOT_HERE_MS ->
   present (snd (checkDeviceStateChanged w)) = PresenceUnknown) /\
  (DEVICE_NOT_HERE_MS < ms_now w ->
   present (snd (checkDeviceStateChanged w)) = NotHere).
Proof.
  intros Hs Hr. rewrite checkDeviceStateChanged_label, Hs.
  change (u32 (0 + DEVICE_NOT_HERE_MS)) with DEVICE_NOT_HERE_MS.
  unfold millis. rewrite (u32_small (ms_now w)) by exact Hr.
  split; intros H.
  - apply Z.ltb_ge in H. rewrite H. reflexivity.
  - apply Z.ltb_lt in H. rewrite H. reflexivity.
Qed.

Lemma C2_presence_before_first_contact_witness :
  let w := until 30000 (setup false (power_on unsetAddress [])) in
  let w' := until 4000000000 w in
  (lastSeen w = 0 /\ 0 <= ms_now w < 2 ^ 32 /\
   ms_now w <= DEVICE_NOT_HERE_MS /\
   present (snd (checkDeviceStateChanged w)) = PresenceUnknown) /\
  (lastSeen w' = 0 /\ 0 <= ms_now w' < 2 ^ 32 /\
   DEVICE_NOT_HERE_MS < ms_now w' /\
   present (snd (checkDeviceStateChanged w')) = NotHere).
Proof.
  intros w w'.
  assert (H0 : lastSeen w = 0) by reflexivity.
  assert (H1 : 0 <= ms_now w < 2 ^ 32) by (vm_compute; split; congruence).
  assert (H2 : ms_now w <= DEVICE_NOT_HERE_MS) by (vm_compute; congruence).
  assert (H3 : lastSeen w' = 0) by reflexivity.
  assert (H4 : 0 <= ms_now w' < 2 ^ 32) by (vm_compute; split; congruence).
  assert (H5 : DEVICE_NOT_HERE_MS < ms_now w') by (vm_compute; reflexivity).
  split.
  - split; [exact H0|]. split; [exact H1|]. split; [exact H2|].
    exact (proj1 (C2_presence_before_first_contact w H0 H1) H2).
  - split; [exact H3|]. split; [exact H4|]. split; [exact H5|].
    exact (proj2 (C2_presence_before_first_contact w' H3 H4) H5).
Defined.

(** C2 as specified fails: with no contact ever recorded and no
    tracked identity saved, the poll at 30 001 ms turns Unknown into NotHere
    and raises the changed flag. *)
Lemma C2_unknown_counterexample :
  let w := until 30001 (setup false (power_on unsetAddress [])) in
  lastSeen w = 0 /\ present w = PresenceUnknown /\
  searchAddress w = unsetAddress /\
  fst (checkDeviceStateChanged w) = true /\
  present (snd (checkDeviceStateChanged w)) = NotHere.
Proof. vm_compute. repeat split. Qed.

(** C8, as the code has it. At a poll where a contact has been recorded,
    the timestamp plus the timeout still fits 32 bits and the clock has not
    wrapped since the contact, the label becomes NotHere exactly when more
    than NOT_HERE_TIMEOUT (30 000 ms) has gone by since the contact, and Here
    exactly when at most that much has; and at every poll the changed flag is
    true exactly when the label changes. *)
Theorem C8_presence_after_contact :
  (forall w,
     lastSeen w <> 0 -> 0 <= lastSeen w ->
     lastSeen w + DEVICE_NOT_HERE_MS < 2 ^ 32 -> lastSeen w <= millis w ->
     (present (snd (checkDeviceStateChanged w)) = NotHere
      <-> DEVICE_NOT_HERE_MS < millis w - lastSeen w) /\
     (present (snd (checkDeviceStateChanged w)) = Here
      <-> millis w - lastSeen w <= DEVICE_NOT_HERE_MS)) /\
  (forall w,
     fst (checkDeviceStateChanged w) = true
     <-> present (snd (checkDeviceStateChanged w)) <> present w).
Proof.
  split; [|exact checkDeviceStateChanged_flag].
  intros w Hs H0 Hov Hle. rewrite checkDeviceStateChanged_label.
  unfold DEVICE_NOT_HERE_MS in *.
  rewrite u32_small by lia.
  apply Z.eqb_neq in Hs. rewrite Hs.
  destruct (lastSeen w + 30000 <? millis w) eqn:E.
  - apply Z.ltb_lt in E. split; split; intros H; try reflexivity; try lia.
    discriminate H.
  - apply Z.ltb_ge in E. split; split; intros H; try reflexivity; try lia.
    discriminate H.
Qed.

Lemma C8_presence_after_contact_witness :
  let w := set_lastSeen 8000 (until 38001 (setup false (power_on 0x112233445566 []))) in
  lastSeen w <> 0 /\ 0 <= lastSeen w /\
  lastSeen w + DEVICE_NOT_HERE_MS < 2 ^ 32 /\ lastSeen w <= millis w /\
  DEVICE_NOT_HERE_MS < millis w - lastSeen w /\
  present (snd (checkDeviceStateChanged w)) = NotHere.
Proof.
  intros w.
  assert (H1 : lastSeen w <> 0) by (vm_compute; congruence).
  assert (H2 : 0 <= lastSeen w) by (vm_compute; congruence).
  assert (H3 : lastSeen w + DEVICE_NOT_HERE_MS < 2 ^ 32) by (vm_compute; reflexivity).
  assert (H4 : lastSeen w <= millis w) by (vm_compute; congruence).
  assert (H5 : DEVICE_NOT_HERE_MS < millis w - lastSeen w) by (vm_compute; reflexivity).
  repeat (split; [assumption|]).
  exact (proj2 (proj1 (proj1 C8_presence_after_contact w H1 H2 H3 H4)) H5).
Defined.

(** C8 as specified fails at the boundary: the tracked device is
    seen at 8000 ms (the label becomes Here); at the poll at 38 000 ms, exactly
    NOT_HERE_TIMEOUT later with no contact in between, the label is still
    Here and the flag is not raised; it turns NotHere one millisecond later. *)
Lemma C8_timeout_boundary_counterexample :
  let tracked := 0x112233445566 in
  let seen := mkLoopInput 1 16384 (3653 # 100)
                [(0%N, mkScanResult tracked (-60) "phone")] in
  let quiet := mkLoopInput 1 16384 (3653 # 100) [] in
  let w := until 38000
             (run [AUntil 8000; ALoop seen]
                  (setup false (power_on tracked []))) in
  lastSeen w = 8000 /\ present w = Here /\
  millis w - lastSeen w = DEVICE_NOT_HERE_MS /\
  fst (checkDeviceStateChanged w) = false /\
  present (snd (checkDeviceStateChanged w)) = Here /\
  present (snd (checkDeviceStateChanged (until 38001 w))) = NotHere.
Proof. vm_compute. repeat split. Qed.

(** ** Orientation *)

(** On every 16-bit reading the two comparisons come out the same against
    the decimal thresholds and against the binary64 numbers the compiled
    code compares with, so the decimal thresholds model the source exactly. *)
Lemma thresholds_exact_on_samples (az : Z) :
  -32768 <= az <= 32767 ->
  Qlt_bool STANDING_Z_MIN_binary64 (to_g az) = Qlt_bool STANDING_Z_MIN (to_g az) /\
  Qlt_bool (Qabs (to_g az)) LYING_Z_MAX_binary64
    = Qlt_bool (Qabs (to_g az)) LYING_Z_MAX.
Proof.
  intros Hr. unfold Qlt_bool, Qle_bool, to_g, Qabs, STANDING_Z_MIN,
    LYING_Z_MAX, STANDING_Z_MIN_binary64, LYING_Z_MAX_binary64, LSB_PER_G.
  cbn [Qnum Qden]. split; f_equal.
  - destruct (Z.leb_spec (az * Z.pos 4503599627370496) (3152519739159347 * Z.pos 16384));
      destruct (Z.leb_spec (az * Z.pos 10) (7 * Z.pos 16384));
      try reflexivity; lia.
  - destruct (Z.leb_spec (3602879701896397 * Z.pos 16384) (Z.abs az * Z.pos 9007199254740992));
      destruct (Z.leb_spec (4 * Z.pos 16384) (Z.abs az * Z.pos 10));
      try reflexivity; lia.
Qed.

Lemma classifyOrientation_band (az_g : Q) (current : string) :
  (az_g <= STANDING_Z_MIN)%Q -> (LYING_Z_MAX <= Qabs az_g)%Q ->
  classifyOrientation az_g current = current.
Proof.
  intros H1 H2. unfold classifyOrientation.
  apply Qlt_bool_false in H1. apply Qlt_bool_false in H2.
  rewrite H1, H2. reflexivity.
Qed.

Lemma checkOrientation_label (az : Z) (w : World) :
  currentOrientation (checkOrientation az w)
  = classifyOrientation (to_g az) (currentOrientation w).
Proof.
  unfold checkOrientation. cbv zeta.
  match goal with |- context [if ?c then _ else _] => destruct c end;
    reflexivity.
Qed.

Lemma checkOrientation_trace (az : Z) (w : World) :
  lastOrientation w = currentOrientation w ->
  let label := classifyOrientation (to_g az) (currentOrientation w) in
  trace (checkOrientation az w)
  = if (label =? currentOrientation w)%string then trace w
    else Log (ms_now w) (LogOrientationChanged label) :: trace w.
Proof.
  intros Hs label. unfold checkOrientation. cbv zeta. fold label.
  set (w1 := set_currentOrientation label w).
  assert (E1 : currentOrientation w1 = label) by reflexivity.
  assert (E2 : lastOrientation w1 = currentOrientation w) by exact Hs.
  rewrite E1, E2.
  destruct (label =? currentOrientation w)%string; reflexivity.
Qed.

(** C6. A sample whose reading in g is not greater than 0.7 and whose
    absolute value is not less than 0.4 leaves the orientation label as it
    was. And for any sample, taken in a state where the two orientation
    variables agree (as they do in every state the node reaches), the
    change is logged when the new label differs from the previous one, and
    nothing is logged when it does not. *)
Theorem C6_orientation_hysteresis :
  (forall az w,
     (to_g az <= STANDING_Z_MIN)%Q -> (LYING_Z_MAX <= Qabs (to_g az))%Q ->
     currentOrientation (checkOrientation az w) = currentOrientation w /\
     (lastOrientation w = currentOrientation w ->
      trace (checkOrientation az w) = trace w)) /\
  (forall az w,
     lastOrientation w = currentOrientation w ->
     let w' := checkOrientation az w in
     (currentOrientation w' <> currentOrientation w ->
      trace w' = Log (ms_now w) (LogOrientationChanged (currentOrientation w'))
                   :: trace w) /\
     (currentOrientation w' = currentOrientation w -> trace w' = trace w)) /\
  (forall saved lat mpu_ack acts,
     let w := run acts (setup mpu_ack (power_on saved lat)) in
     lastOrientation w = currentOrientation w).
Proof.
  split; [|split].
  - intros az w H1 H2.
    pose proof (classifyOrientation_band _ (currentOrientation w) H1 H2) as Hc.
    split.
    + rewrite checkOrientation_label. exact Hc.
    + intros Hs. rewrite (checkOrientation_trace az w Hs). cbv zeta.
      rewrite Hc, String.eqb_refl. reflexivity.
  - intros az w Hs w'. unfold w'.
    rewrite checkOrientation_label, (checkOrientation_trace az w Hs).
    cbv zeta.
    destruct (String.eqb_spec (classifyOrientation (to_g az) (currentOrientation w))
                              (currentOrientation w)) as [E | E].
    + split; [intros H; contradiction | reflexivity].
    + split; [reflexivity | intros H; contradiction].
  - intros saved lat mpu_ack acts w.
    pose proof (Adv_setup mpu_ack (power_on saved lat)) as (_ & _ & _ & O1).
    pose proof (Adv_run acts (setup mpu_ack (power_on saved lat)))
      as (_ & _ & _ & O2).
    apply O2, O1. reflexivity.
Qed.

Lemma C6_orientation_hysteresis_witness :
  let w := run [ALoop (mkLoopInput 1 16384 (3653 # 100) [])]
               (setup true (power_on unsetAddress [])) in
  (to_g 9000 <= STANDING_Z_MIN)%Q /\ (LYING_Z_MAX <= Qabs (to_g 9000))%Q /\
  lastOrientation w = currentOrientation w /\
  currentOrientation w = standing /\
  currentOrientation (checkOrientation 9000 w) = currentOrientation w /\
  trace (checkOrientation 9000 w) = trace w.
Proof.
  intros w.
  assert (H1 : (to_g 9000 <= STANDING_Z_MIN)%Q) by (vm_compute; congruence).
  assert (H2 : (LYING_Z_MAX <= Qabs (to_g 9000))%Q) by (vm_compute; congruence).
  assert (H3 : lastOrientation w = currentOrientation w) by reflexivity.
  assert (H4 : currentOrientation w = standing) by reflexivity.
  split; [exact H1|]. split; [exact H2|]. split; [exact H3|].
  split; [exact H4|].
  destruct (proj1 C6_orientation_hysteresis 9000 w H1 H2) as (Ha & Hb).
  split; [exact Ha | exact (Hb H3)].
Defined.

(** ** The department classifier *)

Lemma departmentContact_emit (d : string) (r : BleScanResult) (w : World) :
  contact_emits d w = true ->
  let w' := departmentContact d r w in
  (exists stamp t,
     published "department" (trace w')
       = (PDepartment d (rssi r) stamp, t) :: published "department" (trace w)) /\
  lastPublishedDept w' = d /\ currentDepartment w' = d /\
  lastDeptSeen w' = millis w'.
Proof.
  intros He w'. unfold w', departmentContact. cbv zeta.
  set (w1 := set_currentDepartment d (log (LogDetectedDepartment d (rssi r)) w)).
  assert (E : negb (currentDepartment w1 =? lastPublishedDept w1)%string
              || (60000 <? u32 (millis w1 - lastDeptSeen w1)) = true)
    by exact He.
  rewrite E.
  destruct (publishDepartment_shape (currentDepartment w1) (rssi r) w1)
    as (stamp & t & t' & Ht & K & _).
  destruct (kept_fields _ _ K)
    as (_ & _ & _ & _ & _ & _ & Ec & _).
  change (currentDepartment w1) with d in *.
  change (trace w1) with (Log (ms_now w) (LogDetectedDepartment d (rssi r)) :: trace w) in Ht.
  clear K. revert Ht Ec.
  generalize (publishDepartment d (rssi r) w1). intros w2 Ht Ec.
  rewrite Ec.
  split; [|split; [|split]].
  - exists stamp, t.
    change (trace (set_lastDeptSeen (millis (set_lastPublishedDept d w2))
                     (set_lastPublishedDept d w2)))
      with (trace w2).
    rewrite Ht. reflexivity.
  - reflexivity.
  - exact Ec.
  - reflexivity.
Qed.

Lemma departmentContact_skip (d : string) (r : BleScanResult) (w : World) :
  contact_emits d w = false ->
  departmentContact d r w
  = set_lastDeptSeen (millis w)
      (set_currentDepartment d (log (LogDetectedDepartment d (rssi r)) w)).
Proof.
  intros He. unfold departmentContact. cbv zeta.
  set (w1 := set_currentDepartment d (log (LogDetectedDepartment d (rssi r)) w)).
  assert (E : negb (currentDepartment w1 =? lastPublishedDept w1)%string
              || (60000 <? u32 (millis w1 - lastDeptSeen w1)) = false)
    by exact He.
  rewrite E. reflexivity.
Qed.

Lemma contact_emits_iff (d : string) (w : World) :
  contact_emits d w = true
  <-> d <> lastPublishedDept w \/ 60000 < u32 (millis w - lastDeptSeen w).
Proof.
  unfold contact_emits. rewrite orb_true_iff, negb_true_iff, Z.ltb_lt.
  destruct (String.eqb_spec d (lastPublishedDept w)) as [E | E];
    split; intros [H | H]; auto; try discriminate; contradiction.
Qed.

Lemma scanResultCallback_department (r : BleScanResult) (w : World) (zone : string) :
  zone_of (address r) = Some zone ->
  scanResultCallback r w = (departmentContact zone r w, true).
Proof.
  unfold zone_of, scanResultCallback. cbv zeta.
  destruct (address r =? arg1Address).
  - intros H. injection H as <-. reflexivity.
  - destruct (address r =? arg2Address); [|discriminate].
    intros H. injection H as <-. reflexivity.
Qed.

(** In one zone, with the beacon seen again no more than 60 s after it was
    last seen, nothing is published. *)
Lemma contacts_dwell (found : list (N * BleScanResult)) (w : World) (zone : string) :
  Forall (fun s => zone_of (address (snd s)) = Some zone /\
                   Z.of_N (fst s) <= 60000000) found ->
  lastPublishedDept w = zone -> lastDeptSeen w = millis w ->
  published "department" (trace (contacts found w))
  = published "department" (trace w).
Proof.
  revert w. induction found as [|[d r] rest IH]; intros w Hall Hz Hs.
  - reflexivity.
  - inversion Hall as [|? ? [Hzone Hgap] Hrest]; subst. cbn [fst snd] in *.
    change (contacts ((d, r) :: rest) w)
      with (contacts rest (fst (scanResultCallback r (elapse d w)))).
    rewrite (scanResultCallback_department r (elapse d w) _ Hzone). cbn [fst].
    assert (He : contact_emits (lastPublishedDept w) (elapse d w) = false).
    { unfold contact_emits.
      change (lastPublishedDept (elapse d w)) with (lastPublishedDept w).
      change (lastDeptSeen (elapse d w)) with (lastDeptSeen w).
      rewrite String.eqb_refl, Hs. cbn [negb orb].
      apply Z.ltb_ge. unfold millis. rewrite u32_sub.
      assert (Hm : 0 <= ms_now (elapse d w) - ms_now w <= 60000).
      { unfold ms_now. change (now (elapse d w)) with (now w + Z.of_N d).
        Z.div_mod_to_equations. lia. }
      rewrite u32_small; lia. }
    rewrite (departmentContact_skip _ r _ He).
    rewrite IH; [reflexivity | exact Hrest | reflexivity | reflexivity].
Qed.




(** ** The command function *)

Lemma setStatusFunction_dispatch (command : string) (w : World) :
  setStatusFunction command w = dispatch (toLowerCase (trim command)) w.
Proof.
  unfold setStatusFunction, dispatch. cbv zeta.
  generalize (toLowerCase (trim command)). intro. reflexivity.
Qed.

Lemma dispatch_unknown (cmd : string) (w : World) :
  ~ In cmd known_commands -> dispatch cmd w = (-1, log LogInvalidCommand w).
Proof.
  intros Hn. unfold dispatch.
  repeat match goal with
         | |- context [String.eqb cmd ?lit] =>
             destruct (String.eqb_spec cmd lit) as [E | _];
             [exfalso; apply Hn; rewrite E; cbn; tauto|]
         end.
  reflexivity.
Qed.

Lemma manual_department (d : string) (w : World) (m : logmsg) :
  let w1 := set_currentDepartment d (log m w) in
  let w2 := publishDepartment (currentDepartment w1) 0 w1 in
  let w' := set_lastPublishedDept (currentDepartment w2) w2 in
  (exists stamp t,
     published "department" (trace w')
     = (PDepartment d 0 stamp, t) :: published "department" (trace w)) /\
  currentDepartment w' = d /\ lastPublishedDept w' = d.
Proof.
  intros w1 w2 w'.
  destruct (publishDepartment_shape (currentDepartment w1) 0 w1)
    as (stamp & t & t' & Ht & K & _).
  fold w2 in Ht, K.
  destruct (kept_fields _ _ K) as (_ & _ & _ & _ & _ & _ & Ec & _).
  change (currentDepartment w1) with d in *.
  split; [|split].
  - exists stamp, t. change (trace w') with (trace w2). rewrite Ht. reflexivity.
  - exact Ec.
  - exact Ec.
Qed.

(** C9. The function matches on cmd, the command trimmed and lowered. It
    returns 1 for true, 1 and on and sets the location-push flag; 0 for
    false, 0 and off and clears it; 2 for fall, publishing one falling event;
    3 for arg1 and 4 for arg2, publishing one department event for the
    pediatric, respectively cardiac, department with rssi 0; 5 for info,
    publishing one periodic-status event; and -1 for every other cmd, in
    which case no global, pin or EEPROM cell changes, no time passes and
    nothing is published. The ten commands as literally written get the codes
    1, 1, 1, 0, 0, 0, 2, 3, 4, 5. *)
Theorem C9_command_codes (command : string) (w : World) :
  let cmd := toLowerCase (trim command) in
  let code := fst (setStatusFunction command w) in
  let w' := snd (setStatusFunction command w) in
  (In cmd ["true"; "1"; "on"] -> code = 1 /\ statuss w' = true) /\
  (In cmd ["false"; "0"; "off"] -> code = 0 /\ statuss w' = false) /\
  (cmd = "fall" ->
   code = 2 /\
   exists t, published "falling" (trace w')
             = (fallData w, t) :: published "falling" (trace w)) /\
  (cmd = "arg1" ->
   code = 3 /\
   (exists stamp t,
      published "department" (trace w')
      = (PDepartment pediatric 0 stamp, t)
          :: published "department" (trace w)) /\
   currentDepartment w' = pediatric /\ lastPublishedDept w' = pediatric) /\
  (cmd = "arg2" ->
   code = 4 /\
   (exists stamp t,
      published "department" (trace w')
      = (PDepartment cardiac 0 stamp, t)
          :: published "department" (trace w)) /\
   currentDepartment w' = cardiac /\ lastPublishedDept w' = cardiac) /\
  (cmd = "info" ->
   code = 5 /\
   exists stamp t,
     published "periodic_status" (trace w')
     = (PPeriodic (currentOrientation w) (currentDepartment w)
                  (currentTemperature w) stamp, t)
         :: published "periodic_status" (trace w)) /\
  (~ In cmd known_commands ->
   code = -1 /\ g w' = g w /\ pinD7 w' = pinD7 w /\ eeprom w' = eeprom w /\
   now w' = now w /\ publish_times (trace w') = publish_times (trace w)) /\
  map (fun c => fst (setStatusFunction c w)) known_commands
  = [1; 1; 1; 0; 0; 0; 2; 3; 4; 5].
Proof.
  intros cmd code w'. unfold code, w'.
  split; [|split; [|split; [|split; [|split; [|split; [|split]]]]]];
    [..|generalize w; intro; reflexivity];
    rewrite setStatusFunction_dispatch; fold cmd; clearbody cmd.
  - intros [<- | [<- | [<- | []]]]; split; reflexivity.
  - intros [<- | [<- | [<- | []]]]; split; reflexivity.
  - intros ->. split; [reflexivity|].
    change (snd (dispatch "fall" w))
      with (publishFallAlert (log (LogManual "fall") w)).
    destruct (publishFallAlert_shape (log (LogManual "fall") w))
      as (t & t' & Ht & _).
    exists t. rewrite Ht. reflexivity.
  - intros ->. split; [reflexivity|].
    exact (manual_department pediatric w (LogManual "arg1")).
  - intros ->. split; [reflexivity|].
    exact (manual_department cardiac w (LogManual "arg2")).
  - intros ->. split; [reflexivity|].
    change (snd (dispatch "info" w))
      with (publishPeriodicStatus (log (LogManual "info") w)).
    destruct (publishPeriodicStatus_shape (log (LogManual "info") w))
      as (stamp & t & t' & Ht & _).
    exists stamp, t. rewrite Ht. reflexivity.
  - intros Hn. rewrite (dispatch_unknown cmd w Hn). repeat split.
Qed.

Lemma C9_command_codes_witness :
  let w := setup false (power_on unsetAddress []) in
  (In (toLowerCase (trim "on")) ["true"; "1"; "on"] /\
   fst (setStatusFunction "on" w) = 1 /\
   statuss (snd (setStatusFunction "on" w)) = true) /\
  (toLowerCase (trim "arg1") = "arg1" /\
   fst (setStatusFunction "arg1" w) = 3) /\
  (~ In (toLowerCase (trim "status?")) known_commands /\
   fst (setStatusFunction "status?" w) = -1 /\
   g (snd (setStatusFunction "status?" w)) = g w).
Proof.
  intros w.
  assert (H1 : In (toLowerCase (trim "on")) ["true"; "1"; "on"])
    by (cbn; tauto).
  assert (H2 : toLowerCase (trim "arg1") = "arg1") by reflexivity.
  assert (H3 : ~ In (toLowerCase (trim "status?")) known_commands).
  { cbn. intros H. repeat destruct H as [H | H]; try discriminate H. exact H. }
  split; [|split].
  - split; [exact H1|].
    exact (proj1 (C9_command_codes "on" w) H1).
  - split; [exact H2|].
    exact (proj1 (proj1 (proj2 (proj2 (proj2 (C9_command_codes "arg1" w)))) H2)).
  - split; [exact H3|].
    destruct (proj1 (proj2 (proj2 (proj2 (proj2 (proj2 (proj2
                (C9_command_codes "status?" w))))))) H3) as (Hc & Hg & _).
    split; assumption.
Defined.

(** ** Trimming and lowering *)

Lemma isspace_tolower (c : ascii) : isspace (tolower c) = isspace c.
Proof.
  destruct c as [[] [] [] [] [] [] [] []]; reflexivity.
Qed.

Lemma toLowerCase_trimLeft (s : string) :
  toLowerCase (trimLeft s) = trimLeft (toLowerCase s).
Proof.
  induction s as [|c rest IH]; [reflexivity|].
  cbn [trimLeft toLowerCase]. rewrite isspace_tolower.
  destruct (isspace c); [exact IH | reflexivity].
Qed.

Lemma toLowerCase_trimRight (s : string) :
  toLowerCase (trimRight s) = trimRight (toLowerCase s).
Proof.
  induction s as [|c rest IH]; [reflexivity|].
  cbn [trimRight toLowerCase]. rewrite <- IH, isspace_tolower.
  destruct (trimRight rest) as [|c' kept']; cbn [toLowerCase].
  - destruct (isspace c); reflexivity.
  - reflexivity.
Qed.

Lemma toLowerCase_trim (s : string) :
  toLowerCase (trim s) = trim (toLowerCase s).
Proof.
  unfold trim. rewrite toLowerCase_trimRight, toLowerCase_trimLeft. reflexivity.
Qed.

Lemma trimLeft_all_space (s : string) :
  all_space s = true -> trimLeft s = EmptyString.
Proof.
  induction s as [|c rest IH]; [reflexivity|].
  cbn [all_space trimLeft]. intros H. apply andb_true_iff in H as [Hc Hr].
  rewrite Hc. exact (IH Hr).
Qed.

Lemma trimRight_all_space (s : string) :
  all_space s = true -> trimRight s = EmptyString.
Proof.
  induction s as [|c rest IH]; [reflexivity|].
  cbn [all_space trimRight]. intros H. apply andb_true_iff in H as [Hc Hr].
  rewrite (IH Hr), Hc. reflexivity.
Qed.

Lemma trimLeft_app_space (pre s : string) :
  all_space pre = true -> trimLeft (pre ++ s) = trimLeft s.
Proof.
  induction pre as [|c rest IH]; [reflexivity|].
  cbn [all_space String.append trimLeft]. intros H.
  apply andb_true_iff in H as [Hc Hr]. rewrite Hc. exact (IH Hr).
Qed.

Lemma trimRight_app_space (s post : string) :
  all_space post = true -> trimRight (s ++ post) = trimRight s.
Proof.
  intros Hp. induction s as [|c rest IH].
  - cbn [String.append]. rewrite (trimRight_all_space post Hp). reflexivity.
  - cbn [String.append trimRight]. rewrite IH. reflexivity.
Qed.

Lemma trim_app_space_right (s post : string) :
  all_space post = true -> trim (s ++ post) = trim s.
Proof.
  intros Hp. unfold trim. induction s as [|c rest IH].
  - cbn [String.append]. rewrite (trimLeft_all_space post Hp). reflexivity.
  - cbn [String.append trimLeft]. destruct (isspace c).
    + exact IH.
    + exact (trimRight_app_space (String c rest) post Hp).
Qed.

Lemma trim_padding (pre s post : string) :
  all_space pre = true -> all_space post = true ->
  trim (pre ++ s ++ post) = trim s.
Proof.
  intros Hpre Hpost. unfold trim at 1.
  rewrite (trimLeft_app_space pre (s ++ post) Hpre).
  exact (trim_app_space_right s post Hpost).
Qed.

Lemma tolower_idem (c : ascii) : tolower (tolower c) = tolower c.
Proof.
  destruct c as [[] [] [] [] [] [] [] []]; reflexivity.
Qed.

Lemma toLowerCase_idem (s : string) :
  toLowerCase (toLowerCase s) = toLowerCase s.
Proof.
  induction s as [|c rest IH]; [reflexivity|].
  cbn [toLowerCase]. rewrite tolower_idem, IH. reflexivity.
Qed.

Lemma trimRight_idem (s : string) : trimRight (trimRight s) = trimRight s.
Proof.
  induction s as [|c rest IH]; [reflexivity|].
  cbn [trimRight]. destruct (trimRight rest) as [|c' kept'] eqn:E.
  - destruct (isspace c) eqn:Ec; [reflexivity|].
    cbn [trimRight]. rewrite Ec. reflexivity.
  - cbn [trimRight] in *. rewrite IH. reflexivity.
Qed.

(** A string that does not begin with white space still does not once its
    end is trimmed. *)
Lemma trimLeft_trimRight (s : string) :
  trimLeft s = s -> trimLeft (trimRight s) = trimRight s.
Proof.
  destruct s as [|c rest]; [reflexivity|].
  cbn [trimLeft]. destruct (isspace c) eqn:Ec.
  - intros H. exfalso.
    assert (L : forall x, (String.length (trimLeft x) <= String.length x)%nat).
    { induction x as [|c0 x IH]; [apply Nat.le_refl|].
      cbn [trimLeft]. destruct (isspace c0); cbn [String.length]; lia. }
    pose proof (L rest) as Hl. rewrite H in Hl. cbn [String.length] in Hl. lia.
  - intros _. cbn [trimRight].
    destruct (trimRight rest); rewrite ?Ec; cbn [trimLeft]; rewrite Ec;
      reflexivity.
Qed.

Lemma trimLeft_idem (s : string) : trimLeft (trimLeft s) = trimLeft s.
Proof.
  induction s as [|c rest IH]; [reflexivity|].
  cbn [trimLeft]. destruct (isspace c) eqn:Ec; [exact IH|].
  cbn [trimLeft]. rewrite Ec. reflexivity.
Qed.

Lemma trim_idem (s : string) : trim (trim s) = trim s.
Proof.
  unfold trim.
  rewrite (trimLeft_trimRight (trimLeft s) (trimLeft_idem s)).
  apply trimRight_idem.
Qed.

Lemma normal_form_idem (s : string) :
  toLowerCase (trim (toLowerCase (trim s))) = toLowerCase (trim s).
Proof.
  rewrite <- (toLowerCase_trim (trim s)), trim_idem. apply toLowerCase_idem.
Qed.

(** C10. The command function matches on the command with the white space
    at both ends removed and every letter lowered: handing it the command
    already trimmed and lowered gives the same code and the same effect;
    white space around a command makes no difference, neither does the case
    of its letters; ' ON ', 'On' and 'on' all set the location-push flag and
    return 1. *)
Theorem C10_command_normalization :
  (forall command w,
     setStatusFunction (toLowerCase (trim command)) w
     = setStatusFunction command w) /\
  (forall pre command post w,
     all_space pre = true -> all_space post = true ->
     setStatusFunction (pre ++ command ++ post) w = setStatusFunction command w) /\
  (forall command command' w,
     toLowerCase command = toLowerCase command' ->
     setStatusFunction command w = setStatusFunction command' w) /\
  (forall w,
     setStatusFunction " ON " w = setStatusFunction "on" w /\
     setStatusFunction "On" w = setStatusFunction "on" w /\
     fst (setStatusFunction "on" w) = 1 /\
     statuss (snd (setStatusFunction "on" w)) = true).
Proof.
  split; [|split; [|split]].
  - intros command w.
    rewrite !setStatusFunction_dispatch, normal_form_idem. reflexivity.
  - intros pre command post w Hpre Hpost.
    rewrite !setStatusFunction_dispatch, (trim_padding pre command post Hpre Hpost).
    reflexivity.
  - intros command command' w H.
    rewrite !setStatusFunction_dispatch, !toLowerCase_trim, H. reflexivity.
  - intros w. rewrite !setStatusFunction_dispatch. repeat split.
Qed.

Lemma C10_command_normalization_witness :
  let w := setup false (power_on unsetAddress []) in
  all_space "  " = true /\ all_space (String "009" (String "010" "")) = true /\
  toLowerCase "FaLL" = toLowerCase "fall" /\
  setStatusFunction ("  " ++ "info" ++ String "009" (String "010" "")) w
  = setStatusFunction "info" w /\
  setStatusFunction "FaLL" w = setStatusFunction "fall" w.
Proof.
  intros w.
  assert (H1 : all_space "  " = true) by reflexivity.
  assert (H2 : all_space (String "009" (String "010" "")) = true) by reflexivity.
  assert (H3 : toLowerCase "FaLL" = toLowerCase "fall") by reflexivity.
  split; [exact H1|]. split; [exact H2|]. split; [exact H3|]. split.
  - exact (proj1 (proj2 C10_command_normalization) "  " "info"
             (String "009" (String "010" "")) w H1 H2).
  - exact (proj1 (proj2 (proj2 C10_command_normalization)) "FaLL" "fall" w H3).
Defined.

(** * Further properties of the code *)

(** ** The register pairs of the sensor *)

Lemma lor_shiftl_bytes (hi lo : Z) :
  0 <= lo < 256 -> Z.lor (Z.shiftl hi 8) lo = 256 * hi + lo.
Proof.
  intros Hlo.
  rewrite Z.shiftl_mul_pow2 by lia. change (2 ^ 8) with 256.
  rewrite <- Z.lxor_lor.
  - rewrite <- Z.add_nocarry_lxor; [lia|].
    apply Z.bits_inj'. intros n Hn. rewrite Z.land_spec, Z.bits_0.
    destruct (Z.lt_ge_cases n 8) as [Hlt | Hge].
    + replace (hi * 256) with (hi * 2 ^ 8) by reflexivity.
      rewrite Z.mul_pow2_bits_low by lia. reflexivity.
    + rewrite (Z.bits_above_log2 lo n); [apply andb_false_r | lia |].
      destruct (Z.eq_dec lo 0) as [-> | Hnz]; [cbn; lia|].
      apply Z.log2_lt_pow2; [lia|].
      apply Z.lt_le_trans with (2 ^ 8); [cbn; lia|].
      apply Z.pow_le_mono_r; lia.
  - apply Z.bits_inj'. intros n Hn. rewrite Z.land_spec, Z.bits_0.
    destruct (Z.lt_ge_cases n 8) as [Hlt | Hge].
    + replace (hi * 256) with (hi * 2 ^ 8) by reflexivity.
      rewrite Z.mul_pow2_bits_low by lia. reflexivity.
    + rewrite (Z.bits_above_log2 lo n); [apply andb_false_r | lia |].
      destruct (Z.eq_dec lo 0) as [-> | Hnz]; [cbn; lia|].
      apply Z.log2_lt_pow2; [lia|].
      apply Z.lt_le_trans with (2 ^ 8); [cbn; lia|].
      apply Z.pow_le_mono_r; lia.
Qed.

Lemma readWord_decodes (hi lo : Z) (rest : list Z) :
  0 <= hi < 256 -> 0 <= lo < 256 ->
  readWord (hi :: lo :: rest)
  = ((if hi <? 128 then 256 * hi + lo else 256 * hi + lo - 65536), rest) /\
  -32768 <= fst (readWord (hi :: lo :: rest)) <= 32767.
Proof.
  intros Hhi Hlo. unfold readWord, Wire_read.
  rewrite (lor_shiftl_bytes hi lo Hlo). cbn [fst].
  unfold int16_t.
  destruct (Z.ltb_spec hi 128) as [H | H].
  - rewrite Z.mod_small by lia. split; [f_equal; lia | lia].
  - replace (256 * hi + lo + 32768)
      with (256 * hi + lo - 32768 + 1 * 65536) by lia.
    rewrite Z.mod_add by lia. rewrite Z.mod_small by lia.
    split; [f_equal; lia | lia].
Qed.

(** X1. Two bytes from the bus, high byte first, are read as the signed
    16-bit number they encode: 256 * hi + lo when the high byte is below 128,
    and that minus 65536 otherwise; the value always fits 16 bits. *)
Theorem X1_readWord_decodes (hi lo : Z) (rest : list Z) :
  0 <= hi < 256 -> 0 <= lo < 256 ->
  readWord (hi :: lo :: rest)
  = ((if hi <? 128 then 256 * hi + lo else 256 * hi + lo - 65536), rest) /\
  -32768 <= fst (readWord (hi :: lo :: rest)) <= 32767.
Proof. exact (readWord_decodes hi lo rest). Qed.

Lemma X1_readWord_decodes_witness :
  0 <= 0xC0 < 256 /\ 0 <= 0x00 < 256 /\
  readWord [0xC0; 0x00; 7] = (-16384, [7]).
Proof.
  assert (H1 : 0 <= 0xC0 < 256) by lia.
  assert (H2 : 0 <= 0x00 < 256) by lia.
  split; [exact H1|]. split; [exact H2|].
  exact (proj1 (X1_readWord_decodes 0xC0 0x00 [7] H1 H2)).
Defined.

(** X2. Round trip: every signed 16-bit value, sent by the sensor as its
    high and low byte, is read back as itself, and what follows on the bus is
    left for the next read. *)
Theorem X2_readWord_round_trip (v : Z) (rest : list Z) :
  -32768 <= v <= 32767 ->
  readWord (high_byte v :: low_byte v :: rest) = (v, rest).
Proof.
  intros Hv.
  assert (Hm : 0 <= v mod 65536 < 65536) by (apply Z.mod_pos_bound; lia).
  assert (Hh : 0 <= high_byte v < 256).
  { unfold high_byte. split; [apply Z.div_pos; lia|].
    apply Z.div_lt_upper_bound; lia. }
  assert (Hl : 0 <= low_byte v < 256)
    by (unfold low_byte; apply Z.mod_pos_bound; lia).
  rewrite (proj1 (readWord_decodes (high_byte v) (low_byte v) rest Hh Hl)).
  f_equal. clear Hh Hl.
  destruct (Z.ltb_spec (high_byte v) 128) as [H | H];
    unfold high_byte, low_byte in *; Z.div_mod_to_equations; lia.
Qed.

Lemma X2_readWord_round_trip_witness :
  -32768 <= -2 <= 32767 /\
  high_byte (-2) = 0xFF /\ low_byte (-2) = 0xFE /\
  readWord [0xFF; 0xFE] = (-2, []).
Proof.
  assert (H : -32768 <= -2 <= 32767) by lia.
  split; [exact H|]. split; [reflexivity|]. split; [reflexivity|].
  exact (X2_readWord_round_trip (-2) [] H).
Defined.

(** X3. When the sensor sends fewer than the six bytes asked for, the
    missing reads return -1 and the Z axis is read as -1; the orientation
    check then takes the wearer to be lying down, whatever the label was. *)
Theorem X3_short_read_lies_down (bus : list Z) (w : World) :
  (List.length bus < 6)%nat ->
  snd (readMPU6050 bus) = -1 /\
  currentOrientation (checkOrientation (snd (readMPU6050 bus)) w) = lying_down.
Proof.
  intros Hlen.
  assert (E : snd (readMPU6050 bus) = -1).
  { destruct bus as [|a [|b [|c [|d [|e [|f rest]]]]]];
      try (cbn [List.length] in Hlen; lia);
      unfold readMPU6050, readWord, Wire_read; cbn [snd];
      try rewrite Z.lor_m1_r; reflexivity. }
  split; [exact E|]. rewrite E, checkOrientation_label. reflexivity.
Qed.

Lemma X3_short_read_lies_down_witness :
  let w := set_currentOrientation standing (setup true (power_on unsetAddress [])) in
  (List.length [0x40; 0x00; 0x00] < 6)%nat /\
  readMPU6050 [0x40; 0x00; 0x00] = (16384, -1, -1) /\
  currentOrientation w = standing /\
  currentOrientation (checkOrientation (snd (readMPU6050 [0x40; 0x00; 0x00])) w)
  = lying_down.
Proof.
  intros w.
  assert (H : (List.length [0x40; 0x00; 0x00] < 6)%nat) by (cbn; lia).
  split; [exact H|]. split; [reflexivity|]. split; [reflexivity|].
  exact (proj2 (X3_short_read_lies_down [0x40; 0x00; 0x00] w H)).
Defined.

Lemma poll_recover (d : N) (a : Q) (w : World) :
  ~ below a ->
  isFalling (poll d a w) = false /\
  confirmations (trace (poll d a w)) = confirmations (trace w) /\
  publish_times (trace (poll d a w)) = publish_times (trace w).
Proof.
  intros Ha. unfold poll. rewrite (checkFallDetection_recover a _ Ha).
  change (isFalling (elapse d w)) with (isFalling w).
  destruct (isFalling w); repeat split.
Qed.

(** X4. While the magnitude is read at or above FALL_THRESHOLD, no fall is
    ever confirmed and nothing is published, whatever state the detector was
    in and however long it goes on; after the first such poll the detector is
    Idle. *)
Theorem X4_no_fall_above_threshold (samples : list (N * Q)) (w : World) :
  Forall (fun p => ~ below (snd p)) samples ->
  confirmed_falls (polls samples w) = confirmed_falls w /\
  publish_times (trace (polls samples w)) = publish_times (trace w) /\
  (samples <> [] -> isFalling (polls samples w) = false).
Proof.
  intros Hall. rewrite !confirmed_falls_length.
  assert (H : confirmations (trace (polls samples w)) = confirmations (trace w) /\
              publish_times (trace (polls samples w)) = publish_times (trace w) /\
              (samples <> [] -> isFalling (polls samples w) = false)).
  { revert w. induction Hall as [|[d a] rest Ha Hrest IH]; intros w.
    - repeat split. intros H. contradiction.
    - change (polls ((d, a) :: rest) w) with (polls rest (poll d a w)).
      cbn [snd] in Ha.
      destruct (poll_recover d a w Ha) as (F & C & P).
      destruct (IH (poll d a w)) as (C' & P' & F').
      split; [congruence|]. split; [congruence|].
      intros _. destruct rest as [|s rest']; [exact F|].
      apply F'. discriminate. }
  destruct H as (C & P & F). rewrite C. repeat split; assumption.
Qed.

Lemma X4_no_fall_above_threshold_witness :
  let w := poll 0 (1 # 10) (setup true (power_on unsetAddress [])) in
  let samples := [(400000%N, (5 # 10)%Q); (400000%N, 1%Q)] in
  isFalling w = true /\
  Forall (fun p => ~ below (snd p)) samples /\
  confirmed_falls (polls samples w) = confirmed_falls w /\
  isFalling (polls samples w) = false.
Proof.
  intros w samples.
  assert (H : Forall (fun p => ~ below (snd p)) samples).
  { repeat constructor; intros H; vm_compute in H; discriminate H. }
  split; [reflexivity|]. split; [exact H|].
  destruct (X4_no_fall_above_threshold samples w H) as (C & _ & F).
  split; [exact C | apply F; discriminate].
Defined.

(** ** The orientation thresholds in sensor counts *)

(** X5. The orientation decision in sensor counts. For every 16-bit sample
    of the vertical axis, the label after [checkOrientation] is Standing when
    the sample is at least 11469 counts, LyingDown when its absolute value is
    at most 6553 counts, and the label before in all other cases; the two
    comparisons come out the same against the binary64 constants the
    compiled code holds; and no sample reads exactly 0.7 g or exactly 0.4 g,
    so the two boundary readings never reach the comparisons. *)
Theorem X5_orientation_in_counts (az : Z) (w : World) :
  -32768 <= az <= 32767 ->
  currentOrientation (checkOrientation az w)
  = (if 11469 <=? az then standing
     else if Z.abs az <=? 6553 then lying_down
     else currentOrientation w) /\
  Qlt_bool STANDING_Z_MIN_binary64 (to_g az) = (11469 <=? az) /\
  Qlt_bool (Qabs (to_g az)) LYING_Z_MAX_binary64 = (Z.abs az <=? 6553) /\
  ~ (to_g az == STANDING_Z_MIN)%Q /\ ~ (Qabs (to_g az) == LYING_Z_MAX)%Q.
Proof.
  intros Hr.
  assert (S1 : Qlt_bool STANDING_Z_MIN (to_g az) = (11469 <=? az)).
  { unfold Qlt_bool, Qle_bool, to_g, STANDING_Z_MIN, LSB_PER_G.
    cbn [Qnum Qden].
    destruct (Z.leb_spec (az * Z.pos 10) (7 * Z.pos 16384));
      destruct (Z.leb_spec 11469 az); cbn [negb]; try reflexivity; lia. }
  assert (S2 : Qlt_bool (Qabs (to_g az)) LYING_Z_MAX = (Z.abs az <=? 6553)).
  { unfold Qlt_bool, Qle_bool, to_g, Qabs, LYING_Z_MAX, LSB_PER_G.
    cbn [Qnum Qden].
    destruct (Z.leb_spec (4 * Z.pos 16384) (Z.abs az * Z.pos 10));
      destruct (Z.leb_spec (Z.abs az) 6553); cbn [negb]; try reflexivity; lia. }
  destruct (thresholds_exact_on_samples az Hr) as (B1 & B2).
  split; [|split; [|split; [|split]]].
  - rewrite checkOrientation_label. unfold classifyOrientation.
    rewrite S1, S2. reflexivity.
  - rewrite B1. exact S1.
  - rewrite B2. exact S2.
  - unfold to_g, Qeq, STANDING_Z_MIN, LSB_PER_G. cbn [Qnum Qden]. lia.
  - unfold to_g, Qabs, Qeq, LYING_Z_MAX, LSB_PER_G. cbn [Qnum Qden]. lia.
Qed.

Lemma X5_orientation_in_counts_witness :
  let w := setup true (power_on unsetAddress []) in
  -32768 <= 11468 <= 32767 /\ -32768 <= 11469 <= 32767 /\
  -32768 <= -6553 <= 32767 /\
  currentOrientation w = lying_down /\
  currentOrientation (checkOrientation 11469 w) = standing /\
  currentOrientation
    (checkOrientation 11468 (checkOrientation 11469 w)) = standing /\
  currentOrientation
    (checkOrientation (-6553) (checkOrientation 11469 w)) = lying_down.
Proof.
  intros w.
  assert (R1 : -32768 <= 11468 <= 32767) by lia.
  assert (R2 : -32768 <= 11469 <= 32767) by lia.
  assert (R3 : -32768 <= -6553 <= 32767) by lia.
  pose proof (proj1 (X5_orientation_in_counts 11469 w R2)) as E2.
  pose proof (proj1 (X5_orientation_in_counts 11468 (checkOrientation 11469 w) R1))
    as E1.
  pose proof (proj1 (X5_orientation_in_counts (-6553) (checkOrientation 11469 w) R3))
    as E3.
  split; [exact R1|]. split; [exact R2|]. split; [exact R3|].
  split; [reflexivity|]. split; [exact E2|].
  split; [rewrite E1; exact E2 | exact E3].
Defined.

(** ** A session without the sensor *)

Lemma Rest_run_sensor_off (acts : list action) (w : World) :
  mpuInitialized w = false -> Rest w (run acts w).
Proof.
  revert w. induction acts as [|a rest IH]; intros w Hm; cbn [run fold_left].
  - apply Rest_refl.
  - assert (H : Rest w (exec a w)).
    { destruct a; cbn [exec].
      - rewrite loop_split, Hm. apply Rest_loop_after_sensors.
      - apply Rest_setStatusFunction.
      - apply Rest_eventHandler.
      - apply Rest_Later, Later_elapse.
      - apply Rest_Later, Later_until. }
    eapply Rest_trans; [exact H|]. apply IH.
    destruct H as (_ & _ & _ & H & _). congruence.
Qed.

(** X6. When the sensor did not answer at start-up, the detection features
    stay off for the whole session: in every execution the sensor flag stays
    false, no fall is ever confirmed, the detector stays Idle and the
    orientation stays at its default, lying down. *)
Theorem X6_sensor_off_session (saved : BleAddress) (lat : list N)
    (acts : list action) :
  let w := run acts (setup false (power_on saved lat)) in
  mpuInitialized w = false /\ confirmed_falls w = 0%nat /\
  isFalling w = false /\ currentOrientation w = lying_down.
Proof.
  intros w.
  destruct (setup_state false saved lat) as (Ht & Hf & Hm & Ho & _).
  destruct (Rest_run_sensor_off acts _ Hm) as (_ & R1 & _ & R3 & R4 & _ & R6).
  fold w in R1, R3, R4, R6.
  rewrite confirmed_falls_length, R6, Ht, R1, R3, R4.
  repeat split; assumption.
Qed.

(** ** The rate limiter's guard *)

Lemma delay_exact (ms : Z) (w : World) :
  latency w = [] ->
  now (delay ms w) = now w + 1000 * ms /\ latency (delay ms w) = [] /\
  g (delay ms w) = g w.
Proof.
  intros H. unfold delay, pass.
  change (latency (set_now (now w + 1000 * ms) w)) with (latency w).
  rewrite H. repeat split. exact H.
Qed.

(** X7. With no platform latency, the guard that opens every publish path
    does not wait at all when the budget is there, never waits longer than
    PUBLISH_INTERVAL (1100 ms) otherwise, and in both cases leaves the budget
    available (whatever value the last-publish timestamp holds). *)
Theorem X7_guard_bounded (w : World) :
  latency w = [] ->
  (canPublish w = true -> waitPublish w = w) /\
  now w <= now (waitPublish w) <= now w + 1000 * PUBLISH_INTERVAL_MS /\
  canPublish (waitPublish w) = true.
Proof.
  intros Hlat. unfold waitPublish.
  destruct (canPublish w) eqn:Ec.
  - split; [reflexivity|]. split; [unfold PUBLISH_INTERVAL_MS; lia | exact Ec].
  - split; [discriminate|].
    unfold canPublish in Ec. apply Z.leb_gt in Ec.
    set (e := u32 (millis w - lastPublish w)) in *.
    pose proof (u32_range (millis w - lastPublish w)) as He. fold e in He.
    unfold PUBLISH_INTERVAL_MS in *.
    rewrite (u32_small (1100 - e)) by lia.
    destruct (delay_exact (1100 - e) w Hlat) as (Hn & _ & Hg).
    split; [lia|].
    unfold canPublish, millis, ms_now, lastPublish. rewrite Hn, Hg.
    fold (lastPublish w). apply Z.leb_le.
    replace (now w + 1000 * (1100 - e)) with (now w + (1100 - e) * 1000) by lia.
    rewrite Z.div_add by lia. fold (ms_now w).
    unfold e, millis, u32, PUBLISH_INTERVAL_MS.
    rewrite Zminus_mod_idemp_l.
    replace (ms_now w + (1100 - (ms_now w mod 2 ^ 32 - lastPublish w) mod 2 ^ 32)
             - lastPublish w)
      with (1100 + ((ms_now w - lastPublish w)
                    - (ms_now w mod 2 ^ 32 - lastPublish w) mod 2 ^ 32)) by lia.
    rewrite (Zminus_mod_idemp_l (ms_now w) (lastPublish w)).
    rewrite Zplus_mod, (Zminus_mod_idemp_r (ms_now w - lastPublish w)).
    rewrite Z.sub_diag. rewrite Z.mod_0_l by lia.
    rewrite Z.add_0_r, Z.mod_mod by lia.
    rewrite Z.mod_small by lia. lia.
Qed.

Lemma X7_guard_bounded_witness :
  let w := snd (setStatusFunction "info"
                  (until 5000 (setup false (power_on unsetAddress [])))) in
  latency w = [] /\ canPublish w = false /\
  now (waitPublish w) = now w + 1000 * 1100 /\
  canPublish (waitPublish w) = true.
Proof.
  intros w.
  assert (H : latency w = []) by reflexivity.
  split; [exact H|]. split; [reflexivity|]. split; [reflexivity|].
  exact (proj2 (proj2 (X7_guard_bounded w H))).
Defined.

(** ** The publish paths have no side effect *)

Lemma published_logs (name : string) (new tr : list event) :
  logs_only new -> published name (new ++ tr) = published name tr.
Proof.
  induction 1 as [|e rest He Hrest IH]; [reflexivity|].
  destruct e; [contradiction|]. exact IH.
Qed.

Lemma publish_times_logs (new tr : list event) :
  logs_only new -> publish_times (new ++ tr) = publish_times tr.
Proof.
  induction 1 as [|e rest He Hrest IH]; [reflexivity|].
  destruct e; [contradiction|]. exact IH.
Qed.

Lemma LogsAfter_process_log (m : logmsg) :
  LogsAfter (fun w => Particle_process (log m w)).
Proof.
  intros w. unfold Particle_process.
  rewrite pass_g, pass_pin, pass_eeprom, pass_trace.
  repeat split. exists [Log (ms_now w) m]. split; [reflexivity|].
  repeat constructor.
Qed.

Lemma LogsAfter_log_process (m : logmsg) :
  LogsAfter (fun w => log m (Particle_process w)).
Proof.
  intros w. unfold Particle_process.
  change (g (log m (pass w))) with (g (pass w)).
  change (pinD7 (log m (pass w))) with (pinD7 (pass w)).
  change (eeprom (log m (pass w))) with (eeprom (pass w)).
  change (trace (log m (pass w))) with (Log (ms_now (pass w)) m :: trace (pass w)).
  rewrite pass_g, pass_pin, pass_eeprom, pass_trace.
  repeat split. exists [Log (ms_now (pass w)) m]. split; [reflexivity|].
  repeat constructor.
Qed.

Lemma LogsAfter_process : LogsAfter Particle_process.
Proof.
  intros w. unfold Particle_process.
  rewrite pass_g, pass_pin, pass_eeprom, pass_trace.
  repeat split. exists []. split; [reflexivity | constructor].
Qed.

Lemma publishVia_effect (name : string) (data : World -> payload)
    (before after : World -> World) (w : World) :
  Silent before -> LogsAfter after ->
  kept (publishVia name data before after w) = kept w /\
  exists p t new,
    trace (publishVia name data before after w)
    = new ++ Publish name p t :: trace w /\ logs_only new.
Proof.
  intros Hb Ha. unfold publishVia.
  destruct (publishCore_spec name data before Hb w) as (_ & K3 & Ht & _).
  revert K3 Ht. generalize (publishCore name data before w).
  generalize (data (before (pass (waitPublish w)))).
  generalize (ms_now (before (pass (waitPublish w)))).
  intros t p w3 K3 Ht.
  destruct (Ha w3) as (Ag & Ap & Ae & new & At & Hl).
  split.
  - rewrite <- K3. apply kept_same_g; assumption.
  - exists p, t, new. rewrite At, Ht. split; [reflexivity | exact Hl].
Qed.

Lemma publishStatus_effect (w : World) :
  kept (publishStatus w) = kept w /\
  exists p t new,
    trace (publishStatus w) = new ++ Publish "status" p t :: trace w /\
    logs_only new.
Proof.
  rewrite publishStatus_via.
  apply publishVia_effect;
    [apply (Silent_set_status statusData) | apply LogsAfter_process].
Qed.

Lemma publishPeriodicStatus_effect (w : World) :
  kept (publishPeriodicStatus w) = kept w /\
  exists p t new,
    trace (publishPeriodicStatus w)
    = new ++ Publish "periodic_status" p t :: trace w /\
    logs_only new.
Proof.
  rewrite publishPeriodicStatus_via.
  apply publishVia_effect; [apply Silent_id | apply LogsAfter_process_log].
Qed.

Lemma publishDepartment_effect (d : string) (r : Z) (w : World) :
  kept (publishDepartment d r w) = kept w /\
  exists p t new,
    trace (publishDepartment d r w) = new ++ Publish "department" p t :: trace w /\
    logs_only new.
Proof.
  rewrite publishDepartment_via.
  apply publishVia_effect; [apply Silent_id | apply LogsAfter_process_log].
Qed.

Lemma publishFallAlert_effect (w : World) :
  kept (publishFallAlert w) = kept w /\
  exists p t new,
    trace (publishFallAlert w) = new ++ Publish "falling" p t :: trace w /\
    logs_only new.
Proof.
  rewrite publishFallAlert_via.
  apply publishVia_effect; [apply Silent_id | apply LogsAfter_log_process].
Qed.

Lemma sendLocationUpdate_effect (w : World) :
  kept (sendLocationUpdate w) = kept w /\
  exists p t new,
    trace (sendLocationUpdate w) = new ++ Publish "location" p t :: trace w /\
    logs_only new.
Proof.
  rewrite sendLocationUpdate_via.
  apply publishVia_effect; [apply Silent_id | apply LogsAfter_process_log].
Qed.

Lemma emission_effect (k : kind) (w : World) :
  kept (emission k w) = kept w /\
  exists p t new,
    trace (emission k w) = new ++ Publish (kind_name k) p t :: trace w /\
    logs_only new.
Proof.
  destruct k as [| |d r| |]; cbn [emission kind_name].
  - apply publishStatus_effect.
  - apply publishPeriodicStatus_effect.
  - apply publishDepartment_effect.
  - apply publishFallAlert_effect.
  - apply sendLocationUpdate_effect.
Qed.

(** X8. Each of the five publish paths publishes exactly one event, under
    its own name, and changes no global but the last-publish timestamp and the
    status buffer, nor the learning pin, nor the EEPROM: events of every other
    name are as they were, and so are the tracked identity, the presence, the
    department, the orientation and the detector's state. *)
Theorem X8_publish_path_effect (k : kind) (w : World) :
  kept (emission k w) = kept w /\
  (exists p t,
     published (kind_name k) (trace (emission k w))
     = (p, t) :: published (kind_name k) (trace w) /\
     publish_times (trace (emission k w)) = t :: publish_times (trace w)) /\
  (forall name, name <> kind_name k ->
     published name (trace (emission k w)) = published name (trace w)).
Proof.
  destruct (emission_effect k w) as (K & p & t & new & Ht & Hl).
  split; [exact K|]. split.
  - exists p, t. rewrite Ht, published_logs, publish_times_logs by exact Hl.
    cbn [published publish_times]. rewrite String.eqb_refl. split; reflexivity.
  - intros name Hn. rewrite Ht, published_logs by exact Hl.
    cbn [published].
    destruct (String.eqb_spec (kind_name k) name) as [E | _];
      [congruence | reflexivity].
Qed.

Lemma X8_publish_path_effect_witness :
  let w := setup false (power_on unsetAddress []) in
  "department" <> kind_name KFalling /\
  published "department" (trace (emission KFalling w))
  = published "department" (trace w).
Proof.
  intros w.
  assert (H : "department" <> kind_name KFalling) by discriminate.
  split; [exact H|].
  exact (proj2 (proj2 (X8_publish_path_effect KFalling w)) "department" H).
Defined.

(** ** Presence: contact, repeated checks, and the clock's wrap-around *)

Lemma scanResultCallback_tracked (r : BleScanResult) (w : World) :
  zone_of (address r) = None -> address r = searchAddress w ->
  pinD7 w && (searchAddress w =? unsetAddress) = false ->
  scanResultCallback r w
  = (set_lastRSSI (rssi r)
       (set_lastSeen (millis w) (log (LogDeviceDetected (rssi r)) w)), true).
Proof.
  intros Hz Ha Hl. unfold scanResultCallback, zone_of in *. cbv zeta.
  destruct (address r =? arg1Address); [discriminate|].
  destruct (address r =? arg2Address); [discriminate|].
  unfold isLearningModeOn. rewrite Hl, Ha, Z.eqb_refl. reflexivity.
Qed.

(** X9. A scan result from the tracked device (outside the capture of the
    learning mode) records the contact time and the signal strength and stops
    the scan; a presence check at that instant then gives Here, and raises
    the changed flag unless the label was Here already. This needs the clock
    not to read 0 at the contact (0 is the no-contact sentinel) and the
    contact time plus the timeout to fit 32 bits. *)
Theorem X9_first_contact_here (r : BleScanResult) (w : World) :
  zone_of (address r) = None -> address r = searchAddress w ->
  pinD7 w && (searchAddress w =? unsetAddress) = false ->
  0 < millis w -> millis w + DEVICE_NOT_HERE_MS < 2 ^ 32 ->
  let w1 := fst (scanResultCallback r w) in
  snd (scanResultCallback r w) = true /\
  lastSeen w1 = millis w /\ lastRSSI w1 = rssi r /\
  present (snd (checkDeviceStateChanged w1)) = Here /\
  (present w <> Here -> fst (checkDeviceStateChanged w1) = true).
Proof.
  intros Hz Ha Hl H0 Hfit w1. unfold w1.
  rewrite (scanResultCallback_tracked r w Hz Ha Hl). cbn [fst snd].
  set (x := set_lastRSSI (rssi r)
              (set_lastSeen (millis w) (log (LogDeviceDetected (rssi r)) w))).
  assert (E1 : lastSeen x = millis w) by reflexivity.
  assert (E2 : millis x = millis w) by reflexivity.
  assert (E3 : present x = present w) by reflexivity.
  assert (L : present (snd (checkDeviceStateChanged x)) = Here).
  { rewrite checkDeviceStateChanged_label, E1, E2.
    unfold DEVICE_NOT_HERE_MS in *.
    rewrite u32_small by lia.
    destruct (Z.ltb_spec (millis w + 30000) (millis w)) as [H | _]; [lia|].
    destruct (Z.eqb_spec (millis w) 0) as [H | _]; [lia | reflexivity]. }
  split; [reflexivity|]. split; [reflexivity|]. split; [reflexivity|].
  split; [exact L|].
  intros Hp. apply checkDeviceStateChanged_flag. rewrite L, E3. congruence.
Qed.

Lemma X9_first_contact_here_witness :
  let tracked := 0x112233445566 in
  let r := mkScanResult tracked (-61) "phone" in
  let w := until 9000 (setup false (power_on tracked [])) in
  zone_of (address r) = None /\ address r = searchAddress w /\
  pinD7 w && (searchAddress w =? unsetAddress) = false /\
  0 < millis w /\ millis w + DEVICE_NOT_HERE_MS < 2 ^ 32 /\
  present w = PresenceUnknown /\
  present (snd (checkDeviceStateChanged (fst (scanResultCallback r w)))) = Here.
Proof.
  intros tracked r w.
  assert (H1 : zone_of (address r) = None) by reflexivity.
  assert (H2 : address r = searchAddress w) by reflexivity.
  assert (H3 : pinD7 w && (searchAddress w =? unsetAddress) = false) by reflexivity.
  assert (H4 : 0 < millis w) by reflexivity.
  assert (H5 : millis w + DEVICE_NOT_HERE_MS < 2 ^ 32) by reflexivity.
  split; [exact H1|]. split; [exact H2|]. split; [exact H3|].
  split; [exact H4|]. split; [exact H5|]. split; [reflexivity|].
  exact (proj1 (proj2 (proj2 (proj2 (X9_first_contact_here r w H1 H2 H3 H4 H5))))).
Defined.

(** X10. A presence check reports a change once: checking again at the
    same instant changes nothing and does not raise the flag. *)
Theorem X10_presence_check_settles (w : World) :
  checkDeviceStateChanged (snd (checkDeviceStateChanged w))
  = (false, snd (checkDeviceStateChanged w)).
Proof.
  unfold checkDeviceStateChanged at 2 3.
  destruct (u32 (lastSeen w + DEVICE_NOT_HERE_MS) <? millis w) eqn:E1;
    [|destruct (lastSeen w =? 0) eqn:E2];
    destruct (present w) eqn:Ep; cbn [presence_eqb negb snd];
    unfold checkDeviceStateChanged;
    repeat match goal with
           | |- context [lastSeen (log ?m (set_present ?p w))] =>
               change (lastSeen (log m (set_present p w))) with (lastSeen w)
           | |- context [millis (log ?m (set_present ?p w))] =>
               change (millis (log m (set_present p w))) with (millis w)
           | |- context [present (log ?m (set_present ?p w))] =>
               change (present (log m (set_present p w))) with p
           end;
    rewrite ?E1, ?E2, ?Ep; reflexivity.
Qed.

(** X11. Around the wrap of the 32-bit millisecond clock the timeout
    comparison goes wrong in both directions. (1) A contact recorded during
    the last 30 s before the wrap makes the sum of timestamp and timeout wrap:
    the label turns NotHere at once, however recent the contact. (2) Once the
    clock has wrapped and reads less than the timestamp of a contact whose
    sum did not wrap, the label stays Here, however long ago the contact
    was. *)
Theorem X11_presence_clock_wrap :
  (forall w,
     2 ^ 32 - DEVICE_NOT_HERE_MS <= lastSeen w < 2 ^ 32 ->
     lastSeen w <= millis w ->
     present (snd (checkDeviceStateChanged w)) = NotHere) /\
  (forall w,
     0 < lastSeen w -> lastSeen w + DEVICE_NOT_HERE_MS < 2 ^ 32 ->
     millis w < lastSeen w ->
     present (snd (checkDeviceStateChanged w)) = Here).
Proof.
  unfold DEVICE_NOT_HERE_MS. split; intros w.
  - intros Hs Hm. rewrite checkDeviceStateChanged_label.
    unfold DEVICE_NOT_HERE_MS, u32.
    replace (lastSeen w + 30000) with (lastSeen w + 30000 - 2 ^ 32 + 1 * 2 ^ 32) by lia.
    rewrite Z.mod_add by lia. rewrite Z.mod_small by lia.
    destruct (Z.ltb_spec (lastSeen w + 30000 - 2 ^ 32) (millis w)) as [_ | H];
      [reflexivity | lia].
  - intros H0 Hfit Hm. rewrite checkDeviceStateChanged_label.
    unfold DEVICE_NOT_HERE_MS. rewrite u32_small by lia.
    destruct (Z.ltb_spec (lastSeen w + 30000) (millis w)) as [H | _]; [lia|].
    destruct (Z.eqb_spec (lastSeen w) 0) as [H | _]; [lia | reflexivity].
Qed.

Lemma X11_presence_clock_wrap_witness :
  let seen_late := set_lastSeen (2 ^ 32 - 10000)
                     (until (2 ^ 32 - 9000) (power_on 0x112233445566 [])) in
  let wrapped := set_lastSeen (2 ^ 32 - 40000)
                   (until (2 ^ 32 + 5000) (power_on 0x112233445566 [])) in
  (2 ^ 32 - DEVICE_NOT_HERE_MS <= lastSeen seen_late < 2 ^ 32 /\
   lastSeen seen_late <= millis seen_late /\
   millis seen_late - lastSeen seen_late = 1000 /\
   present (snd (checkDeviceStateChanged seen_late)) = NotHere) /\
  (0 < lastSeen wrapped /\ lastSeen wrapped + DEVICE_NOT_HERE_MS < 2 ^ 32 /\
   millis wrapped < lastSeen wrapped /\
   ms_now wrapped - lastSeen wrapped = 45000 /\
   present (snd (checkDeviceStateChanged wrapped)) = Here).
Proof.
  intros seen_late wrapped.
  assert (A1 : 2 ^ 32 - DEVICE_NOT_HERE_MS <= lastSeen seen_late < 2 ^ 32)
    by (vm_compute; split; congruence).
  assert (A2 : lastSeen seen_late <= millis seen_late) by (vm_compute; congruence).
  assert (B1 : 0 < lastSeen wrapped) by reflexivity.
  assert (B2 : lastSeen wrapped + DEVICE_NOT_HERE_MS < 2 ^ 32) by reflexivity.
  assert (B3 : millis wrapped < lastSeen wrapped) by reflexivity.
  split.
  - split; [exact A1|]. split; [exact A2|]. split; [reflexivity|].
    exact (proj1 X11_presence_clock_wrap seen_late A1 A2).
  - split; [exact B1|]. split; [exact B2|]. split; [exact B3|].
    split; [reflexivity|].
    exact (proj2 X11_presence_clock_wrap wrapped B1 B2 B3).
Defined.

(** ** The scan callback: beacons, strangers, and the learning mode *)

Lemma departmentContact_kept (d : string) (r : BleScanResult) (w : World) :
  let w' := departmentContact d r w in
  searchAddress w' = searchAddress w /\ deviceName w' = deviceName w /\
  eeprom w' = eeprom w /\ pinD7 w' = pinD7 w /\
  lastSeen w' = lastSeen w /\ lastRSSI w' = lastRSSI w /\
  present w' = present w.
Proof.
  intros w'. unfold w', departmentContact. cbv zeta.
  set (w1 := set_currentDepartment d (log (LogDetectedDepartment d (rssi r)) w)).
  destruct (negb (currentDepartment w1 =? lastPublishedDept w1)%string
            || (60000 <? u32 (millis w1 - lastDeptSeen w1))).
  - destruct (publishDepartment_effect (currentDepartment w1) (rssi r) w1)
      as (K & _).
    revert K.
    generalize (publishDepartment (currentDepartment w1) (rssi r) w1).
    intros w2 K.
    destruct (kept_fields _ _ K)
      as (_ & E1 & E2 & _ & E3 & E4 & _ & _ & _ & _ & _ & _ & _ & _ & _ & E5 & E6 & E7).
    repeat split; assumption.
  - repeat split.
Qed.

(** X12. A scan result from a department beacon is never taken for the
    tracked device, not even in learning mode: it leaves the tracked address,
    its name, the EEPROM and the learning pin as they were, does not count as
    a contact (last-seen time, signal strength and presence are unchanged),
    and ends the scan. *)
Theorem X12_beacon_never_captured (r : BleScanResult) (w : World) (zone : string) :
  zone_of (address r) = Some zone ->
  let w' := fst (scanResultCallback r w) in
  snd (scanResultCallback r w) = true /\
  searchAddress w' = searchAddress w /\ deviceName w' = deviceName w /\
  eeprom w' = eeprom w /\ pinD7 w' = pinD7 w /\
  lastSeen w' = lastSeen w /\ lastRSSI w' = lastRSSI w /\
  present w' = present w.
Proof.
  intros Hz w'. unfold w'.
  rewrite (scanResultCallback_department r w zone Hz). cbn [fst snd].
  split; [reflexivity|]. apply departmentContact_kept.
Qed.

Lemma X12_beacon_never_captured_witness :
  let r := mkScanResult arg1Address (-40) "argon" in
  let w := eventHandler (setup false (power_on unsetAddress [])) in
  zone_of (address r) = Some pediatric /\
  pinD7 w = true /\ searchAddress w = unsetAddress /\
  searchAddress (fst (scanResultCallback r w)) = unsetAddress /\
  pinD7 (fst (scanResultCallback r w)) = true.
Proof.
  intros r w.
  assert (H : zone_of (address r) = Some pediatric) by reflexivity.
  split; [exact H|]. split; [reflexivity|]. split; [reflexivity|].
  destruct (X12_beacon_never_captured r w pediatric H)
    as (_ & H1 & _ & _ & H2 & _).
  split; [exact H1 | exact H2].
Defined.

Lemma scanResultCallback_stranger (r : BleScanResult) (w : World) :
  is_stranger (searchAddress w) (pinD7 w) r = true ->
  scanResultCallback r w = (w, false).
Proof.
  unfold is_stranger, zone_of, scanResultCallback, isLearningModeOn. cbv zeta.
  destruct (address r =? arg1Address); [discriminate|].
  destruct (address r =? arg2Address); [discriminate|].
  intros H. apply andb_true_iff in H as [H1 H2].
  apply negb_true_iff in H1. rewrite H1, H2. reflexivity.
Qed.

Lemma scanResultCallback_match (r : BleScanResult) (w : World) :
  is_stranger (searchAddress w) (pinD7 w) r = false ->
  snd (scanResultCallback r w) = true.
Proof.
  unfold is_stranger, zone_of, scanResultCallback, isLearningModeOn. cbv zeta.
  destruct (address r =? arg1Address); [reflexivity|].
  destruct (address r =? arg2Address); [reflexivity|].
  destruct (pinD7 w && (searchAddress w =? unsetAddress)); [reflexivity|].
  cbn [negb andb]. intros H. rewrite H. reflexivity.
Qed.

Lemma BLE_scan_strangers (found : list (N * BleScanResult)) (w : World) :
  Forall (fun s => is_stranger (searchAddress w) (pinD7 w) (snd s) = true) found ->
  Later w (BLE_scan found w).
Proof.
  revert w. induction found as [|[d r] rest IH]; intros w Hall; cbn [BLE_scan].
  - apply Later_pass.
  - inversion Hall as [|? ? Hr Hrest]; subst. cbn [snd] in Hr.
    rewrite (scanResultCallback_stranger r (elapse d w) Hr).
    eapply Later_trans; [apply Later_elapse|]. apply IH. exact Hrest.
Qed.

(** X13. A scan that discovers only strangers (no department beacon, not
    the tracked device, nothing to capture in learning mode) changes nothing
    but the clock: globals, trace, learning pin and EEPROM are as before. *)
Theorem X13_strangers_ignored (found : list (N * BleScanResult)) (w : World) :
  Forall (fun s => is_stranger (searchAddress w) (pinD7 w) (snd s) = true) found ->
  g (BLE_scan found w) = g w /\ trace (BLE_scan found w) = trace w /\
  pinD7 (BLE_scan found w) = pinD7 w /\ eeprom (BLE_scan found w) = eeprom w /\
  now w <= now (BLE_scan found w).
Proof. intros H. exact (BLE_scan_strangers found w H). Qed.

Lemma X13_strangers_ignored_witness :
  let w := setup false (power_on 0x112233445566 []) in
  let found := [(1000%N, mkScanResult 0xA1A2A3A4A5A6 (-70) "tv");
                (2000%N, mkScanResult 0xB1B2B3B4B5B6 (-80) "")] in
  Forall (fun s => is_stranger (searchAddress w) (pinD7 w) (snd s) = true) found /\
  g (BLE_scan found w) = g w /\ now (BLE_scan found w) = now w + 3000.
Proof.
  intros w found.
  assert (H : Forall (fun s => is_stranger (searchAddress w) (pinD7 w) (snd s) = true)
                     found) by (repeat constructor).
  split; [exact H|].
  split; [exact (proj1 (X13_strangers_ignored found w H)) | reflexivity].
Defined.

(** X14. A scan handles one match at most: once a result is a department
    beacon, the tracked device or a capture of the learning mode, the scan is
    stopped, and whatever else was in range does not matter. *)
Theorem X14_scan_stops_at_first_match
    (pre : list (N * BleScanResult)) (d : N) (r : BleScanResult)
    (rest rest' : list (N * BleScanResult)) (w : World) :
  Forall (fun s => is_stranger (searchAddress w) (pinD7 w) (snd s) = true) pre ->
  is_stranger (searchAddress w) (pinD7 w) r = false ->
  BLE_scan (pre ++ (d, r) :: rest) w = BLE_scan (pre ++ (d, r) :: rest') w.
Proof.
  revert w. induction pre as [|[d0 r0] pre IH]; intros w Hall Hm.
  - cbn [app BLE_scan].
    pose proof (scanResultCallback_match r (elapse d w) Hm) as Hs.
    destruct (scanResultCallback r (elapse d w)) as [w' stopped].
    cbn [snd] in Hs. rewrite Hs. reflexivity.
  - inversion Hall as [|? ? Hr Hrest]; subst. cbn [snd] in Hr.
    cbn [app BLE_scan].
    rewrite (scanResultCallback_stranger r0 (elapse d0 w) Hr).
    apply IH; assumption.
Qed.

Lemma X14_scan_stops_at_first_match_witness :
  let tracked := 0x112233445566 in
  let w := until 9000 (setup false (power_on tracked [])) in
  let beacon := mkScanResult arg2Address (-45) "" in
  let phone := mkScanResult tracked (-61) "phone" in
  is_stranger (searchAddress w) (pinD7 w) beacon = false /\
  BLE_scan [(0%N, beacon); (0%N, phone)] w = BLE_scan [(0%N, beacon)] w /\
  lastSeen (BLE_scan [(0%N, beacon); (0%N, phone)] w) = 0.
Proof.
  intros tracked w beacon phone.
  assert (H : is_stranger (searchAddress w) (pinD7 w) beacon = false) by reflexivity.
  split; [exact H|]. split.
  - exact (X14_scan_stops_at_first_match [] 0%N beacon [(0%N, phone)] [] w
             (Forall_nil _) H).
  - reflexivity.
Defined.



(** X16. Two clicks of the MODE button, with no capture in between, leave
    learning mode off but the node tracking nobody: the tracked address and
    name are cleared while the EEPROM still holds the old address, so the
    device tracked before is from then on ignored by the scan callback, until
    a power cycle reads the address back. *)
Theorem X16_double_click_forgets (w : World) :
  pinD7 w = false ->
  let w2 := eventHandler (eventHandler w) in
  pinD7 w2 = false /\ searchAddress w2 = unsetAddress /\
  deviceName w2 = "" /\ eeprom w2 = eeprom w /\
  (forall r, zone_of (address r) = None -> address r <> unsetAddress ->
             scanResultCallback r w2 = (w2, false)) /\
  (forall mpu_ack lat,
     searchAddress (setup mpu_ack (power_on (eeprom w2) lat)) = eeprom w).
Proof.
  intros Hp w2.
  assert (E : w2 = setLearningModeOff
                     (log LogLearningMode
                        (setLearningModeOn
                           (set_deviceName ""
                              (set_searchAddress unsetAddress w))))).
  { unfold w2, eventHandler at 2. rewrite Hp. cbv zeta.
    unfold eventHandler. reflexivity. }
  assert (E1 : pinD7 w2 = false) by (rewrite E; reflexivity).
  assert (E2 : searchAddress w2 = unsetAddress) by (rewrite E; reflexivity).
  assert (E3 : eeprom w2 = eeprom w) by (rewrite E; reflexivity).
  split; [exact E1|]. split; [exact E2|].
  split; [rewrite E; reflexivity|]. split; [exact E3|]. split.
  - intros r Hz Hn. apply scanResultCallback_stranger.
    unfold is_stranger. rewrite Hz, E1, E2. cbn [andb negb].
    apply negb_true_iff, Z.eqb_neq. congruence.
  - intros mpu_ack lat. rewrite E3.
    exact (proj1 (proj2 (proj2 (proj2 (proj2 (proj2
             (setup_state mpu_ack (eeprom w) lat))))))).
Qed.

Lemma X16_double_click_forgets_witness :
  let tracked := 0x112233445566 in
  let w := setup false (power_on tracked []) in
  let phone := mkScanResult tracked (-61) "phone" in
  pinD7 w = false /\ searchAddress w = tracked /\
  zone_of (address phone) = None /\ address phone <> unsetAddress /\
  scanResultCallback phone (eventHandler (eventHandler w))
  = (eventHandler (eventHandler w), false).
Proof.
  intros tracked w phone.
  assert (H1 : pinD7 w = false) by reflexivity.
  assert (H2 : zone_of (address phone) = None) by reflexivity.
  assert (H3 : address phone <> unsetAddress) by discriminate.
  split; [exact H1|]. split; [reflexivity|]. split; [exact H2|].
  split; [exact H3|].
  exact (proj1 (proj2 (proj2 (proj2 (proj2 (X16_double_click_forgets w H1)))))
           phone H2 H3).
Defined.

(** ** What the loop publishes about presence *)

Lemma Quietly_refl (name : string) (w : World) : Quietly name w w.
Proof. repeat split. Qed.

Lemma Quietly_trans (name : string) (a b c : World) :
  Quietly name a b -> Quietly name b c -> Quietly name a c.
Proof.
  intros (H1 & H2 & H3) (K1 & K2 & K3). repeat split; congruence.
Qed.

Lemma Quietly_Later (name : string) (w w' : World) :
  Later w w' -> Quietly name w w'.
Proof.
  intros (Hg & Ht & _). unfold Quietly, present, statuss.
  rewrite Hg, Ht. repeat split.
Qed.

Lemma Quietly_silent (name : string) (w w' : World) :
  trace w' = trace w -> present w' = present w -> statuss w' = statuss w ->
  Quietly name w w'.
Proof. intros Ht Hp Hs. unfold Quietly. rewrite Ht. repeat split; assumption. Qed.

Lemma Quietly_log (name : string) (m : logmsg) (w : World) :
  Quietly name w (log m w).
Proof. repeat split. Qed.

(** A step that publishes one event, under another name. *)
Lemma Quietly_other (name other : string) (w w' : World) :
  other <> name -> kept w' = kept w ->
  (exists p t new,
     trace w' = new ++ Publish other p t :: trace w /\ logs_only new) ->
  Quietly name w w'.
Proof.
  intros Hn K (p & t & new & Ht & Hl).
  destruct (kept_fields _ _ K)
    as (E1 & _ & _ & _ & _ & _ & _ & _ & _ & _ & _ & _ & _ & _ & _ & E2 & _).
  unfold Quietly. rewrite Ht, published_logs by exact Hl.
  cbn [published].
  destruct (String.eqb_spec other name) as [E | _]; [contradiction|].
  repeat split; assumption.
Qed.

Lemma Quietly_publishPeriodicStatus (name : string) (w : World) :
  name <> "periodic_status" -> Quietly name w (publishPeriodicStatus w).
Proof.
  intros H. destruct (publishPeriodicStatus_effect w) as (K & E).
  apply (Quietly_other name "periodic_status"); [congruence | exact K | exact E].
Qed.

Lemma Quietly_publishDepartment (name d : string) (r : Z) (w : World) :
  name <> "department" -> Quietly name w (publishDepartment d r w).
Proof.
  intros H. destruct (publishDepartment_effect d r w) as (K & E).
  apply (Quietly_other name "department"); [congruence | exact K | exact E].
Qed.

Lemma Quietly_publishFallAlert (name : string) (w : World) :
  name <> "falling" -> Quietly name w (publishFallAlert w).
Proof.
  intros H. destruct (publishFallAlert_effect w) as (K & E).
  apply (Quietly_other name "falling"); [congruence | exact K | exact E].
Qed.

Lemma Quietly_sendLocationUpdate (name : string) (w : World) :
  name <> "location" -> Quietly name w (sendLocationUpdate w).
Proof.
  intros H. destruct (sendLocationUpdate_effect w) as (K & E).
  apply (Quietly_other name "location"); [congruence | exact K | exact E].
Qed.

(** Peels a composite step that publishes nothing under the name at hand. *)
Ltac quietly :=
  lazymatch goal with
  | |- Quietly _ ?w ?w => apply Quietly_refl
  | |- Quietly _ _ (if ?c then _ else _) => destruct c; quietly
  | |- Quietly _ _ (pass _) =>
      eapply Quietly_trans; [|apply Quietly_Later, Later_pass]; quietly
  | |- Quietly _ _ (Particle_process _) =>
      eapply Quietly_trans; [|apply Quietly_Later, Later_pass]; quietly
  | |- Quietly _ _ (log _ _) =>
      eapply Quietly_trans; [|apply Quietly_log]; quietly
  | |- Quietly _ _ (delay _ _) =>
      eapply Quietly_trans;
      [|apply Quietly_Later, Later_delay; first [apply u32_range | discriminate]];
      quietly
  | |- Quietly _ _ (elapse _ _) =>
      eapply Quietly_trans; [|apply Quietly_Later, Later_elapse]; quietly
  | |- Quietly _ _ (publishPeriodicStatus _) =>
      eapply Quietly_trans;
      [|apply Quietly_publishPeriodicStatus; assumption]; quietly
  | |- Quietly _ _ (publishDepartment _ _ _) =>
      eapply Quietly_trans;
      [|apply Quietly_publishDepartment; assumption]; quietly
  | |- Quietly _ _ (publishFallAlert _) =>
      eapply Quietly_trans;
      [|apply Quietly_publishFallAlert; assumption]; quietly
  | |- Quietly _ _ (_ _ ?x) =>
      eapply (Quietly_trans _ _ x);
      [|generalize x; intro; apply Quietly_silent; reflexivity]; quietly
  end.

Section BeforeThePresenceCheck.
Variable name : string.
Hypothesis not_falling : name <> "falling".
Hypothesis not_department : name <> "department".
Hypothesis not_periodic : name <> "periodic_status".

Lemma Quietly_checkFallDetection (a : Q) (w : World) :
  Quietly name w (checkFallDetection a w).
Proof. unfold checkFallDetection. cbv zeta. quietly. Qed.

Lemma Quietly_checkOrientation (az : Z) (w : World) :
  Quietly name w (checkOrientation az w).
Proof. unfold checkOrientation. cbv zeta. quietly. Qed.

Lemma Quietly_departmentContact (d : string) (r : BleScanResult) (w : World) :
  Quietly name w (departmentContact d r w).
Proof. unfold departmentContact. cbv zeta. quietly. Qed.

Lemma Quietly_scanResultCallback (r : BleScanResult) (w : World) :
  Quietly name w (fst (scanResultCallback r w)).
Proof.
  unfold scanResultCallback. cbv zeta.
  repeat match goal with
         | |- context [if ?c then _ else _] => destruct c
         end; cbn [fst];
    try apply Quietly_departmentContact; unfold setLearningModeOff; quietly.
Qed.

Lemma Quietly_BLE_scan (found : list (N * BleScanResult)) (w : World) :
  Quietly name w (BLE_scan found w).
Proof.
  revert w. induction found as [|[d r] rest IH]; intros w; cbn [BLE_scan].
  - apply Quietly_Later, Later_pass.
  - pose proof (Quietly_scanResultCallback r (elapse d w)) as H.
    destruct (scanResultCallback r (elapse d w)) as [w' stopped].
    cbn [fst] in H.
    assert (H0 : Quietly name w w').
    { eapply Quietly_trans; [apply Quietly_Later, Later_elapse | exact H]. }
    destruct stopped; [exact H0|].
    eapply Quietly_trans; [exact H0 | apply IH].
Qed.

(** The state in which [loop()] reaches its presence check. *)
Lemma loop_reaches_check (i : LoopInput) (w : World) :
  exists w3,
    Quietly name w w3 /\
    loop i w
    = (let (changed, w) := checkDeviceStateChanged w3 in
       if changed then
         let w := publishStatus w in
         if statuss w && presence_eqb (present w) Here
         then sendLocationUpdate (delay PUBLISH_INTERVAL_MS w)
         else w
       else w).
Proof.
  rewrite loop_split. unfold loop_after_sensors.
  set (w1 := if mpuInitialized w then loop_sensors i w else w).
  assert (H1 : Quietly name w w1).
  { unfold w1. destruct (mpuInitialized w); [|apply Quietly_refl].
    unfold loop_sensors. cbv zeta.
    assert (Q1 : Quietly name w (checkFallDetection (in_accel i) (pass w))).
    { eapply Quietly_trans; [apply Quietly_Later, Later_pass|].
      apply Quietly_checkFallDetection. }
    revert Q1. generalize (checkFallDetection (in_accel i) (pass w)).
    intros x Q1.
    assert (Q2 : Quietly name x (checkOrientation (in_az i) (pass x))).
    { eapply Quietly_trans; [apply Quietly_Later, Later_pass|].
      apply Quietly_checkOrientation. }
    revert Q2. generalize (checkOrientation (in_az i) (pass x)).
    intros y Q2.
    eapply Quietly_trans; [exact Q1|]. eapply Quietly_trans; [exact Q2|].
    eapply Quietly_trans; [apply Quietly_Later, Later_pass|].
    generalize (pass y). intro. apply Quietly_silent; reflexivity. }
  clearbody w1.
  set (w2 := if (_ || _)%bool then BLE_scan (in_scan i) w1 else w1).
  assert (H2 : Quietly name w1 w2).
  { unfold w2. match goal with |- context [if ?c then _ else _] => destruct c end;
      [apply Quietly_BLE_scan | apply Quietly_refl]. }
  clearbody w2.
  set (w3 := if STATUS_UPDATE_INTERVAL_MS <=? _ then _ else w2).
  assert (H3 : Quietly name w2 w3).
  { unfold w3. match goal with |- context [if ?c then _ else _] => destruct c end;
      cbv zeta; quietly. }
  clearbody w3.
  exists w3. split; [|reflexivity].
  eapply Quietly_trans; [exact H1|]. eapply Quietly_trans; [exact H2 | exact H3].
Qed.
End BeforeThePresenceCheck.

(** What the presence check returns: the world as it was and no flag, or
    the new label set and logged, and the flag. *)
Lemma checkDeviceStateChanged_cases (w : World) :
  checkDeviceStateChanged w = (false, w) \/
  exists p, p <> present w /\
            checkDeviceStateChanged w
            = (true, log (LogPresence p) (set_present p w)).
Proof.
  unfold checkDeviceStateChanged.
  destruct (u32 (lastSeen w + DEVICE_NOT_HERE_MS) <? millis w);
    [|destruct (lastSeen w =? 0)];
    destruct (present w) eqn:E; cbn [presence_eqb negb];
    first [left; reflexivity
          | right; eexists; split; [|reflexivity]; discriminate].
Qed.

Lemma publishStatus_shape (w : World) :
  exists name addr seen rssi dept ori temp t,
    trace (publishStatus w)
    = Publish "status"
        (PStatus name addr seen rssi (messages (present w)) dept ori temp) t
        :: trace w /\
    kept (publishStatus w) = kept w.
Proof.
  rewrite publishStatus_via. unfold publishVia.
  destruct (publishCore_spec "status" statusData
              (fun w => set_status (statusData w) w)
              (Silent_set_status statusData) w)
    as (K1 & K3 & Ht & _).
  cbv beta in *.
  revert K1 K3 Ht.
  generalize (publishCore "status" statusData
                (fun w => set_status (statusData w) w) w).
  generalize (set_status (statusData (pass (waitPublish w))) (pass (waitPublish w))).
  intros w1 w3 K1 K3 Ht.
  destruct (kept_fields _ _ K1)
    as (_ & _ & _ & _ & _ & _ & _ & _ & _ & _ & _ & _ & _ & _ & _ & Ep & _).
  exists (nameField w1), (searchAddress w1), (int32_t (lastSeen w1)),
    (lastRSSI w1),
    (currentDepartment w1), (currentOrientation w1), (currentTemperature w1),
    (ms_now w1).
  split.
  - unfold Particle_process. rewrite pass_trace, Ht.
    unfold statusData. rewrite Ep. reflexivity.
  - rewrite <- K3. unfold Particle_process.
    apply kept_same_g; [apply pass_g | apply pass_pin | apply pass_eeprom].
Qed.

Lemma presence_eqb_true (a b : DevicePresenceType) :
  presence_eqb a b = true <-> a = b.
Proof. destruct a, b; cbn; split; congruence. Qed.

(** The loop from its presence check on, when the check finds a change. *)
Lemma loop_on_change (name : string) (w3 : World) (p : DevicePresenceType) :
  name <> "status" ->
  let w4 := log (LogPresence p) (set_present p w3) in
  let w5 := publishStatus w4 in
  let wf := if statuss w5 && presence_eqb (present w5) Here
            then sendLocationUpdate (delay PUBLISH_INTERVAL_MS w5)
            else w5 in
  present wf = p /\ statuss wf = statuss w3 /\
  (exists n a s r d o c t,
     published "status" (trace wf)
     = (PStatus n a s r (messages p) d o c, t) :: published "status" (trace w3)) /\
  (statuss w3 && presence_eqb p Here = false ->
   published name (trace wf) = published name (trace w3)) /\
  (name = "location" -> statuss w3 && presence_eqb p Here = true ->
   exists q t, published name (trace wf) = (q, t) :: published name (trace w3)).
Proof.
  intros Hn w4 w5 wf.
  destruct (publishStatus_shape w4) as (n & a & s & r & d & o & c & t & Ht & K).
  fold w5 in Ht, K.
  destruct (kept_fields _ _ K)
    as (Es & _ & _ & _ & _ & _ & _ & _ & _ & _ & _ & _ & _ & _ & _ & Ep & _).
  change (present w4) with p in *. change (statuss w4) with (statuss w3) in Es.
  change (trace w4) with (Log (ms_now w3) (LogPresence p) :: trace w3) in Ht.
  assert (Q5 : published name (trace w5) = published name (trace w3)).
  { rewrite Ht. cbn [published].
    destruct (String.eqb_spec "status" name) as [E | _]; [congruence | reflexivity]. }
  assert (S5 : published "status" (trace w5)
               = (PStatus n a s r (messages p) d o c, t)
                   :: published "status" (trace w3)).
  { rewrite Ht. reflexivity. }
  clearbody w5. unfold wf. rewrite Es, Ep.
  destruct (statuss w3 && presence_eqb p Here) eqn:Ec.
  - assert (L : Later w5 (delay PUBLISH_INTERVAL_MS w5))
      by (apply Later_delay; discriminate).
    revert L. generalize (delay PUBLISH_INTERVAL_MS w5). intros x L.
    destruct (Quietly_Later "status" _ _ L) as (L1 & L2 & L3).
    destruct (Quietly_Later name _ _ L) as (_ & _ & L4).
    destruct (Quietly_sendLocationUpdate "status" x ltac:(discriminate))
      as (M1 & M2 & M3).
    destruct (sendLocationUpdate_effect x) as (_ & q & t' & new & Hq & Hl).
    split; [congruence|]. split; [congruence|]. split.
    + exists n, a, s, r, d, o, c, t. rewrite M3, L3. exact S5.
    + split; [discriminate|].
      intros -> _. exists q, t'.
      rewrite Hq, published_logs by exact Hl.
      cbn [published]. rewrite String.eqb_refl, L4, Q5. reflexivity.
  - split; [exact Ep|]. split; [exact Es|]. split.
    + exists n, a, s, r, d, o, c, t. exact S5.
    + split; [intros _; exact Q5 | discriminate].
Qed.

(** X17. One iteration of the loop publishes a status event exactly when
    the presence label changes in it, and the event carries the new label:
    with the label unchanged the status events are as before; with the label
    changed exactly one is added, whose status field is the message of the
    new label. *)
Theorem X17_status_on_change (i : LoopInput) (w : World) :
  (present (loop i w) = present w ->
   published "status" (trace (loop i w)) = published "status" (trace w)) /\
  (present (loop i w) <> present w ->
   exists n a s r d o c t,
     published "status" (trace (loop i w))
     = (PStatus n a s r (messages (present (loop i w))) d o c, t)
         :: published "status" (trace w)).
Proof.
  destruct (loop_reaches_check "status" ltac:(discriminate) ltac:(discriminate)
              ltac:(discriminate) i w)
    as (w3 & (Hp & Hs & Hpub) & E).
  rewrite E. clear E.
  destruct (checkDeviceStateChanged_cases w3) as [C | (p & Hne & C)]; rewrite C.
  - split; [intros _; exact Hpub | intros H; congruence].
  - cbv zeta.
    destruct (loop_on_change "location" w3 p ltac:(discriminate))
      as (Fp & _ & (n & a & s & r & d & o & c & t & Fs) & _).
    cbv zeta in Fp, Fs. rewrite Fp. split.
    + intros H. congruence.
    + intros _. exists n, a, s, r, d, o, c, t. rewrite Fs, Hpub. reflexivity.
Qed.

Lemma X17_status_on_change_witness :
  let tracked := 0x112233445566 in
  let seen := mkLoopInput 1 16384 (3653 # 100)
                [(0%N, mkScanResult tracked (-60) "phone")] in
  let w := until 8000 (setup false (power_on tracked [])) in
  present w = PresenceUnknown /\ present (loop seen w) = Here /\
  exists n a s r d o c t,
    published "status" (trace (loop seen w))
    = (PStatus n a s r "here" d o c, t) :: published "status" (trace w).
Proof.
  intros tracked seen w.
  assert (H : present (loop seen w) <> present w) by discriminate.
  split; [reflexivity|]. split; [reflexivity|].
  exact (proj2 (X17_status_on_change seen w) H).
Defined.

(** X18. One iteration of the loop publishes a location event exactly when
    location push is enabled and the presence label changes to Here in it:
    then one location event is added, and otherwise none. *)
Theorem X18_location_on_arrival (i : LoopInput) (w : World) :
  (statuss w = true -> present (loop i w) = Here -> present w <> Here ->
   exists q t,
     published "location" (trace (loop i w))
     = (q, t) :: published "location" (trace w)) /\
  (statuss w = false \/ present (loop i w) <> Here
   \/ present (loop i w) = present w ->
   published "location" (trace (loop i w)) = published "location" (trace w)).
Proof.
  destruct (loop_reaches_check "location" ltac:(discriminate) ltac:(discriminate)
              ltac:(discriminate) i w)
    as (w3 & (Hp & Hs & Hpub) & E).
  rewrite E. clear E.
  destruct (checkDeviceStateChanged_cases w3) as [C | (p & Hne & C)]; rewrite C.
  - split; [intros _ H1 H2; congruence | intros _; exact Hpub].
  - cbv zeta.
    destruct (loop_on_change "location" w3 p ltac:(discriminate))
      as (Fp & _ & _ & Fno & Fyes).
    cbv zeta in Fp, Fno, Fyes. rewrite Fp. split.
    + intros H1 H2 _. subst p.
      destruct (Fyes eq_refl) as (q & t & Hq).
      { rewrite Hs, H1. reflexivity. }
      exists q, t. rewrite Hq, Hpub. reflexivity.
    + intros H. rewrite Fno, Hpub; [reflexivity|].
      rewrite Hs. destruct H as [H | [H | H]].
      * rewrite H. reflexivity.
      * destruct (presence_eqb p Here) eqn:Ee; [|apply andb_false_r].
        apply presence_eqb_true in Ee. contradiction.
      * congruence.
Qed.

Lemma X18_location_on_arrival_witness :
  let tracked := 0x112233445566 in
  let seen := mkLoopInput 1 16384 (3653 # 100)
                [(0%N, mkScanResult tracked (-60) "phone")] in
  let w := until 8000 (snd (setStatusFunction "on"
                              (setup false (power_on tracked [])))) in
  statuss w = true /\ present (loop seen w) = Here /\ present w <> Here /\
  List.length (published "location" (trace (loop seen w))) = 1%nat /\
  dispatch_times (loop seen w) = [8000; 9100].
Proof.
  intros tracked seen w.
  assert (H1 : statuss w = true) by reflexivity.
  assert (H2 : present (loop seen w) = Here) by reflexivity.
  assert (H3 : present w <> Here) by discriminate.
  split; [exact H1|]. split; [exact H2|]. split; [exact H3|].
  destruct (proj1 (X18_location_on_arrival seen w) H1 H2 H3) as (q & t & Hq).
  split; [rewrite Hq; reflexivity | reflexivity].
Defined.

(** ** The status payload *)

Lemma int32_t_cases (x : Z) :
  0 <= x < 2 ^ 32 ->
  int32_t x = if x <? 2 ^ 31 then x else x - 2 ^ 32.
Proof.
  intros H. unfold int32_t.
  destruct (Z.ltb_spec x (2 ^ 31)) as [L | L].
  - rewrite Z.mod_small by lia. lia.
  - replace (x + 2 ^ 31) with (x - 2 ^ 31 + 1 * 2 ^ 32) by lia.
    rewrite Z.mod_add by lia. rewrite Z.mod_small by lia. lia.
Qed.

Lemma statusData_kept (a b : World) :
  kept a = kept b -> statusData a = statusData b.
Proof.
  intros K.
  destruct (kept_fields _ _ K)
    as (_ & E2 & E3 & _ & E5 & E6 & E7 & _ & _ & _ & _ & _ & E13 & _ & E15
        & E16 & _).
  unfold statusData, nameField. rewrite E2, E3, E5, E6, E7, E13, E15, E16.
  reflexivity.
Qed.

Lemma publishStatus_payload (w : World) :
  exists t,
    trace (publishStatus w) = Publish "status" (statusData w) t :: trace w /\
    status (publishStatus w) = statusData w.
Proof.
  rewrite publishStatus_via. unfold publishVia.
  destruct (publishCore_spec "status" statusData
              (fun w => set_status (statusData w) w)
              (Silent_set_status statusData) w)
    as (K1 & _ & Ht & _).
  cbv beta in *.
  assert (Es : status (publishCore "status" statusData
                         (fun w => set_status (statusData w) w) w)
               = statusData (pass (waitPublish w))).
  { unfold publishCore. cbv beta zeta.
    generalize (pass (waitPublish w)). intros x.
    unfold Particle_publish.
    set (y := emit _ (set_status (statusData x) x)).
    change (status (pass y) = status y).
    unfold status. rewrite pass_g. reflexivity. }
  assert (K0 : kept (pass (waitPublish w)) = kept w).
  { rewrite <- K1. symmetry. apply (Silent_set_status statusData). }
  apply statusData_kept in K1. apply statusData_kept in K0.
  rewrite K1 in Ht. rewrite K0 in Es.
  revert Ht Es.
  generalize (publishCore "status" statusData
                (fun w => set_status (statusData w) w) w).
  generalize (ms_now (set_status (statusData (pass (waitPublish w)))
                        (pass (waitPublish w)))).
  intros t w3 Ht Es.
  exists t. split.
  - unfold Particle_process. rewrite pass_trace. exact Ht.
  - unfold Particle_process, status. rewrite pass_g. exact Es.
Qed.

(** X19. The status event. The payload the status path publishes, and keeps
    in [status], is built from the globals as they are when the path is
    entered, however long the path waits for the publish budget. Its
    lastSeen field is the last-contact timestamp as [%d] prints it: the
    timestamp itself while it is below 2^31 ms, and the timestamp minus 2^32,
    a negative number, from 2^31 ms (some 24.9 days of uptime) on. *)
Theorem X19_status_payload (w : World) :
  0 <= lastSeen w < 2 ^ 32 ->
  let printed :=
    PStatus (nameField w) (searchAddress w)
            (if lastSeen w <? 2 ^ 31 then lastSeen w else lastSeen w - 2 ^ 32)
            (lastRSSI w) (messages (present w)) (currentDepartment w)
            (currentOrientation w) (currentTemperature w) in
  (exists t, trace (publishStatus w) = Publish "status" printed t :: trace w) /\
  status (publishStatus w) = printed.
Proof.
  intros Hr printed.
  assert (E : statusData w = printed).
  { unfold statusData, printed. rewrite (int32_t_cases _ Hr). reflexivity. }
  destruct (publishStatus_payload w) as (t & Ht & Hs).
  rewrite E in Ht, Hs. split; [exists t; exact Ht | exact Hs].
Qed.

Lemma X19_status_payload_witness :
  let w := set_lastSeen 3000000000
             (until 3000000100 (setup false (power_on 0x112233445566 []))) in
  0 <= lastSeen w < 2 ^ 32 /\
  status (publishStatus w)
  = PStatus None 0x112233445566 (-1294967296) 0 "unknown" "" lying_down 0.
Proof.
  intros w.
  assert (H : 0 <= lastSeen w < 2 ^ 32) by (vm_compute; split; congruence).
  split; [exact H|].
  exact (proj2 (X19_status_payload w H)).
Defined.
